(** * Wind-turbine mock backend: power-output generation and streaming

    A shallow embedding of the synthetic power-output generator, the
    weather model, the external simulator loop
    ([streaming-service/simulator.js]) and of the streaming routes of
    the API server ([src/routes/streaming.js], with
    [src/services/dataGenerator.js], [src/utils/pagination.js] and
    [src/utils/queryNormalizer.js]).

    Conventions of the embedding.
    - JavaScript numbers are idealised as exact rationals ([Q]); the
      column [ratedCapacityKW] is declared [DataTypes.INTEGER] and is a
      [Z].  [Math.round x] is [Qfloor (x + 0.5)].
    - [Math.random()], faker's generator and [new Date()] are oracles
      of the environment, read through a cursor kept in the state, so
      that every draw is an explicit input of the model.
    - Module-level variables ([weatherEvent], [weatherEventDuration],
      [sseConnections]) and the database tables are fields of an
      explicit state threaded by a state-and-exception monad.
    - [console.log] / [console.error], timers and SSE writes are
      appended to traces kept in the state. *)

From Stdlib Require Import ZArith QArith Qround Qminmax Lqa Lia List String Ascii Bool.
From Stdlib Require Import DecimalString DecimalNat.
From stdpp Require Import base gmap strings list.

Open Scope Q_scope.
#[local] Set Warnings "-register-all".

(** ** JavaScript arithmetic on idealised numbers *)

Definition Qltb (x y : Q) : bool := negb (Qle_bool y x).

(** [Math.round]: nearest integer, halves towards +infinity. *)
Definition Math_round (x : Q) : Z := Qfloor (x + 0.5).

(** [Math.floor]. *)
Definition Math_floor (x : Q) : Z := Qfloor x.

Definition Math_max (x y : Q) : Q := Qmax x y.
Definition Math_min (x y : Q) : Q := Qmin x y.

(** The idiom [Math.round(x * 100) / 100] used by every generator. *)
Definition round2 (x : Q) : Q := inject_Z (Math_round (x * 100)) / 100.

(** [arr[i]] for a computed index: [undefined] (here [None]) outside
    the array. *)
Definition js_index {A} (arr : list A) (i : Z) : option A :=
  if (i <? 0)%Z then None else nth_error arr (Z.to_nat i).

(** ** State and exception monad *)

Record Error := mkError { message : string }.

Inductive Res (A : Type) : Type :=
| Ok (a : A)
| Throw (e : Error).
Arguments Ok {A} a.
Arguments Throw {A} e.

Definition M (S A : Type) : Type := S -> Res A * S.

Definition ret {S A} (a : A) : M S A := fun s => (Ok a, s).

Definition bind {S A B} (c : M S A) (k : A -> M S B) : M S B :=
  fun s => match c s with
           | (Ok a, s') => k a s'
           | (Throw e, s') => (Throw e, s')
           end.

Definition throw {S A} (e : Error) : M S A := fun s => (Throw e, s).

(** [try { c } catch (error) { h error }]. *)
Definition try_catch {S A} (c : M S A) (h : Error -> M S A) : M S A :=
  fun s => match c s with
           | (Ok a, s') => (Ok a, s')
           | (Throw e, s') => h e s'
           end.

Definition get {S} : M S S := fun s => (Ok s, s).
Definition modify {S} (f : S -> S) : M S unit := fun s => (Ok tt, f s).

Notation "'let!' x ':=' c 'in' k" := (bind c (fun x => k))
  (at level 10, x name, c at level 100, k at level 200,
   format "'[v' 'let!'  x  ':='  c  'in' '/' k ']'").

(** [for (const x of xs) { body x }]. *)
Fixpoint for_of {S A} (xs : list A) (body : A -> M S unit) : M S unit :=
  match xs with
  | [] => ret tt
  | x :: xs' => let! _ := body x in for_of xs' body
  end.

(** [xs.map(f)] for an effectful callback, left to right. *)
Fixpoint map_M {S A B} (f : A -> M S B) (xs : list A) : M S (list B) :=
  match xs with
  | [] => ret []
  | x :: xs' => let! y := f x in let! ys := map_M f xs' in ret (y :: ys)
  end.

(** ** Shared data *)

(** A [Date]: its local hour and its epoch time in milliseconds. *)
Record Date := mkDate { getHours : Z; getTime : Z }.

(** Pieces of a template literal passed to the console. *)
Inductive Piece :=
| Str (s : string)
| Int (z : Z)
| Num (q : Q).

Inductive ConsoleLine :=
| console_log (text : list Piece)
| console_error (text : list Piece).

(** ** The external simulator: [streaming-service/simulator.js] *)

Module Simulator.

(** What the process reads from outside: successive results of
    [Math.random()] and of [new Date()]. *)
Record Env := mkEnv {
  Math_random : nat -> Q;
  now : nat -> Date
}.

(** A turbine as returned by [GET /api/1/windturbines]. *)
Record Turbine := mkTurbine {
  id : string;
  ratedCapacityKW : Z
}.

Record WeatherEvent := mkEvent {
  type : string;
  factor : Q;
  duration : Z
}.

(** The object returned by [generatePowerOutput]; a normal reading has
    no [outlier] and no [outlierType] property. *)
Record Reading := mkReading {
  windTurbineId : string;
  powerKW : Q;
  timestamp : Date;
  outlier : bool;
  outlierType : option string
}.

(** Body of the batch endpoint's answer. *)
Record BatchResponse := mkBatchResponse {
  savedCount : Z;
  totalReceived : Z
}.

Inductive Effect :=
| Console (line : ConsoleLine)
| SetTimeout_runSimulation (ms : Z)
| Await_timeout (ms : Z)
| Http_post_batch (readings : list Reading).

(** Module-level variables [weatherEvent] and [weatherEventDuration],
    the cursors into the oracles and the trace of effects. *)
Record State := mkState {
  weatherEvent : option WeatherEvent;
  weatherEventDuration : Z;
  random_cursor : nat;
  clock_cursor : nat;
  trace : list Effect
}.

Definition set_weatherEvent (e : option WeatherEvent) (s : State) : State :=
  mkState e (weatherEventDuration s) (random_cursor s) (clock_cursor s) (trace s).
Definition set_weatherEventDuration (d : Z) (s : State) : State :=
  mkState (weatherEvent s) d (random_cursor s) (clock_cursor s) (trace s).
Definition set_random_cursor (n : nat) (s : State) : State :=
  mkState (weatherEvent s) (weatherEventDuration s) n (clock_cursor s) (trace s).
Definition set_clock_cursor (n : nat) (s : State) : State :=
  mkState (weatherEvent s) (weatherEventDuration s) (random_cursor s) n (trace s).
Definition push_effect (e : Effect) (s : State) : State :=
  mkState (weatherEvent s) (weatherEventDuration s) (random_cursor s)
          (clock_cursor s) (trace s ++ [e]).

Definition BATCH_SIZE : nat := 20.

(** [events] of [simulateWeatherEvents]. *)
Definition events : list WeatherEvent :=
  [ mkEvent "storm" 0.2 5;
    mkEvent "high_pressure" 1.5 10;
    mkEvent "maintenance_window" 0 3 ].

(** [turbines.slice(i, i + BATCH_SIZE)] for [i = 0, BATCH_SIZE, ...]. *)
Fixpoint batches_of {A} (fuel : nat) (turbines : list A) : list (list A) :=
  match fuel, turbines with
  | O, _ | _, [] => []
  | S fuel', _ =>
      firstn BATCH_SIZE turbines :: batches_of fuel' (skipn BATCH_SIZE turbines)
  end.

Section Process.

Variable env : Env.
(** [config.outlierChance], an integer percentage. *)
Variable OUTLIER_CHANCE : Z.
(** [parseInt(process.env.STREAMING_INTERVAL) || 10], in seconds. *)
Variable STREAMING_INTERVAL : Z.
(** Outcome of the HTTP calls of one cycle: the promise of
    [fetchActiveTurbines] and of [sendPowerReadings] resolves ([Ok]) or
    rejects ([Throw]). *)
Variable http_get_turbines : Res (list Turbine).
Variable http_post_batch : list Reading -> Res BatchResponse.

Definition random : M State Q :=
  fun s => (Ok (Math_random env (random_cursor s)),
            set_random_cursor (S (random_cursor s)) s).

Definition new_Date : M State Date :=
  fun s => (Ok (now env (clock_cursor s)),
            set_clock_cursor (S (clock_cursor s)) s).

Definition emit (e : Effect) : M State unit := modify (push_effect e).
Definition log (text : list Piece) : M State unit :=
  emit (Console (console_log text)).
Definition log_error (text : list Piece) : M State unit :=
  emit (Console (console_error text)).

(** [getTimeBasedWindFactor]: reads the clock itself. *)
Definition getTimeBasedWindFactor : M State Q :=
  let! d := new_Date in
  let hour := getHours d in
  if ((hour >=? 22) || (hour <=? 6))%Z then ret 1.2
  else if ((hour >=? 10) && (hour <=? 16))%Z then ret 0.6
  else ret 0.9.

(** [simulateWeatherEvents]. *)
Definition simulateWeatherEvents : M State Q :=
  let! s0 := get in
  let! _ :=
    match weatherEvent s0 with
    | Some _ => ret tt
    | None =>
        let! u := random in
        if Qltb u 0.05 then
          let! v := random in
          match js_index events (Math_floor (v * inject_Z (Z.of_nat (length events)))) with
          | Some e =>
              let! _ := modify (set_weatherEvent (Some e)) in
              let! _ := modify (set_weatherEventDuration (duration e)) in
              log [Str "Weather event started: "; Str (type e); Str " for ";
                   Int (duration e); Str " cycles"]
          | None =>
              throw (mkError "Cannot read properties of undefined (reading 'duration')")
          end
        else ret tt
    end in
  let! s1 := get in
  match weatherEvent s1 with
  | Some e =>
      let currentFactor := factor e in
      let! _ := modify (set_weatherEventDuration (weatherEventDuration s1 - 1)) in
      let! _ :=
        if (weatherEventDuration s1 - 1 <=? 0)%Z then
          let! _ := log [Str "Weather event ended: "; Str (type e)] in
          modify (set_weatherEvent None)
        else ret tt in
      ret currentFactor
  | None => ret 1.0
  end.

Record OutlierType := mkOutlierType {
  name : string;
  description : string;
  generator : M State Q
}.

(** [outlierTypes] of [generateOutlierReading]. *)
Definition outlierTypes (turbine : Turbine) : list OutlierType :=
  let R := inject_Z (ratedCapacityKW turbine) in
  [ mkOutlierType "negative_reading" "Negative power (sensor malfunction)"
      (let! u := random in ret (- (u * R * 0.5)));
    mkOutlierType "zero_reading" "Zero power (sensor disconnected)"
      (ret 0);
    mkOutlierType "extremely_high" "Extremely high reading (sensor spike)"
      (let! u := random in ret (R * (2 + u * 3)));
    mkOutlierType "minor_negative" "Minor negative reading (calibration issue)"
      (let! u := random in ret (- (u * 50)));
    mkOutlierType "unrealistic_spike" "Unrealistic power spike"
      (let! u := random in ret (R * (1.5 + u * 2))) ].

(** [generateOutlierReading]. *)
Definition generateOutlierReading (turbine : Turbine) (timestamp : Date)
  : M State Reading :=
  let! u := random in
  match js_index (outlierTypes turbine)
                 (Math_floor (u * inject_Z (Z.of_nat (length (outlierTypes turbine))))) with
  | None => throw (mkError "Cannot read properties of undefined (reading 'generator')")
  | Some selectedOutlier =>
      let! x := generator selectedOutlier in
      let powerKW := round2 x in
      let! _ := log [Str "OUTLIER: Turbine "; Str (substring 0 8 (id turbine));
                     Str "... - "; Str (description selectedOutlier); Str ": ";
                     Num powerKW; Str "kW"] in
      ret (mkReading (id turbine) powerKW timestamp true
                     (Some (name selectedOutlier)))
  end.

(** [generatePowerOutput]. *)
Definition generatePowerOutput (turbine : Turbine) (timestamp : Date)
  : M State Reading :=
  let R := inject_Z (ratedCapacityKW turbine) in
  let! is_outlier :=
    if (OUTLIER_CHANCE >? 0)%Z then
      let! u := random in ret (Qltb (u * 100) (inject_Z OUTLIER_CHANCE))
    else ret false in
  if is_outlier then generateOutlierReading turbine timestamp
  else
    let hour := getHours timestamp in (* not used *)
    let! windStrength := getTimeBasedWindFactor in
    let! weather := simulateWeatherEvents in
    let windStrength := windStrength * weather in
    let! u := random in
    let windVariation := 0.8 + u * 0.4 in
    let windStrength := windStrength * windVariation in
    let! u' := random in
    let turbineEfficiency := 0.85 + u' * 0.3 in
    let powerKW := R * windStrength * turbineEfficiency in
    let powerKW := Math_max 0 (Math_min powerKW (R * 1.2)) in
    ret (mkReading (id turbine) (round2 powerKW) timestamp false None).

Definition fetchActiveTurbines : M State (list Turbine) :=
  fun s => (http_get_turbines, s).

Definition sendPowerReadings (readings : list Reading) : M State BatchResponse :=
  fun s => (http_post_batch readings, push_effect (Http_post_batch readings) s).

(** One batch of the loop [for (const batch of batches)]. *)
Definition process_batch (batch : list Turbine) : M State unit :=
  let! timestamp := new_Date in
  let! readings := map_M (fun turbine => generatePowerOutput turbine timestamp) batch in
  let outlierCount := Z.of_nat (length (filter (fun r => outlier r) readings)) in
  let! _ :=
    try_catch
      (let! result := sendPowerReadings readings in
       let outlierSuffix :=
         if (outlierCount >? 0)%Z
         then [Str " ("; Int outlierCount; Str " outliers)"] else [] in
       log ([Str "Sent "; Int (savedCount result); Str "/";
             Int (totalReceived result); Str " power readings for batch"]
              ++ outlierSuffix))
      (fun error => log_error [Str "Error sending batch:"; Str (message error)]) in
  emit (Await_timeout 1000).

(** [runSimulation]: one pass of the loop.  The boolean of the [try]
    body tells whether it left the function through [return]. *)
Definition runSimulation : M State unit :=
  let! returned :=
    try_catch
      (let! _ := log [Str "Fetching active turbines..."] in
       let! turbines := fetchActiveTurbines in
       if (length turbines =? 0)%nat then
         let! _ := log [Str "No active turbines found. Retrying in 30 seconds..."] in
         let! _ := emit (SetTimeout_runSimulation 30000) in
         ret true
       else
         let! _ := log [Str "Found "; Int (Z.of_nat (length turbines));
                        Str " active turbines"] in
         let batches := batches_of (length turbines) turbines in
         let! _ := for_of batches process_batch in
         let! _ := log [Str "Simulation cycle completed. Next cycle in ";
                        Int STREAMING_INTERVAL; Str " seconds."] in
         ret false)
      (fun error =>
         let! _ := log_error [Str "Simulation error:"; Str (message error)] in
         let! _ := log [Str "Retrying in 30 seconds..."] in
         ret false) in
  if returned : bool then ret tt
  else emit (SetTimeout_runSimulation (STREAMING_INTERVAL * 1000)).

End Process.

End Simulator.

(** ** JavaScript strings and values used by the API server *)

Module Js.

(** Values of a parsed JSON body. *)
Inductive JSON :=
| JNull
| JBool (b : bool)
| JNumber (q : Q)
| JString (s : string)
| JArray (items : list JSON)
| JObject (fields : list (string * JSON)).

(** Truthiness of a property read; [None] is [undefined]. *)
Definition truthy (v : option JSON) : bool :=
  match v with
  | None | Some JNull => false
  | Some (JBool b) => b
  | Some (JNumber q) => negb (Qeq_bool q 0)
  | Some (JString s) => negb (String.eqb s "")
  | Some (JArray _) | Some (JObject _) => true
  end.

(** [typeof v === 'number']. *)
Definition is_number (v : option JSON) : bool :=
  match v with
  | Some (JNumber _) => true
  | _ => false
  end.

Fixpoint assoc (k : string) (fields : list (string * JSON)) : option JSON :=
  match fields with
  | [] => None
  | (k', v) :: rest => if String.eqb k k' then Some v else assoc k rest
  end.

(** [v.k]: a [TypeError] on [null], [undefined] on a value without the
    property. *)
Definition prop (v : JSON) (k : string) : Res (option JSON) :=
  match v with
  | JNull => Throw (mkError "Cannot read properties of null")
  | JObject fields => Ok (assoc k fields)
  | _ => Ok None
  end.

Definition is_upper (c : ascii) : bool :=
  (65 <=? nat_of_ascii c)%nat && (nat_of_ascii c <=? 90)%nat.

Definition lower_ascii (c : ascii) : ascii :=
  if is_upper c then ascii_of_nat (nat_of_ascii c + 32) else c.

(** [s.toLowerCase()] on ASCII text. *)
Fixpoint toLowerCase (s : string) : string :=
  match s with
  | EmptyString => EmptyString
  | String c rest => String (lower_ascii c) (toLowerCase rest)
  end.

(** White space skipped by [trim] and [parseInt]: tab, line feed,
    vertical tab, form feed, carriage return, space. *)
Definition is_white (c : ascii) : bool :=
  let n := nat_of_ascii c in
  ((9 <=? n)%nat && (n <=? 13)%nat) || (n =? 32)%nat.

Fixpoint trimStart (s : string) : string :=
  match s with
  | String c rest => if is_white c then trimStart rest else s
  | EmptyString => EmptyString
  end.

Fixpoint trimEnd (s : string) : string :=
  match s with
  | EmptyString => EmptyString
  | String c rest =>
      match trimEnd rest with
      | EmptyString => if is_white c then EmptyString else String c EmptyString
      | rest' => String c rest'
      end
  end.

Definition trim (s : string) : string := trimEnd (trimStart s).

(** [s.split(sep)] for a one-character separator; the result is never
    empty. *)
Fixpoint split (sep : ascii) (s : string) : list string :=
  match s with
  | EmptyString => [EmptyString]
  | String c rest =>
      if Ascii.eqb c sep then EmptyString :: split sep rest
      else match split sep rest with
           | piece :: pieces => String c piece :: pieces
           | [] => [String c EmptyString]
           end
  end.

(** Value of a digit in radix 10 or 16. *)
Definition digit_value (radix : Z) (c : ascii) : option Z :=
  let n := Z.of_nat (nat_of_ascii c) in
  let d :=
    if (48 <=? n)%Z && (n <=? 57)%Z then Some (n - 48)%Z
    else if (97 <=? n)%Z && (n <=? 102)%Z then Some (n - 87)%Z
    else if (65 <=? n)%Z && (n <=? 70)%Z then Some (n - 55)%Z
    else None in
  match d with
  | Some v => if (v <? radix)%Z then Some v else None
  | None => None
  end.

(** Longest prefix of digits, accumulated; [None] when there is none. *)
Fixpoint digits (radix : Z) (acc : option Z) (s : string) : option Z :=
  match s with
  | EmptyString => acc
  | String c rest =>
      match digit_value radix c with
      | Some v =>
          digits radix (Some (radix * default 0%Z acc + v)%Z) rest
      | None => acc
      end
  end.

(** [parseInt(s)] without a radix argument: [None] is [NaN]. *)
Definition parseInt (s : string) : option Z :=
  let s := trimStart s in
  let '(sign, s) :=
    match s with
    | String "-" rest => ((-1)%Z, rest)
    | String "+" rest => (1%Z, rest)
    | _ => (1%Z, s)
    end in
  let '(radix, s) :=
    match s with
    | String "0" (String "x" rest) | String "0" (String "X" rest) => (16%Z, rest)
    | _ => (10%Z, s)
    end in
  match digits radix None s with
  | Some n => Some (sign * n)%Z
  | None => None
  end.

End Js.

(** ** Pagination helper: [src/utils/pagination.js] *)

Module Pagination.

Definition DEFAULT_LIMIT : Z := 25.
Definition MAX_LIMIT : Z := 100.
Definition MIN_LIMIT : Z := 1.

(** [validateLimit(limit, defaultLimit = DEFAULT_LIMIT)] for an
    integer-valued number [limit], for which [parseInt(limit)] is
    [limit]; [0] is falsy, so [0 || defaultLimit] is [defaultLimit]. *)
Definition validateLimit (limit : Z) (defaultLimit : Z) : Z :=
  let parsedLimit := if (limit =? 0)%Z then defaultLimit else limit in
  Z.min MAX_LIMIT (Z.max MIN_LIMIT parsedLimit).

End Pagination.

(** ** Query normaliser: [src/utils/queryNormalizer.js] *)

Module QueryNormalizer.

(** What the empty object [{}] gives under a lower-case name that it
    does not hold itself: the members [constructor] and [__proto__] of
    [Object.prototype], each written as the property key it becomes
    when it is used as one ([String(Object)] and
    [String(Object.prototype)]).  The names of the other members have a
    capital letter. *)
Definition Object_prototype (lowerKey : string) : option string :=
  if String.eqb lowerKey "constructor" then Some "function Object() { [native code] }"%string
  else if String.eqb lowerKey "__proto__" then Some "[object Object]"%string
  else None.

(** [normalizeQueryParams(query, expectedParams)].  [query] lists the
    own keys of [req.query] with their values, in the order of
    [Object.keys].  [paramMap] is a plain
    object: it holds the expected names under their lower case (the
    assignment of a string to [paramMap['__proto__']] sets nothing) and
    inherits from [Object.prototype].  No normalised key is
    ['__proto__'], so every assignment to [normalized] sets an own
    property. *)
Definition normalizeQueryParams (query : list (string * string))
    (expectedParams : list string) : gmap string string :=
  let paramMap : gmap string string :=
    foldl (fun m param =>
             if String.eqb (Js.toLowerCase param) "__proto__" then m
             else <[Js.toLowerCase param := param]> m)
          ∅ expectedParams in
  foldl (fun normalized '(key, value) =>
           let lowerKey := Js.toLowerCase key in
           let normalizedKey :=
             match paramMap !! lowerKey with
             | Some p => if String.eqb p "" then key else p
             | None =>
                 match Object_prototype lowerKey with
                 | Some member => member
                 | None => key
                 end
             end in
           <[normalizedKey := value]> normalized)
        ∅ query.

End QueryNormalizer.

(** ** The API server: [src/services/dataGenerator.js] and
       [src/routes/streaming.js] *)

Module Api.

Import Js.

(** Row of [wind_turbines] ([ratedCapacityKW] is [DataTypes.INTEGER]). *)
Record WindTurbine := mkWindTurbine {
  id : string;
  name : string;
  active : bool;
  ratedCapacityKW : Z
}.

(** Object returned by [generatePowerOutput]. *)
Record PowerData := mkPowerData {
  windTurbineId : string;
  timestamp : Date;
  powerKW : Q
}.

(** Attributes handed to [PowerOutput.create]; the batch route passes
    the reading's [windTurbineId] as it came in the body. *)
Record PowerOutputAttrs := mkAttrs {
  attr_windTurbineId : JSON;
  attr_powerKW : Q;
  attr_timestamp : Date
}.

(** Entry of the array [powerOutputs] of a [power-output] event;
    [efficiency] is [None] when the division gives [NaN]. *)
Record PowerOutputEntry := mkEntry {
  turbineId : string;
  turbineName : string;
  entry_powerKW : Q;
  entry_ratedCapacityKW : Z;
  efficiency : option Q;
  entry_timestamp : Date
}.

Inductive SseEvent :=
| connected (connectionId : string) (interval : option Z)
            (turbineFilter : list string) (turbineCount : nat)
| power_output (timestamp : Date) (turbineCount : nat)
               (powerOutputs : list PowerOutputEntry)
| error_event (error : string).

Inductive Body :=
| error_body (error message : string)
| saved_body (message : string) (savedCount totalReceived : nat).

(** Calls made on the response object [res]. *)
Inductive ResOp :=
| res_status_json (status : Z) (body : Body)
| res_writeHead (status : Z)
| res_end (body : Body)
| res_write_event (event : SseEvent).

(** A timer armed by [setInterval(sendPowerData, intervalMs)]: its
    delay ([None] is [NaN]) and the [turbineFilter] captured by the
    callback. *)
Record Interval := mkInterval {
  intervalMs : option Z;
  callback_turbineFilter : list string
}.

(** Value of [sseConnections]; [intervalId] is the position of the
    timer in the timer table. *)
Record Connection := mkConnection {
  intervalId : nat;
  conn_turbineFilter : list string;
  startTime : Date
}.

(** What the process reads from outside: faker's generator,
    [Math.random()], the clock, the [Date] constructor on a body value,
    the formatting of a connection identifier, and whether the store
    accepts a row. *)
Record Env := mkEnv {
  faker_real : nat -> Q;
  Math_random : nat -> Q;
  now : nat -> Date;
  Date_of : JSON -> Date;
  format_connectionId : Z -> Q -> string;
  PowerOutput_accepts : PowerOutputAttrs -> bool
}.

Record State := mkState {
  wind_turbines : list WindTurbine;
  power_outputs : list PowerOutputAttrs;
  sseConnections : gmap string Connection;
  intervals : list Interval;
  faker_cursor : nat;
  random_cursor : nat;
  clock_cursor : nat;
  console : list ConsoleLine
}.

Definition set_power_outputs (rows : list PowerOutputAttrs) (s : State) : State :=
  mkState (wind_turbines s) rows (sseConnections s) (intervals s) (faker_cursor s)
          (random_cursor s) (clock_cursor s) (console s).
Definition set_sseConnections (m : gmap string Connection) (s : State) : State :=
  mkState (wind_turbines s) (power_outputs s) m (intervals s) (faker_cursor s)
          (random_cursor s) (clock_cursor s) (console s).
Definition set_intervals (l : list Interval) (s : State) : State :=
  mkState (wind_turbines s) (power_outputs s) (sseConnections s) l (faker_cursor s)
          (random_cursor s) (clock_cursor s) (console s).
Definition set_faker_cursor (n : nat) (s : State) : State :=
  mkState (wind_turbines s) (power_outputs s) (sseConnections s) (intervals s) n
          (random_cursor s) (clock_cursor s) (console s).
Definition set_random_cursor (n : nat) (s : State) : State :=
  mkState (wind_turbines s) (power_outputs s) (sseConnections s) (intervals s) (faker_cursor s)
          n (clock_cursor s) (console s).
Definition set_clock_cursor (n : nat) (s : State) : State :=
  mkState (wind_turbines s) (power_outputs s) (sseConnections s) (intervals s) (faker_cursor s)
          (random_cursor s) n (console s).
Definition push_console (l : ConsoleLine) (s : State) : State :=
  mkState (wind_turbines s) (power_outputs s) (sseConnections s) (intervals s) (faker_cursor s)
          (random_cursor s) (clock_cursor s) (console s ++ [l]).

Section Server.

Variable env : Env.

Definition random : M State Q :=
  fun s => (Ok (Math_random env (random_cursor s)),
            set_random_cursor (S (random_cursor s)) s).

Definition new_Date : M State Date :=
  fun s => (Ok (now env (clock_cursor s)),
            set_clock_cursor (S (clock_cursor s)) s).

Definition log (text : list Piece) : M State unit :=
  modify (push_console (console_log text)).
Definition log_error (text : list Piece) : M State unit :=
  modify (push_console (console_error text)).

(** [faker.number.float({ min, max })] of @faker-js/faker: the
    generator's next real of [[0,1)] scaled into [[min,max)]. *)
Definition faker_number_float (min max : Q) : M State Q :=
  fun s => (Ok (faker_real env (faker_cursor s) * (max - min) + min),
            set_faker_cursor (S (faker_cursor s)) s).

(** The [if] chain of [generatePowerOutput] that assigns
    [windStrengthFactor]. *)
Definition draw_windStrengthFactor (hour : Z) : M State Q :=
  if ((hour >=? 22) || (hour <=? 6))%Z then faker_number_float 0.7 1.0
  else if ((hour >=? 10) && (hour <=? 16))%Z then faker_number_float 0.3 0.7
  else faker_number_float 0.5 0.9.

(** [generatePowerOutput] of [dataGenerator.js]. *)
Definition generatePowerOutput (windTurbineId : string) (ratedCapacityKW : Z)
    (timestamp : Date) : M State PowerData :=
  let R := inject_Z ratedCapacityKW in
  let hour := getHours timestamp in
  let! windStrengthFactor := draw_windStrengthFactor hour in
  let! randomFactor := faker_number_float 0.8 1.2 in
  let! turbineEfficiency := faker_number_float 0.85 1.15 in
  let powerKW := R * windStrengthFactor * randomFactor * turbineEfficiency in
  let powerKW := Math_min powerKW (R * 1.2) in
  let powerKW := Math_max 0 powerKW in
  ret (mkPowerData windTurbineId timestamp (round2 powerKW)).

(** [PowerOutput.create(attrs)]: appends the row or rejects. *)
Definition PowerOutput_create (attrs : PowerOutputAttrs) : M State PowerOutputAttrs :=
  fun s =>
    if PowerOutput_accepts env attrs
    then (Ok attrs, set_power_outputs (power_outputs s ++ [attrs]) s)
    else (Throw (mkError "SequelizeDatabaseError"), s).

(** [WindTurbine.findAll({ where: { active: true, id: { [Op.in]: ids } },
    limit })]; the query itself is taken to succeed. *)
Definition WindTurbine_findAll (ids : list string) (limit : Z)
  : M State (list WindTurbine) :=
  fun s =>
    (Ok (firstn (Z.to_nat limit)
           (filter (fun t => active t && existsb (String.eqb (id t)) ids)
                   (wind_turbines s))), s).

(** Body of the loop of [sendPowerData] for one turbine. *)
Definition power_entry (timestamp : Date) (turbine : WindTurbine)
  : M State PowerOutputEntry :=
  let! powerData :=
    generatePowerOutput (id turbine) (ratedCapacityKW turbine) timestamp in
  let! _ := PowerOutput_create
              (mkAttrs (JString (windTurbineId powerData)) (powerKW powerData)
                       (Api.timestamp powerData)) in
  ret (mkEntry (id turbine) (name turbine) (powerKW powerData)
               (ratedCapacityKW turbine)
               (if (ratedCapacityKW turbine =? 0)%Z then None
                else Some (round2 (powerKW powerData
                                   / inject_Z (ratedCapacityKW turbine) * 100)))
               timestamp).

(** [sendPowerData] of a connection: the calls it makes on [res]. *)
Definition sendPowerData (turbineFilter : list string) : M State (list ResOp) :=
  try_catch
    (let! turbines :=
       WindTurbine_findAll turbineFilter
         (Pagination.validateLimit 25 Pagination.DEFAULT_LIMIT) in
     let! timestamp := new_Date in
     let! powerOutputs := map_M (power_entry timestamp) turbines in
     ret [res_write_event
            (power_output timestamp (length powerOutputs) powerOutputs)])
    (fun error =>
       let! _ := log_error [Str "Error generating power data:"; Str (message error)] in
       ret [res_write_event (error_event "Failed to generate power data")]).

(** [setInterval(sendPowerData, intervalMs)]. *)
Definition setInterval_sendPowerData (intervalMs : option Z)
    (turbineFilter : list string) : M State nat :=
  fun s => (Ok (length (intervals s)),
            set_intervals (intervals s ++ [mkInterval intervalMs turbineFilter]) s).

(** [GET /api/1/stream/power-output]: the calls on [res] up to and
    including the first [sendPowerData]; a thrown error is the
    rejection of the promise of the handler.  [interval] defaults to
    the number [10]. *)
Definition get_power_output (query : list (string * string))
  : M State (list ResOp) :=
  let normalizedQuery :=
    QueryNormalizer.normalizeQueryParams query ["windTurbineIds"; "interval"] in
  let windTurbineIds := normalizedQuery !! "windTurbineIds" in
  let interval :=
    match normalizedQuery !! "interval" with
    | Some text => parseInt text
    | None => Some 10%Z
    end in
  match windTurbineIds with
  | None | Some EmptyString =>
      ret [res_status_json 400
             (error_body "Validation Error"
                "windTurbineIds parameter is required. Provide a comma-separated list of wind turbine IDs.")]
  | Some windTurbineIds =>
      let! date_now := new_Date in
      let! r := random in
      let connectionId := format_connectionId env (getTime date_now) r in
      let turbineFilter :=
        filter (fun id => negb (String.eqb id ""))
               (map trim (split "," windTurbineIds)) in
      if (length turbineFilter =? 0)%nat then
        (* [res.writeHead(200, ...)] has been called: the second
           [res.writeHead] throws, [res.end] is not reached and the
           promise of the handler rejects. *)
        throw (mkError "ERR_HTTP_HEADERS_SENT")
      else
        let! _ := log [Str "SSE client "; Str connectionId;
                       Str " connected (interval: ";
                       match normalizedQuery !! "interval" with
                       | Some text => Str text
                       | None => Int 10
                       end;
                       Str "s, turbines: "; Int (Z.of_nat (length turbineFilter));
                       Str ")"] in
        let intervalMs := option_map (fun n => n * 1000)%Z interval in
        let! intervalId := setInterval_sendPowerData intervalMs turbineFilter in
        let! startTime := new_Date in
        let! _ := modify (fun s =>
                    set_sseConnections
                      (<[connectionId := mkConnection intervalId turbineFilter startTime]>
                         (sseConnections s)) s) in
        let! first := sendPowerData turbineFilter in
        ret ([res_writeHead 200;
              res_write_event (connected connectionId interval turbineFilter
                                         (length turbineFilter))] ++ first)
  end.

(** A property read inside the handler. *)
Definition read {A} (r : Res A) : M State A := fun s => (r, s).

(** Loop body of the batch route for one element of [readings];
    [saved] is [savedReadings]. *)
Definition save_reading (saved : list PowerOutputAttrs) (reading : JSON)
  : M State (list PowerOutputAttrs) :=
  let! windTurbineId := read (prop reading "windTurbineId") in
  let! powerKW := read (prop reading "powerKW") in
  if negb (truthy windTurbineId) || negb (is_number powerKW) then ret saved
  else
    match windTurbineId, powerKW with
    | Some turbine, Some (JNumber power) =>
        let! timestamp := read (prop reading "timestamp") in
        let! date :=
          match timestamp with
          | Some t => if truthy timestamp then ret (Date_of env t) else new_Date
          | None => new_Date
          end in
        let! powerOutput := PowerOutput_create (mkAttrs turbine power date) in
        ret (saved ++ [powerOutput])
    | _, _ => ret saved (* excluded by the test above *)
    end.

Fixpoint save_readings (saved : list PowerOutputAttrs) (readings : list JSON)
  : M State (list PowerOutputAttrs) :=
  match readings with
  | [] => ret saved
  | reading :: rest =>
      let! saved' := save_reading saved reading in
      save_readings saved' rest
  end.

(** [POST /api/1/stream/power-output/batch] on the parsed body. *)
Definition post_power_output_batch (body : JSON) : M State ResOp :=
  try_catch
    (let! readings := read (prop body "readings") in
     match readings with
     | Some (JArray readings) =>
         let! savedReadings := save_readings [] readings in
         ret (res_status_json 201
                (saved_body "Power readings saved successfully"
                            (length savedReadings) (length readings)))
     | _ =>
         ret (res_status_json 400
                (error_body "Validation Error" "readings array is required"))
     end)
    (fun error =>
       let! _ := log_error [Str "Error saving batch power readings:";
                            Str (message error)] in
       ret (res_status_json 500
              (error_body "Internal Server Error" "Failed to save power readings"))).

End Server.

End Api.

(** * Further code of the repository *)

(** ** Command line of the simulator: [parseArgs] of
       [streaming-service/simulator.js] *)

Module SimulatorCli.

Record Config := mkConfig {
  outlierChance : Z;
  help : bool
}.

(** What [parseArgs] does: it returns a configuration, or the process
    exits with a code after writing lines to [console.error]. *)
Inductive Parsed :=
| parsed (config : Config)
| process_exit (code : Z) (stderr : list (list Piece)).

Definition is_help (arg : string) : bool :=
  String.eqb arg "--help" || String.eqb arg "-h".

Definition is_outlier_flag (arg : string) : bool :=
  String.eqb arg "--outlier-chance" || String.eqb arg "-o".

(** The [for] loop over [args], from position [i] on; [args[i + 1]] is
    [undefined] after the last argument and [parseInt(undefined)] is
    [NaN]. *)
Fixpoint parse_from (args : list string) (config : Config) : Parsed :=
  match args with
  | [] => parsed config
  | arg :: rest =>
      if is_help arg then parse_from rest (mkConfig (outlierChance config) true)
      else if is_outlier_flag arg then
        match rest with
        | next :: rest' =>
            match Js.parseInt next with
            | Some value =>
                if (0 <=? value)%Z && (value <=? 100)%Z
                then parse_from rest' (mkConfig value (help config))
                else process_exit 1
                       [[Str "Error: --outlier-chance must be a number between 0 and 100"]]
            | None =>
                process_exit 1
                  [[Str "Error: --outlier-chance must be a number between 0 and 100"]]
            end
        | [] =>
            process_exit 1
              [[Str "Error: --outlier-chance must be a number between 0 and 100"]]
        end
      else
        process_exit 1
          [[Str "Error: Unknown argument '"; Str arg; Str "'"];
           [Str "Use --help for available options"]]
  end.

(** [parseArgs()] on [process.argv.slice(2)]. *)
Definition parseArgs (args : list string) : Parsed :=
  parse_from args (mkConfig 5 false).

End SimulatorCli.

(** ** Pagination of the list routes: [validatePagination],
       [createPaginationMeta] and [validateLimit] of
       [src/utils/pagination.js] on query values *)

Module PaginationQuery.

Import Pagination.

(** [parseInt(value) || fallback] for a query value ([None] is
    [undefined], whose default or [NaN] gives the fallback). *)
Definition parse_or (value : option string) (fallback : Z) : Z :=
  match value with
  | Some text =>
      match Js.parseInt text with
      | Some n => if (n =? 0)%Z then fallback else n
      | None => fallback
      end
  | None => fallback
  end.

Record Page := mkPage {
  page : Z;
  limit : Z;
  offset : Z
}.

(** [validatePagination({ page, limit })]. *)
Definition validatePagination (page limit : option string) : Page :=
  let pageNum := Z.max 1 (parse_or page 1) in
  let limitNum := Z.min MAX_LIMIT (Z.max MIN_LIMIT (parse_or limit DEFAULT_LIMIT)) in
  let offset := ((pageNum - 1) * limitNum)%Z in
  mkPage pageNum limitNum offset.

(** [validateLimit(limit)] on a query value. *)
Definition validateLimit (limit : option string) (defaultLimit : Z) : Z :=
  let parsedLimit := parse_or limit defaultLimit in
  Z.min MAX_LIMIT (Z.max MIN_LIMIT parsedLimit).

(** The object of [createPaginationMeta]; [totalPages] is [None] when
    the division by a zero [limit] gives no finite number. *)
Record Meta := mkMeta {
  meta_page : Z;
  meta_limit : Z;
  total : Z;
  totalPages : option Z;
  hasNext : bool;
  hasPrev : bool
}.

(** [createPaginationMeta(page, limit, total)]. *)
Definition createPaginationMeta (page limit total : Z) : Meta :=
  let totalPages :=
    if (limit =? 0)%Z then None
    else Some (Qceiling (inject_Z total / inject_Z limit)) in
  mkMeta page limit total totalPages
         (match totalPages with
          | Some pages => (page <? pages)%Z
          | None => (0 <? total)%Z (* page < Infinity; page < NaN is false *)
          end)
         (page >? 1)%Z.

End PaginationQuery.

(** ** Further routes of the API server: [src/routes/poweroutput.js],
       the disconnect handlers and the status route of
       [src/routes/streaming.js], and the WebSocket tick of [src/app.js] *)

Module Routes.

Import Js Api.

(** Answer of [POST /api/1/windturbines/:id/power-output]. *)
Inductive Answer :=
| answer_error (status : Z) (error message : string)
| answer_created (row : PowerOutputAttrs).

(** The argument of an ['error'] event of the request. *)
Record RequestError := mkRequestError {
  code : option string;
  error_message : string
}.

Inductive TimerOp :=
| clearInterval (intervalId : nat).

(** Entry of [connections] in the answer of [GET /status]. *)
Record StatusEntry := mkStatusEntry {
  status_connectionId : string;
  status_startTime : Date;
  status_turbineFilter : list string;
  status_turbineCount : nat;
  uptime : Z
}.

Record Status := mkStatus {
  activeConnections : nat;
  connections : list StatusEntry
}.

(** Messages sent on a WebSocket. *)
Inductive WsMessage :=
| ws_power_output (timestamp : Date) (turbineCount : nat)
                  (powerOutputs : list PowerOutputEntry)
| ws_error (message : string) (timestamp : Date).

Section Server.

Variable env : Env.
(** Outcome of the query of a WebSocket tick: the promise of
    [WindTurbine.findAll] resolves ([None]) or rejects with an error. *)
Variable findAll_rejects : option Error.

(** [WindTurbine.findByPk(id)]. *)
Definition WindTurbine_findByPk (pk : string) : M State (option WindTurbine) :=
  fun s => (Ok (List.find (fun t => String.eqb (id t) pk) (wind_turbines s)), s).

(** [POST /api/1/windturbines/:id/power-output] on the parsed body. *)
Definition post_power_output (pk : string) (body : JSON) : M State Answer :=
  try_catch
    (let! powerKW := read (prop body "powerKW") in
     let! timestamp := read (prop body "timestamp") in
     match powerKW with
     | Some (JNumber power) =>
         let! turbine := WindTurbine_findByPk pk in
         match turbine with
         | None => ret (answer_error 404 "Not Found" "Wind turbine not found")
         | Some _ =>
             let! date :=
               match timestamp with
               | Some t => if truthy timestamp then ret (Date_of env t) else new_Date env
               | None => new_Date env
               end in
             let! powerOutput := PowerOutput_create env (mkAttrs (JString pk) power date) in
             ret (answer_created powerOutput)
         end
     | _ => ret (answer_error 400 "Validation Error" "powerKW must be a number")
     end)
    (fun error =>
       let! _ := log_error [Str "Error creating power output:"; Str (message error)] in
       ret (answer_error 500 "Internal Server Error"
                         "Failed to create power output record")).

(** The duration logged by the disconnect handlers:
    [connection ? Math.round((Date.now() - startTime) / 1000) : 0]. *)
Definition connection_duration (connectionId : string) : M State Z :=
  let! s := get in
  match sseConnections s !! connectionId with
  | Some connection =>
      let! date_now := new_Date env in
      ret (Math_round (inject_Z (getTime date_now - getTime (startTime connection))
                       / 1000))
  | None => ret 0%Z
  end.

Definition delete_connection (connectionId : string) : M State unit :=
  modify (fun s => set_sseConnections (delete connectionId (sseConnections s)) s).

(** [req.on('close', ...)] of a subscription, with the [connectionId],
    [intervalId] and [turbineFilter] its closure holds. *)
Definition on_close (connectionId : string) (intervalId : nat)
    (turbineFilter : list string) : M State (list TimerOp) :=
  let! duration := connection_duration connectionId in
  let! _ := delete_connection connectionId in
  let! _ := log [Str "SSE client "; Str connectionId; Str " disconnected (duration: ";
                 Int duration; Str "s, turbines: ";
                 Int (Z.of_nat (length turbineFilter)); Str ")"] in
  ret [clearInterval intervalId].

(** [req.on('error', ...)] of a subscription. *)
Definition on_error (connectionId : string) (intervalId : nat)
    (turbineFilter : list string) (err : RequestError) : M State (list TimerOp) :=
  let! duration := connection_duration connectionId in
  let! _ := delete_connection connectionId in
  let! _ :=
    if match code err with
       | Some c => String.eqb c "ECONNRESET" || String.eqb c "EPIPE"
       | None => false
       end || String.eqb (error_message err) "aborted"
    then log [Str "SSE client "; Str connectionId;
              Str " disconnected unexpectedly (duration: "; Int duration;
              Str "s, turbines: "; Int (Z.of_nat (length turbineFilter)); Str ")"]
    else log_error [Str "SSE connection "; Str connectionId; Str " error after ";
                    Int duration; Str "s: "; Str (error_message err)] in
  ret [clearInterval intervalId].

(** [GET /api/1/stream/status]; the entries come in the order of the
    finite map, not in the order of insertion of the JavaScript [Map]. *)
Definition get_status : M State Status :=
  let! s := get in
  let! connections :=
    map_M (fun '(connectionId, conn) =>
             let! date_now := new_Date env in
             ret (mkStatusEntry connectionId (startTime conn) (conn_turbineFilter conn)
                    (length (conn_turbineFilter conn))
                    (Math_round (inject_Z (getTime date_now - getTime (startTime conn))
                                 / 1000))))
          (map_to_list (sseConnections s)) in
  ret (mkStatus (length connections) connections).

(** [WindTurbine.findAll({ where: { active: true }, limit })]. *)
Definition WindTurbine_findActive (limit : Z) : M State (list WindTurbine) :=
  fun s =>
    match findAll_rejects with
    | Some error => (Throw error, s)
    | None => (Ok (firstn (Z.to_nat limit)
                     (filter (fun t => active t) (wind_turbines s))), s)
    end.

(** Body of the loop of the WebSocket [sendPowerData] for one turbine:
    the reading is generated and not stored. *)
Definition ws_entry (timestamp : Date) (turbine : WindTurbine)
  : M State PowerOutputEntry :=
  let! powerData :=
    generatePowerOutput env (id turbine) (ratedCapacityKW turbine) timestamp in
  ret (mkEntry (id turbine) (name turbine) (powerKW powerData)
               (ratedCapacityKW turbine)
               (if (ratedCapacityKW turbine =? 0)%Z then None
                else Some (round2 (powerKW powerData
                                   / inject_Z (ratedCapacityKW turbine) * 100)))
               timestamp).

(** [sendPowerData] of a WebSocket connection of [app.js]; [ws_open]
    and [ws_open_in_catch] are [ws.readyState === WebSocket.OPEN] as
    read at the start and in the [catch] block. *)
Definition ws_sendPowerData (ws_open ws_open_in_catch : bool)
  : M State (list WsMessage) :=
  try_catch
    (if negb ws_open then ret []
     else
       let! turbines := WindTurbine_findActive 25 in
       let! timestamp := new_Date env in
       let! powerOutputs := map_M (ws_entry timestamp) turbines in
       ret [ws_power_output timestamp (length powerOutputs) powerOutputs])
    (fun error =>
       let! _ := log_error [Str "Error sending WebSocket power data:";
                            Str (message error)] in
       if ws_open_in_catch then
         let! date_now := new_Date env in
         ret [ws_error "Failed to generate power data" date_now]
       else ret []).

End Server.

End Routes.

(** ** Seeding: [generateTurbineName] of [src/services/dataGenerator.js] *)

Module Seed.

Definition adjectives : list string :=
  ["Swift"; "Mighty"; "Thunder"; "Storm"; "Wind"; "Sky"; "Power"; "Energy";
   "Force"; "Strong"].

Definition nouns : list string :=
  ["Eagle"; "Falcon"; "Hawk"; "Storm"; "Wind"; "Power"; "Force"; "Giant";
   "Titan"; "Guardian"].

(** [String(n)] for a natural number. *)
Definition String_of_nat (n : nat) : string :=
  DecimalString.NilEmpty.string_of_uint (Nat.to_uint n).

(** [s.padStart(width, '0')]. *)
Definition padStart_zero (width : nat) (s : string) : string :=
  String.concat "" (repeat "0"%string (width - String.length s)) ++ s.

(** [generateTurbineName(index)]. *)
Definition generateTurbineName (index : nat) : string :=
  let adjective := nth (index mod length adjectives) adjectives "" in
  let noun := nth ((index / length adjectives) mod length nouns) nouns "" in
  let number := padStart_zero 3 (String_of_nat (index + 1)) in
  adjective ++ "-" ++ noun ++ "-" ++ number.

End Seed.

(** * Vocabulary of the properties *)

(** A value is written with two decimals when a hundred times it is an
    integer. *)
Definition two_decimals (x : Q) : Prop := exists k : Z, x == inject_Z k / 100.

(** The contract of [Math.random()] and of faker's generator: every
    result lies in [[0,1)]. *)
Definition in_unit_interval (draws : nat -> Q) : Prop :=
  forall n, 0 <= draws n /\ draws n < 1.

(** ** The weather model *)

Module WeatherModel.

Import Simulator.

Definition storm : WeatherEvent := mkEvent "storm" 0.2 5.
Definition high_pressure : WeatherEvent := mkEvent "high_pressure" 1.5 10.
Definition maintenance_window : WeatherEvent := mkEvent "maintenance_window" 0 3.

(** State left by a tick that started event [e]. *)
Definition after_spawn (e : WeatherEvent) (s : State) : State :=
  set_weatherEventDuration (duration e - 1)
    (push_effect
       (Console (console_log [Str "Weather event started: "; Str (type e);
                              Str " for "; Int (duration e); Str " cycles"]))
       (set_weatherEventDuration (duration e)
          (set_weatherEvent (Some e)
             (set_random_cursor (S (S (random_cursor s))) s)))).

(** State left by a tick that found event [e] active. *)
Definition after_active (e : WeatherEvent) (s : State) : State :=
  if (weatherEventDuration s - 1 <=? 0)%Z then
    set_weatherEvent None
      (push_effect (Console (console_log [Str "Weather event ended: "; Str (type e)]))
         (set_weatherEventDuration (weatherEventDuration s - 1) s))
  else set_weatherEventDuration (weatherEventDuration s - 1) s.

(** [n] successive calls of [simulateWeatherEvents]: what each one
    returned and the state left. *)
Fixpoint ticks (env : Env) (n : nat) (s : State) : list (Res Q) * State :=
  match n with
  | O => ([], s)
  | S n' =>
      let (r, s1) := simulateWeatherEvents env s in
      let (rs, s2) := ticks env n' s1 in
      (r :: rs, s2)
  end.

End WeatherModel.

(** ** The simulator *)

Module SimulatorSpec.

Import Simulator.

(** The value of [getTimeBasedWindFactor] for each band of the hour. *)
Definition time_band (hour : Z) (f : Q) : Prop :=
  ((22 <= hour \/ hour <= 6)%Z -> f = 1.2) /\
  ((10 <= hour /\ hour <= 16)%Z -> f = 0.6) /\
  ((6 < hour /\ hour < 10 \/ 16 < hour /\ hour < 22)%Z -> f = 0.9).

(** The five fault shapes, in the order of [outlierTypes]. *)
Definition shapes : list string :=
  ["negative_reading"; "zero_reading"; "extremely_high"; "minor_negative";
   "unrealistic_spike"].

Definition timeouts (tr : list Effect) : list Z :=
  omap (fun e => match e with SetTimeout_runSimulation ms => Some ms | _ => None end) tr.

Definition console_errors (tr : list Effect) : list (list Piece) :=
  omap (fun e => match e with Console (console_error text) => Some text | _ => None end) tr.

Definition posts (tr : list Effect) : list (list Reading) :=
  omap (fun e => match e with Http_post_batch readings => Some readings | _ => None end) tr.

(** Effects that are plain [console.log] lines. *)
Definition is_log (e : Effect) : Prop :=
  match e with Console (console_log _) => True | _ => False end.

(** [s'] extends the trace of [s] by [console.log] lines only. *)
Definition logs_only (s s' : State) : Prop :=
  exists tr, trace s' = trace s ++ tr /\ Forall is_log tr.

(** A computation that only adds [console.log] lines to the trace. *)
Definition quiet {A} (c : M State A) : Prop :=
  forall s, logs_only s (snd (c s)).

(** The [console.error] line owed to a submitted batch. *)
Definition failure_line (http_post_batch : list Reading -> Res BatchResponse)
    (readings : list Reading) : option (list Piece) :=
  match http_post_batch readings with
  | Throw e => Some [Str "Error sending batch:"; Str (message e)]
  | Ok _ => None
  end.

(** A stretch of trace that sets no timer and in which the
    [console.error] lines are exactly those of the failed submits, in
    order. *)
Definition reported (http_post_batch : list Reading -> Res BatchResponse)
    (tr : list Effect) : Prop :=
  timeouts tr = [] /\ console_errors tr = omap (failure_line http_post_batch) (posts tr).

End SimulatorSpec.

(** ** The API server *)

Module ApiSpec.

Import Js Api.

(** The range of [windStrengthFactor] for each band of the hour. *)
Definition strength_band (hour : Z) (f : Q) : Prop :=
  ((22 <= hour \/ hour <= 6)%Z -> 0.7 <= f /\ f < 1.0) /\
  ((10 <= hour /\ hour <= 16)%Z -> 0.3 <= f /\ f < 0.7) /\
  ((6 < hour /\ hour < 10 \/ 16 < hour /\ hour < 22)%Z -> 0.5 <= f /\ f < 0.9).

(** A property of a reading that is not [null]. *)
Definition field (reading : JSON) (k : string) : option JSON :=
  match reading with
  | JObject fields => assoc k fields
  | _ => None
  end.

(** The turbine id and power of a well-formed reading: it has a (truthy)
    [windTurbineId] and a [powerKW] that is a number. *)
Definition well_formed (reading : JSON) : option (JSON * Q) :=
  match field reading "windTurbineId", field reading "powerKW" with
  | Some turbine, Some (JNumber power) =>
      if truthy (Some turbine) then Some (turbine, power) else None
  | _, _ => None
  end.

Definition id_and_power (row : PowerOutputAttrs) : JSON * Q :=
  (attr_windTurbineId row, attr_powerKW row).

(** The turbines named by the [windTurbineIds] parameter of a
    subscription request, blank names dropped. *)
Definition requested_turbines (query : list (string * string)) : list string :=
  match QueryNormalizer.normalizeQueryParams query ["windTurbineIds"; "interval"]
        !! "windTurbineIds" with
  | Some ids => filter (fun id => negb (String.eqb id "")) (map trim (split "," ids))
  | None => []
  end.

(** What its [interval] parameter parses to, 10 when it is absent. *)
Definition requested_interval (query : list (string * string)) : option Z :=
  match QueryNormalizer.normalizeQueryParams query ["windTurbineIds"; "interval"]
        !! "interval" with
  | Some text => parseInt text
  | None => Some 10%Z
  end.

(** A computation that leaves the connections and the timers alone. *)
Definition keeps_subscriptions {A} (c : M State A) : Prop :=
  forall s, sseConnections (snd (c s)) = sseConnections s /\
            intervals (snd (c s)) = intervals s.

End ApiSpec.

(** ** Concrete inputs *)

Definition sim_env_half : Simulator.Env :=
  Simulator.mkEnv (fun _ => 0.5) (fun _ => mkDate 12 0).

(** An environment whose first draw starts an event, whose second draw
    picks high_pressure, and whose later draws start nothing. *)
Definition env_spawning : Simulator.Env :=
  Simulator.mkEnv (fun n => match n with O => 0.01 | _ => 0.5 end)
        (fun _ => mkDate 12 0).

Definition sim_idle : Simulator.State := Simulator.mkState None 0 0 0 [].

Definition storm_state (cycles_left : Z) : Simulator.State :=
  Simulator.mkState (Some WeatherModel.storm) cycles_left 0 0 [].

Definition two_turbines : list Simulator.Turbine :=
  [Simulator.mkTurbine "T1" 1500; Simulator.mkTurbine "T2" 1500].

(** [batch.map(turbine => generatePowerOutput(turbine, timestamp))] with
    outliers disabled. *)
Definition generate_batch (batch : list Simulator.Turbine) (s : Simulator.State)
  : Res (list Simulator.Reading) * Simulator.State :=
  map_M (fun turbine =>
           Simulator.generatePowerOutput sim_env_half 0 turbine (mkDate 12 0))
        batch s.

Definition refused (readings : list Simulator.Reading) : Res Simulator.BatchResponse :=
  Throw (mkError "connect ECONNREFUSED").

Definition api_env (real : Q) : Api.Env :=
  Api.mkEnv (fun _ => real) (fun _ => 0.5) (fun _ => mkDate 23 0)
            (fun _ => mkDate 23 0) (fun _ _ => "c1"%string) (fun _ => true).

Definition api_empty (turbines : list Api.WindTurbine) : Api.State :=
  Api.mkState turbines [] ∅ [] 0 0 0 [].

Definition turbine_T1 : Api.WindTurbine := Api.mkWindTurbine "T1" "Swift-Eagle-001" true 1500.

(** The subscription request [?windTurbineIds=T1&interval=...]. *)
Definition subscribe (interval : string) : Res (list Api.ResOp) * Api.State :=
  Api.get_power_output (api_env 0.5)
    [("windTurbineIds", "T1"); ("interval", interval)]%string
    (api_empty [turbine_T1]).

(** The scenario of the batch-ingest contract. *)
Definition scenario_readings : list Js.JSON :=
  [Js.JObject [("windTurbineId", Js.JString "T1"); ("powerKW", Js.JNumber 500)]%string;
   Js.JObject [("windTurbineId", Js.JString "T2")]%string].

(** * Vocabulary of the further properties *)

(** The weather state is consistent: an active event is one of
    [events] and has between one cycle and its whole duration left. *)
Definition weather_consistent (s : Simulator.State) : Prop :=
  match Simulator.weatherEvent s with
  | Some e =>
      In e Simulator.events /\
      (1 <= Simulator.weatherEventDuration s <= Simulator.duration e)%Z
  | None => True
  end.

(** A computation that keeps the weather state consistent. *)
Definition keeps_weather {A} (c : M Simulator.State A) : Prop :=
  forall s, weather_consistent s -> weather_consistent (snd (c s)).

(** The identifier that the next subscription will be given. *)
Definition next_connectionId (env : Api.Env) (s : Api.State) : string :=
  Api.format_connectionId env (getTime (Api.now env (Api.clock_cursor s)))
                          (Api.Math_random env (Api.random_cursor s)).

(** The command lines that [parseArgs] takes: help flags, and outlier
    flags each followed by the text of an integer from 0 to 100. *)
Inductive accepted_args : list string -> Prop :=
| accepted_nil : accepted_args []
| accepted_help arg rest :
    SimulatorCli.is_help arg = true -> accepted_args rest ->
    accepted_args (arg :: rest)
| accepted_chance flag value n rest :
    SimulatorCli.is_outlier_flag flag = true ->
    Js.parseInt value = Some n -> (0 <= n <= 100)%Z ->
    accepted_args rest ->
    accepted_args (flag :: value :: rest).

(** The [efficiency] of an entry is absent exactly for a rated capacity
    of 0, and is otherwise a percentage from 0 to 120. *)
Definition efficiency_in_range (entry : Api.PowerOutputEntry) : Prop :=
  match Api.efficiency entry with
  | None => Api.entry_ratedCapacityKW entry = 0%Z
  | Some e => Api.entry_ratedCapacityKW entry <> 0%Z /\ 0 <= e /\ e <= 120
  end.

(** A name under which no member inherited from [Object.prototype] is
    stored. *)
Definition not_a_member (name : string) : Prop :=
  forall lowerKey, QueryNormalizer.Object_prototype lowerKey <> Some name.

(** The last value given in a query to a key that spells [param] in any
    case. *)
Definition last_spelling (param : string) (query : list (string * string))
  : option string :=
  snd <$> last (filter (fun kv => Js.toLowerCase (fst kv) = Js.toLowerCase param) query).

(** ** Further concrete inputs *)

(** A maintenance window with all its three cycles left. *)
Definition maintenance_state : Simulator.State :=
  Simulator.mkState (Some WeatherModel.maintenance_window) 3 0 0 [].

(** A store that knows turbine T1 only. *)
Definition known_T1 (turbine : Js.JSON) : bool :=
  match turbine with
  | Js.JString id => String.eqb id "T1"
  | _ => false
  end.

Definition api_env_checking : Api.Env :=
  Api.mkEnv (fun _ => 0.5) (fun _ => 0.5) (fun _ => mkDate 23 0)
            (fun _ => mkDate 23 0) (fun _ _ => "c1"%string)
            (fun attrs => known_T1 (Api.attr_windTurbineId attrs)).

Definition reading_of (turbine : string) (power : Q) : Js.JSON :=
  Js.JObject [("windTurbineId", Js.JString turbine); ("powerKW", Js.JNumber power)]%string.

(** * Properties *)

(** Arithmetic stays folded while the monadic code is run. *)
#[local] Arguments Qmult : simpl never.
#[local] Arguments Qplus : simpl never.
#[local] Arguments Qminus : simpl never.
#[local] Arguments Qopp : simpl never.
#[local] Arguments Qdiv : simpl never.
#[local] Arguments Qmax : simpl never.
#[local] Arguments Qmin : simpl never.
#[local] Arguments inject_Z : simpl never.
#[local] Arguments Qfloor : simpl never.
#[local] Arguments Qle_bool : simpl never.
#[local] Arguments Qltb : simpl never.
#[local] Arguments Math_floor : simpl never.
#[local] Arguments Math_round : simpl never.
#[local] Arguments Math_max : simpl never.
#[local] Arguments Math_min : simpl never.
#[local] Arguments round2 : simpl never.
#[local] Arguments js_index : simpl never.
#[local] Arguments Z.mul : simpl never.
#[local] Arguments Z.sub : simpl never.
#[local] Arguments Z.leb : simpl never.

(** ** Rounding and indexing *)

Lemma Qltb_lt x y : Qltb x y = true <-> x < y.
Proof.
  unfold Qltb. rewrite negb_true_iff, <- not_true_iff_false, Qle_bool_iff.
  split; [apply Qnot_le_lt | apply Qlt_not_le].
Qed.

Lemma Qltb_ge x y : Qltb x y = false <-> y <= x.
Proof.
  unfold Qltb. rewrite negb_false_iff. apply Qle_bool_iff.
Qed.

Lemma Qfloor_unique (x : Q) (n : Z) :
  inject_Z n <= x -> x < inject_Z n + 1 -> Qfloor x = n.
Proof.
  intros Hlo Hhi.
  change 1 with (inject_Z 1) in Hhi. rewrite <- inject_Z_plus in Hhi.
  assert (n <= Qfloor x)%Z.
  { rewrite <- (Qfloor_Z n). now apply Qfloor_resp_le. }
  assert (Qfloor x < n + 1)%Z.
  { rewrite Zlt_Qlt. eapply Qle_lt_trans; [apply Qfloor_le | exact Hhi]. }
  lia.
Qed.

(** [Math.round] keeps a value between two integers between them. *)
Lemma Math_round_between (x : Q) (lo hi : Z) :
  inject_Z lo <= x -> x <= inject_Z hi ->
  (lo <= Math_round x <= hi)%Z.
Proof.
  intros Hlo Hhi. unfold Math_round. split.
  - rewrite <- (Qfloor_Z lo). apply Qfloor_resp_le. lra.
  - assert (Qfloor (x + 0.5) < hi + 1)%Z; [|lia].
    rewrite Zlt_Qlt. eapply Qle_lt_trans; [apply Qfloor_le|].
    rewrite inject_Z_plus. change (inject_Z 1) with 1. lra.
Qed.

Lemma Math_round_near (x : Q) :
  x - 0.5 < inject_Z (Math_round x) /\ inject_Z (Math_round x) <= x + 0.5.
Proof.
  unfold Math_round. split.
  - pose proof (Qlt_floor (x + 0.5)) as H.
    rewrite inject_Z_plus in H. change (inject_Z 1) with 1 in H. lra.
  - apply Qfloor_le.
Qed.

Lemma Qdiv_100 (x : Q) : x / 100 == x * 0.01.
Proof. unfold Qdiv. reflexivity. Qed.

Lemma round2_two_decimals (x : Q) : two_decimals (round2 x).
Proof. exists (Math_round (x * 100)). reflexivity. Qed.

Lemma round2_near (x : Q) : x - 0.005 < round2 x /\ round2 x <= x + 0.005.
Proof.
  unfold round2. destruct (Math_round_near (x * 100)) as [H1 H2].
  rewrite Qdiv_100. lra.
Qed.

(** Rounding to two decimals keeps a value inside an interval whose
    ends have two decimals. *)
Lemma round2_between (x : Q) (lo hi : Z) :
  inject_Z lo / 100 <= x -> x <= inject_Z hi / 100 ->
  inject_Z lo / 100 <= round2 x /\ round2 x <= inject_Z hi / 100.
Proof.
  intros Hlo Hhi. unfold round2. rewrite !Qdiv_100 in *.
  destruct (Math_round_between (x * 100) lo hi) as [H1 H2]; [lra | lra |].
  rewrite Zle_Qle in H1, H2. lra.
Qed.

(** ** The weather model *)

Module WeatherSteps.

Import Simulator WeatherModel.

Section Ticks.

Variable env : Env.

Lemma tick_active (s : State) (e : WeatherEvent) :
  weatherEvent s = Some e ->
  simulateWeatherEvents env s = (Ok (factor e), after_active e s).
Proof.
  intros He. unfold simulateWeatherEvents, after_active, bind, get, ret, modify.
  rewrite He. cbn. rewrite He.
  destruct (weatherEventDuration s - 1 <=? 0)%Z; reflexivity.
Qed.

Lemma tick_idle (s : State) :
  weatherEvent s = None ->
  0.05 <= Math_random env (random_cursor s) ->
  simulateWeatherEvents env s = (Ok 1.0, set_random_cursor (S (random_cursor s)) s).
Proof.
  intros He Hu. apply Qltb_ge in Hu.
  unfold simulateWeatherEvents, bind, get, ret, modify, random.
  rewrite He. cbn. rewrite Hu. cbn. rewrite He. reflexivity.
Qed.

(** The event picked by a draw [v] of [[0,1)]. *)
Lemma pick_event (v : Q) :
  0 <= v -> v < 1 ->
  exists e,
    js_index events (Math_floor (v * inject_Z (Z.of_nat (length events)))) = Some e /\
    (v < 1 # 3 -> e = storm) /\
    ((1 # 3) <= v -> v < 2 # 3 -> e = high_pressure) /\
    ((2 # 3) <= v -> e = maintenance_window).
Proof.
  intros H0 H1. unfold Math_floor. cbn [events length Z.of_nat].
  change (inject_Z (Z.of_nat 3)) with 3.
  destruct (Qlt_le_dec v (1 # 3)) as [Ha | Ha];
    [| destruct (Qlt_le_dec v (2 # 3)) as [Hb | Hb]].
  - exists storm. rewrite (Qfloor_unique (v * 3) 0) by (unfold inject_Z; lra).
    repeat split; intros; try reflexivity; lra.
  - exists high_pressure. rewrite (Qfloor_unique (v * 3) 1) by (unfold inject_Z; lra).
    repeat split; intros; try reflexivity; lra.
  - exists maintenance_window. rewrite (Qfloor_unique (v * 3) 2) by (unfold inject_Z; lra).
    repeat split; intros; try reflexivity; lra.
Qed.

Lemma tick_spawn (s : State) (e : WeatherEvent) :
  weatherEvent s = None ->
  Math_random env (random_cursor s) < 0.05 ->
  js_index events
    (Math_floor (Math_random env (S (random_cursor s))
                 * inject_Z (Z.of_nat (length events)))) = Some e ->
  (0 < duration e - 1)%Z ->
  simulateWeatherEvents env s = (Ok (factor e), after_spawn e s).
Proof.
  intros He Hu Hidx Hd. apply Qltb_lt in Hu.
  unfold simulateWeatherEvents, after_spawn, bind, get, ret, modify, random, log, emit.
  rewrite He. cbn -[events]. rewrite Hu. cbn -[events].
  rewrite Hidx. cbn.
  destruct (duration e - 1 <=? 0)%Z eqn:E; [lia | reflexivity].
Qed.

End Ticks.

End WeatherSteps.

Module WeatherFacts.

Import Simulator WeatherModel WeatherSteps.

(** While an event is active with [n] cycles left, the next [k <= n]
    ticks all return its factor, draw nothing and keep it until the
    counter reaches zero. *)
Lemma ticks_active env (k : nat) : forall (s : State) (e : WeatherEvent),
  weatherEvent s = Some e ->
  (Z.of_nat k <= weatherEventDuration s)%Z ->
  fst (ticks env k s) = repeat (Ok (factor e)) k /\
  weatherEventDuration (snd (ticks env k s)) = (weatherEventDuration s - Z.of_nat k)%Z /\
  random_cursor (snd (ticks env k s)) = random_cursor s /\
  weatherEvent (snd (ticks env k s)) =
    (if (weatherEventDuration s - Z.of_nat k <=? 0)%Z
     then match k with O => Some e | S _ => None end
     else Some e).
Proof.
  induction k as [|k IH]; intros s e He Hd.
  - cbn [ticks fst snd repeat].
    split; [reflexivity | split; [lia | split; [reflexivity|]]].
    now destruct Z.leb.
  - cbn [ticks]. rewrite (tick_active env s e He).
    destruct (ticks env k (after_active e s)) as [rs s2] eqn:Hk.
    cbn [fst snd repeat].
    unfold after_active in Hk.
    destruct (weatherEventDuration s - 1 <=? 0)%Z eqn:Hlast.
    + apply Z.leb_le in Hlast. assert (k = O) by lia. subst k.
      cbn in Hk. injection Hk as <- <-. cbn.
      split; [reflexivity | split; [lia | split; [reflexivity|]]].
      change (Z.of_nat 1) with 1%Z.
      destruct (weatherEventDuration s - 1 <=? 0)%Z eqn:E; [reflexivity | lia].
    + apply Z.leb_gt in Hlast.
      specialize (IH (set_weatherEventDuration (weatherEventDuration s - 1) s) e).
      rewrite Hk in IH. cbn [fst snd] in IH. cbn in IH.
      destruct IH as (-> & -> & -> & ->); [assumption | lia |].
      split; [reflexivity | split; [lia | split; [reflexivity|]]].
      replace (weatherEventDuration s - Z.of_nat (S k))%Z
        with (weatherEventDuration s - 1 - Z.of_nat k)%Z by lia.
      destruct (weatherEventDuration s - 1 - Z.of_nat k <=? 0)%Z eqn:E;
        [|reflexivity].
      apply Z.leb_le in E. destruct k; [lia | reflexivity].
Qed.

(** C3. A tick of the weather model ([simulateWeatherEvents]), with [u]
    and [v] the next two results of [Math.random()]:
    - with no event active and [u >= 0.05] it returns 1.0 and leaves the
      weather state alone;
    - with no event active and [u < 0.05] (the 5% trial) it starts the
      event picked by [v], each third of [[0,1)] giving one of storm
      (0.2, 5 cycles), high_pressure (1.5, 10 cycles) and
      maintenance_window (0.0, 3 cycles), and that tick already returns
      the event's factor and counts as its first cycle;
    - with an event active it returns the event's factor, decrements the
      counter and clears the event when the counter reaches zero, the
      tick that ends the event still returning the factor. *)
Theorem simulateWeatherEvents_tick (env : Env) (s : State) :
  let u := Math_random env (random_cursor s) in
  let v := Math_random env (S (random_cursor s)) in
  let r := fst (simulateWeatherEvents env s) in
  let s' := snd (simulateWeatherEvents env s) in
  (weatherEvent s = None -> 0.05 <= u ->
     r = Ok 1.0 /\ weatherEvent s' = None /\
     weatherEventDuration s' = weatherEventDuration s)
  /\
  (weatherEvent s = None -> u < 0.05 -> 0 <= v -> v < 1 ->
     exists e,
       (v < 1 # 3 -> e = mkEvent "storm" 0.2 5) /\
       ((1 # 3) <= v -> v < 2 # 3 -> e = mkEvent "high_pressure" 1.5 10) /\
       ((2 # 3) <= v -> e = mkEvent "maintenance_window" 0 3) /\
       r = Ok (factor e) /\ weatherEvent s' = Some e /\
       weatherEventDuration s' = (duration e - 1)%Z)
  /\
  (forall e, weatherEvent s = Some e ->
     r = Ok (factor e) /\
     weatherEventDuration s' = (weatherEventDuration s - 1)%Z /\
     weatherEvent s' =
       (if (weatherEventDuration s - 1 <=? 0)%Z then None else Some e)).
Proof.
  cbv zeta. split; [|split].
  - intros He Hu. rewrite (tick_idle env s He Hu). cbn. auto.
  - intros He Hu Hv0 Hv1.
    destruct (pick_event (Math_random env (S (random_cursor s))) Hv0 Hv1)
      as (e & Hidx & Ha & Hb & Hc).
    exists e. split; [exact Ha | split; [exact Hb | split; [exact Hc|]]].
    assert (0 < duration e - 1)%Z as Hd.
    { destruct (Qlt_le_dec (Math_random env (S (random_cursor s))) (1 # 3));
        [rewrite Ha by assumption; cbn; lia|].
      destruct (Qlt_le_dec (Math_random env (S (random_cursor s))) (2 # 3));
        [rewrite Hb by assumption | rewrite Hc by assumption]; cbn; lia. }
    rewrite (tick_spawn env s e He Hu Hidx Hd). cbn. auto.
  - intros e He. rewrite (tick_active env s e He). unfold after_active. cbn.
    destruct (weatherEventDuration s - 1 <=? 0)%Z; cbn; auto.
Qed.

(** C3 at two inputs: an idle state whose draws start high_pressure, and
    a storm on its last cycle. *)
Lemma simulateWeatherEvents_tick_witness :
  fst (simulateWeatherEvents env_spawning sim_idle) = Ok 1.5 /\
  fst (simulateWeatherEvents env_spawning (storm_state 1)) = Ok 0.2 /\
  weatherEvent (snd (simulateWeatherEvents env_spawning (storm_state 1))) = None.
Proof.
  destruct (simulateWeatherEvents_tick env_spawning sim_idle)
    as (_ & Hspawn & _).
  destruct Hspawn as (e & _ & Hmid & _ & Hr & _);
    [reflexivity | reflexivity | discriminate | reflexivity |].
  rewrite Hmid in Hr by (reflexivity || discriminate).
  destruct (simulateWeatherEvents_tick env_spawning (storm_state 1))
    as (_ & _ & Hactive).
  destruct (Hactive storm eq_refl) as (Hr' & _ & He').
  repeat split; assumption.
Defined.

(** C4. The weather state holds one event or none.  Once a tick has
    started event [e] (that tick included), the first [duration e] ticks
    all return the factor of [e], no draw is made and no other event
    starts while [e] is active, and after exactly [duration e] ticks no
    event is active: the model is back in the state whose factor is 1.0,
    which the following tick returns unless its own 5% trial starts a
    new event. *)
Theorem weather_event_lifetime (env : Env) (s : State) (e : WeatherEvent) :
  weatherEvent s = None ->
  Math_random env (random_cursor s) < 0.05 ->
  js_index events
    (Math_floor (Math_random env (S (random_cursor s))
                 * inject_Z (Z.of_nat (length events)))) = Some e ->
  let d := Z.to_nat (duration e) in
  (forall k, (1 <= k <= d)%nat ->
     fst (ticks env k s) = repeat (Ok (factor e)) k /\
     weatherEvent (snd (ticks env k s)) = (if (k <? d)%nat then Some e else None)) /\
  weatherEvent (snd (ticks env d s)) = None /\
  (0.05 <= Math_random env (S (S (random_cursor s))) ->
   fst (simulateWeatherEvents env (snd (ticks env d s))) = Ok 1.0).
Proof.
  intros He Hu Hidx d.
  assert (2 <= duration e)%Z as Hdur.
  { unfold js_index in Hidx. destruct (_ <? 0)%Z; [discriminate|].
    apply nth_error_In in Hidx. cbn in Hidx.
    destruct Hidx as [<- | [<- | [<- | []]]]; cbn; lia. }
  assert (forall k, (1 <= k <= d)%nat ->
            fst (ticks env k s) = repeat (Ok (factor e)) k /\
            weatherEvent (snd (ticks env k s)) = (if (k <? d)%nat then Some e else None) /\
            random_cursor (snd (ticks env k s)) = S (S (random_cursor s))) as Hrun.
  { intros [|k] Hk; [lia|].
    cbn [ticks]. rewrite (tick_spawn env s e He Hu Hidx) by lia.
    destruct (ticks_active env k (after_spawn e s) e) as (Hf & _ & Hc & Hw);
      [reflexivity | cbn; lia |].
    destruct (ticks env k (after_spawn e s)) as [rs s2].
    cbn [fst snd] in *. rewrite Hf, Hw, Hc. cbn [repeat].
    split; [reflexivity | split; [|reflexivity]].
    change (weatherEventDuration (after_spawn e s)) with (duration e - 1)%Z.
    destruct (S k <? d)%nat eqn:Hlt.
    - apply Nat.ltb_lt in Hlt.
      destruct (duration e - 1 - Z.of_nat k <=? 0)%Z eqn:E; [|reflexivity].
      apply Z.leb_le in E. lia.
    - apply Nat.ltb_ge in Hlt.
      destruct (duration e - 1 - Z.of_nat k <=? 0)%Z eqn:E.
      + destruct k; [lia | reflexivity].
      + apply Z.leb_gt in E. lia. }
  assert (1 <= d <= d)%nat as Hd by lia.
  destruct (Hrun d Hd) as (_ & Hw & Hc). rewrite Nat.ltb_irrefl in Hw.
  split; [|split].
  - intros k Hk. destruct (Hrun k Hk) as (? & ? & _). now split.
  - exact Hw.
  - intros Hnext. rewrite tick_idle; [reflexivity | exact Hw |].
    now rewrite Hc.
Qed.

(** C4 at one input: high_pressure lasts ten ticks, then the factor is
    1.0 again. *)
Lemma weather_event_lifetime_witness :
  fst (ticks env_spawning 10 sim_idle) = repeat (Ok 1.5) 10 /\
  weatherEvent (snd (ticks env_spawning 10 sim_idle)) = None /\
  fst (simulateWeatherEvents env_spawning (snd (ticks env_spawning 10 sim_idle)))
  = Ok 1.0.
Proof.
  destruct (weather_event_lifetime env_spawning sim_idle high_pressure)
    as (Hrun & Hend & Hnext); [reflexivity | reflexivity | reflexivity |].
  destruct (Hrun 10%nat) as (Hf & _); [cbn; lia|].
  split; [exact Hf | split; [exact Hend | apply Hnext; discriminate]].
Defined.

End WeatherFacts.

(** ** Running monadic code *)

Lemma bind_Ok {S A B} (c : M S A) (k : A -> M S B) (s s' : S) (b : B) :
  bind c k s = (Ok b, s') ->
  exists a s1, c s = (Ok a, s1) /\ k a s1 = (Ok b, s').
Proof.
  unfold bind. destruct (c s) as [[a | e] s1]; intros H.
  - now exists a, s1.
  - discriminate.
Qed.

Lemma bind_run {S A B} (c : M S A) (k : A -> M S B) (s s1 : S) (a : A) :
  c s = (Ok a, s1) -> bind c k s = k a s1.
Proof. intros H. unfold bind. now rewrite H. Qed.

Lemma bind_throw {S A B} (c : M S A) (k : A -> M S B) (s s1 : S) (e : Error) :
  c s = (Throw e, s1) -> bind c k s = (Throw e, s1).
Proof. intros H. unfold bind. now rewrite H. Qed.

Ltac invert_bind H :=
  let a := fresh "a" in
  let s := fresh "s" in
  let H1 := fresh "Hstep" in
  apply bind_Ok in H; destruct H as (a & s & H1 & H).

(** ** Clamping and rounding of a normal reading *)

Lemma clamp_bounds (R x : Q) :
  0 <= R ->
  0 <= Math_max 0 (Math_min x (R * 1.2)) /\
  Math_max 0 (Math_min x (R * 1.2)) <= R * 1.2.
Proof.
  intros HR. unfold Math_max, Math_min. split.
  - apply Q.le_max_l.
  - apply Q.max_lub; [lra | apply Q.le_min_r].
Qed.

Lemma clamp_round2 (R : Z) (x : Q) :
  (0 <= R)%Z ->
  0 <= round2 (Math_max 0 (Math_min x (inject_Z R * 1.2))) /\
  round2 (Math_max 0 (Math_min x (inject_Z R * 1.2))) <= 1.2 * inject_Z R.
Proof.
  intros HR. rewrite Zle_Qle in HR.
  destruct (clamp_bounds (inject_Z R) x HR) as [Hlo Hhi].
  destruct (round2_between (Math_max 0 (Math_min x (inject_Z R * 1.2)))
              0 (120 * R)) as [H1 H2].
  - rewrite Qdiv_100. change (inject_Z 0) with 0. lra.
  - rewrite Qdiv_100, inject_Z_mult. change (inject_Z 120) with 120. lra.
  - rewrite Qdiv_100 in H1, H2. rewrite inject_Z_mult in H2.
    change (inject_Z 0) with 0 in H1. change (inject_Z 120) with 120 in H2. lra.
Qed.

Lemma floor_scaled_draw (u : Q) (n : Z) :
  0 <= u -> u < 1 -> (0 < n)%Z ->
  (0 <= Math_floor (u * inject_Z n) < n)%Z.
Proof.
  intros H0 H1 Hn. unfold Math_floor. rewrite Zlt_Qlt in Hn.
  change (inject_Z 0) with 0 in Hn. split.
  - rewrite <- (Qfloor_Z 0). apply Qfloor_resp_le.
    change (inject_Z 0) with 0. nra.
  - rewrite Zlt_Qlt. eapply Qle_lt_trans; [apply Qfloor_le|]. nra.
Qed.

Lemma floor_scaled_draw_slot (u : Q) (n : Z) :
  (0 < n)%Z ->
  inject_Z (Math_floor (u * inject_Z n)) / inject_Z n <= u /\
  u < (inject_Z (Math_floor (u * inject_Z n)) + 1) / inject_Z n.
Proof.
  intros Hn. unfold Math_floor. rewrite Zlt_Qlt in Hn.
  change (inject_Z 0) with 0 in Hn.
  pose proof (Qfloor_le (u * inject_Z n)) as Hlo.
  pose proof (Qlt_floor (u * inject_Z n)) as Hhi.
  rewrite inject_Z_plus in Hhi. change (inject_Z 1) with 1 in Hhi.
  split.
  - apply Qle_shift_div_r; assumption.
  - apply Qlt_shift_div_l; assumption.
Qed.

Module SimulatorFacts.

Import Simulator WeatherModel WeatherSteps SimulatorSpec.

Section Generation.

Variable env : Env.
Variable OUTLIER_CHANCE : Z.
Hypothesis random_ok : in_unit_interval (Math_random env).

Lemma simulateWeatherEvents_total (s : State) :
  exists f s', simulateWeatherEvents env s = (Ok f, s').
Proof.
  destruct (weatherEvent s) as [e|] eqn:He.
  - rewrite (tick_active env s e He). eauto.
  - destruct (Qlt_le_dec (Math_random env (random_cursor s)) 0.05) as [Hu | Hu].
    + destruct (random_ok (S (random_cursor s))) as [Hv0 Hv1].
      destruct (pick_event _ Hv0 Hv1) as (e & Hidx & _).
      erewrite (tick_spawn env s e He Hu Hidx); [eauto|].
      unfold js_index in Hidx. destruct (_ <? 0)%Z; [discriminate|].
      apply nth_error_In in Hidx. cbn in Hidx.
      destruct Hidx as [<- | [<- | [<- | []]]]; cbn; lia.
    + rewrite (tick_idle env s He Hu). eauto.
Qed.

Lemma getTimeBasedWindFactor_run (s : State) :
  exists f,
    getTimeBasedWindFactor env s = (Ok f, set_clock_cursor (S (clock_cursor s)) s).
Proof.
  unfold getTimeBasedWindFactor, bind, new_Date. cbn.
  destruct (_ || _)%bool; [eauto|]. destruct (_ && _)%bool; eauto.
Qed.

Lemma generateOutlierReading_outlier turbine ts s r s' :
  generateOutlierReading env turbine ts s = (Ok r, s') -> outlier r = true.
Proof.
  unfold generateOutlierReading. intros H. invert_bind H.
  destruct (js_index _ _) as [sel|]; [|discriminate].
  invert_bind H. invert_bind H. injection H as <- _. reflexivity.
Qed.

Lemma getTimeBasedWindFactor_band (s : State) :
  exists f,
    getTimeBasedWindFactor env s = (Ok f, set_clock_cursor (S (clock_cursor s)) s) /\
    time_band (getHours (now env (clock_cursor s))) f.
Proof.
  unfold getTimeBasedWindFactor, bind, new_Date, time_band. cbn.
  destruct (_ || _)%bool eqn:Hnight; [|destruct (_ && _)%bool eqn:Hnoon].
  - eexists; split; [reflexivity|]. apply orb_true_iff in Hnight.
    rewrite Z.geb_le, Z.leb_le in Hnight.
    split; [reflexivity | split; intros; lia].
  - eexists; split; [reflexivity|]. apply andb_true_iff in Hnoon.
    rewrite Z.geb_le, Z.leb_le in Hnoon.
    split; [|split]; intros; [lia | reflexivity | lia].
  - eexists; split; [reflexivity|]. apply orb_false_iff in Hnight.
    apply andb_false_iff in Hnoon.
    rewrite !Z.geb_leb, !Z.leb_gt in *.
    split; [|split]; intros; [lia | lia | reflexivity].
Qed.

(** A normal reading: the rounded clamp of the rated capacity scaled by
    the time factor of the clock's hour, a weather factor, a variation of
    [[0.8,1.2)] and an efficiency of [[0.85,1.15)]. *)
Lemma normal_reading_shape turbine ts s r s' :
  generatePowerOutput env OUTLIER_CHANCE turbine ts s = (Ok r, s') ->
  outlier r = false ->
  exists timeFactor weather u u',
    time_band (getHours (now env (clock_cursor s))) timeFactor /\
    powerKW r =
    round2 (Math_max 0
              (Math_min (inject_Z (ratedCapacityKW turbine)
                         * (timeFactor * weather * (0.8 + u * 0.4))
                         * (0.85 + u' * 0.3))
                        (inject_Z (ratedCapacityKW turbine) * 1.2))).
Proof.
  unfold generatePowerOutput. intros H Hnormal. invert_bind H.
  assert (clock_cursor s0 = clock_cursor s) as Hclock.
  { destruct (OUTLIER_CHANCE >? 0)%Z; cbn in Hstep; now injection Hstep as _ <-. }
  destruct a.
  - apply generateOutlierReading_outlier in H. congruence.
  - destruct (getTimeBasedWindFactor_band s0) as (f & Hf & Hband).
    rewrite (bind_run _ _ _ _ _ Hf) in H.
    do 3 invert_bind H. injection H as <- _. cbn [powerKW].
    rewrite Hclock in Hband. eauto 6.
Qed.

Lemma outlierTypes_names turbine : map name (outlierTypes env turbine) = shapes.
Proof. reflexivity. Qed.

Lemma scale_by_draw (R u : Q) : 0 <= R -> 0 <= u -> u < 1 -> 0 <= u * R /\ u * R <= R.
Proof. intros. split; nra. Qed.

Lemma round2_band (x : Q) (lo hi : Z) (a b : Q) :
  a == inject_Z lo / 100 -> b == inject_Z hi / 100 ->
  a <= x -> x <= b -> a <= round2 x /\ round2 x <= b.
Proof.
  intros Ha Hb Hlo Hhi. rewrite Ha, Hb in *. now apply round2_between.
Qed.

(** C5. An outlier reading ([generateOutlierReading]) is tagged with the
    shape picked by the first draw [u], each fifth of [[0,1)] giving one
    of exactly five shapes, and for a turbine of rated capacity
    [R >= 0] its [powerKW], rounded to two decimals, is: exactly 0 for
    zero_reading; within [[2R, 5R]] for extremely_high; negative of
    magnitude at most [0.5 R] for negative_reading; at most 50 kW below
    zero for minor_negative; within [[1.5R, 3.5R]] for
    unrealistic_spike. *)
Theorem outlier_reading_shapes (turbine : Turbine) (ts : Date) (s : State) :
  let R := inject_Z (ratedCapacityKW turbine) in
  let u := Math_random env (random_cursor s) in
  (0 <= ratedCapacityKW turbine)%Z ->
  exists r s' i shape,
    generateOutlierReading env turbine ts s = (Ok r, s') /\
    outlier r = true /\
    length (outlierTypes env turbine) = 5%nat /\
    (inject_Z (Z.of_nat i) / 5 <= u /\ u < (inject_Z (Z.of_nat i) + 1) / 5) /\
    nth_error shapes i = Some shape /\
    outlierType r = Some shape /\
    two_decimals (powerKW r) /\
    (shape = "zero_reading" -> powerKW r == 0) /\
    (shape = "extremely_high" -> 2 * R <= powerKW r /\ powerKW r <= 5 * R) /\
    (shape = "negative_reading" -> - (0.5 * R) <= powerKW r /\ powerKW r <= 0) /\
    (shape = "minor_negative" -> - (50) <= powerKW r /\ powerKW r <= 0) /\
    (shape = "unrealistic_spike" -> 1.5 * R <= powerKW r /\ powerKW r <= 3.5 * R).
Proof.
  intros R u HR.
  destruct (random_ok (random_cursor s)) as [Hu0 Hu1].
  destruct (random_ok (S (random_cursor s))) as [Hv0 Hv1].
  set (v := Math_random env (S (random_cursor s))) in *.
  pose proof (floor_scaled_draw u 5 Hu0 Hu1 eq_refl) as Hi.
  pose proof (floor_scaled_draw_slot u 5 eq_refl) as Hslot.
  assert (0 <= R) as HRq by (unfold R; rewrite Zle_Qle in HR; exact HR).
  destruct (scale_by_draw R v HRq Hv0 Hv1) as [Hp0 Hp1].
  unfold generateOutlierReading, bind, random.
  cbn [length outlierTypes Z.of_nat Pos.of_succ_nat Pos.succ].
  fold u. change (inject_Z (Z.of_nat 5)) with (inject_Z 5).
  remember (Math_floor (u * inject_Z 5)) as i eqn:Ei.
  change (inject_Z 5) with 5 in Hslot.
  assert (i = 0 \/ i = 1 \/ i = 2 \/ i = 3 \/ i = 4)%Z as Hcase by lia.
  destruct Hcase as [-> | [-> | [-> | [-> | ->]]]].
  - (* negative_reading *)
    eexists _, _, 0%nat, _. unfold js_index. cbn.
    split; [reflexivity|].
    cbn [powerKW outlierType outlier name random_cursor set_random_cursor].
    fold v.
    repeat (split; [first [reflexivity | exact Hslot
                          | apply round2_two_decimals | discriminate]|]).
    repeat match goal with |- _ /\ _ => split end; try discriminate.
    intros _. fold R.
    apply (round2_band _ (- (50 * ratedCapacityKW turbine)) 0).
    + rewrite Qdiv_100, inject_Z_opp, inject_Z_mult. fold R.
      change (inject_Z 50) with 50. ring.
    + reflexivity.
    + lra.
    + lra.
  - (* zero_reading *)
    eexists _, _, 1%nat, _. unfold js_index. cbn.
    split; [reflexivity|].
    cbn [powerKW outlierType outlier name random_cursor set_random_cursor].
    fold v.
    repeat (split; [first [reflexivity | exact Hslot
                          | apply round2_two_decimals | discriminate]|]).
    repeat match goal with |- _ /\ _ => split end; try discriminate.
  - (* extremely_high *)
    eexists _, _, 2%nat, _. unfold js_index. cbn.
    split; [reflexivity|].
    cbn [powerKW outlierType outlier name random_cursor set_random_cursor].
    fold v.
    repeat (split; [first [reflexivity | exact Hslot
                          | apply round2_two_decimals | discriminate]|]).
    repeat match goal with |- _ /\ _ => split end; try discriminate.
    intros _. fold R.
    apply (round2_band _ (200 * ratedCapacityKW turbine) (500 * ratedCapacityKW turbine)).
    + rewrite Qdiv_100, inject_Z_mult. fold R. change (inject_Z 200) with 200. ring.
    + rewrite Qdiv_100, inject_Z_mult. fold R. change (inject_Z 500) with 500. ring.
    + lra.
    + lra.
  - (* minor_negative *)
    eexists _, _, 3%nat, _. unfold js_index. cbn.
    split; [reflexivity|].
    cbn [powerKW outlierType outlier name random_cursor set_random_cursor].
    fold v.
    repeat (split; [first [reflexivity | exact Hslot
                          | apply round2_two_decimals | discriminate]|]).
    repeat match goal with |- _ /\ _ => split end; try discriminate.
    intros _.
    apply (round2_band _ (- 5000) 0); [reflexivity | reflexivity | lra | lra].
  - (* unrealistic_spike *)
    eexists _, _, 4%nat, _. unfold js_index. cbn.
    split; [reflexivity|].
    cbn [powerKW outlierType outlier name random_cursor set_random_cursor].
    fold v.
    repeat (split; [first [reflexivity | exact Hslot
                          | apply round2_two_decimals | discriminate]|]).
    repeat match goal with |- _ /\ _ => split end; try discriminate.
    intros _. fold R.
    apply (round2_band _ (150 * ratedCapacityKW turbine) (350 * ratedCapacityKW turbine)).
    + rewrite Qdiv_100, inject_Z_mult. fold R. change (inject_Z 150) with 150. ring.
    + rewrite Qdiv_100, inject_Z_mult. fold R. change (inject_Z 350) with 350. ring.
    + lra.
    + lra.
Qed.

Lemma js_index_in_range {A} (l : list A) (i : Z) :
  (0 <= i < Z.of_nat (length l))%Z -> exists x, js_index l i = Some x /\ In x l.
Proof.
  intros Hi. unfold js_index.
  destruct (i <? 0)%Z eqn:E; [apply Z.ltb_lt in E; lia|].
  destruct (nth_error l (Z.to_nat i)) as [x|] eqn:Hx.
  - exists x. split; [reflexivity | eapply nth_error_In; eassumption].
  - apply nth_error_None in Hx. lia.
Qed.

Lemma generator_total turbine sel (s : State) :
  In sel (outlierTypes env turbine) -> exists x s', generator sel s = (Ok x, s').
Proof.
  cbn. intros [<- | [<- | [<- | [<- | [<- | []]]]]]; cbn; eauto.
Qed.

Lemma generateOutlierReading_total turbine ts (s : State) :
  exists r s', generateOutlierReading env turbine ts s = (Ok r, s').
Proof.
  unfold generateOutlierReading.
  destruct (random_ok (random_cursor s)) as [Hu0 Hu1].
  erewrite bind_run by reflexivity.
  destruct (js_index_in_range (outlierTypes env turbine)
              (Math_floor (Math_random env (random_cursor s)
                           * inject_Z (Z.of_nat (length (outlierTypes env turbine))))))
    as (sel & -> & Hin).
  { apply floor_scaled_draw; [assumption | assumption | reflexivity]. }
  destruct (generator_total turbine sel (set_random_cursor (S (random_cursor s)) s) Hin)
    as (x & s1 & Hgen).
  erewrite bind_run by exact Hgen. cbn. eauto.
Qed.

Lemma generatePowerOutput_total turbine ts (s : State) :
  exists r s', generatePowerOutput env OUTLIER_CHANCE turbine ts s = (Ok r, s').
Proof.
  unfold generatePowerOutput.
  assert (exists b s1,
            (if (OUTLIER_CHANCE >? 0)%Z
             then let! u := random env in
                  ret (Qltb (u * 100) (inject_Z OUTLIER_CHANCE))
             else ret false) s = (Ok b, s1)) as (b & s1 & Hb).
  { destruct (OUTLIER_CHANCE >? 0)%Z; cbn; eauto. }
  erewrite bind_run by exact Hb.
  destruct b; [apply generateOutlierReading_total|].
  destruct (getTimeBasedWindFactor_run s1) as (f & Hf).
  erewrite bind_run by exact Hf.
  destruct (simulateWeatherEvents_total (set_clock_cursor (S (clock_cursor s1)) s1))
    as (w & s2 & Hw).
  erewrite bind_run by exact Hw. cbn. eauto.
Qed.

(** With outliers disabled and an event active for more cycles than the
    batch has turbines, [batch.map(generatePowerOutput)] runs the
    weather tick once per turbine: the counter drops by the size of the
    batch. *)
Lemma batch_ticks_per_turbine (ts : Date) (batch : list Turbine) :
  OUTLIER_CHANCE = 0%Z ->
  forall (s : State) (e : WeatherEvent),
    weatherEvent s = Some e ->
    (Z.of_nat (length batch) < weatherEventDuration s)%Z ->
    exists rs s',
      map_M (fun turbine => generatePowerOutput env OUTLIER_CHANCE turbine ts) batch s
      = (Ok rs, s') /\
      length rs = length batch /\
      weatherEvent s' = Some e /\
      weatherEventDuration s' = (weatherEventDuration s - Z.of_nat (length batch))%Z.
Proof.
  intros ->. induction batch as [|turbine batch IH]; intros s e He Hd.
  - exists [], s.
    split; [reflexivity | split; [reflexivity | split; [exact He | cbn; lia]]].
  - cbn [map_M length] in *.
    assert (exists r,
              generatePowerOutput env 0 turbine ts s =
              (Ok r, set_random_cursor (S (S (random_cursor s)))
                       (set_weatherEventDuration (weatherEventDuration s - 1)
                          (set_clock_cursor (S (clock_cursor s)) s)))) as (r & Hr).
    { unfold generatePowerOutput. cbn [Z.gtb Z.compare].
      erewrite bind_run by reflexivity.
      destruct (getTimeBasedWindFactor_run s) as (f & Hf).
      erewrite bind_run by exact Hf.
      erewrite bind_run by (apply tick_active; exact He).
      unfold after_active. cbn [weatherEventDuration set_clock_cursor].
      destruct (weatherEventDuration s - 1 <=? 0)%Z eqn:E;
        [apply Z.leb_le in E; lia|].
      cbn. eauto. }
    erewrite bind_run by exact Hr.
    destruct (IH (set_random_cursor (S (S (random_cursor s)))
                    (set_weatherEventDuration (weatherEventDuration s - 1)
                       (set_clock_cursor (S (clock_cursor s)) s))) e)
      as (rs & s' & Hrs & Hlen & He' & Hd'); [exact He | cbn; lia |].
    erewrite bind_run by exact Hrs.
    exists (r :: rs), s'. cbn in Hd' |- *.
    split; [reflexivity | split; [cbn; congruence | split; [exact He' | lia]]].
Qed.

(** *** Effects of one pass of the loop *)

Lemma logs_only_refl s : logs_only s s.
Proof. exists []. split; [now rewrite app_nil_r | constructor]. Qed.

Lemma logs_only_trans s1 s2 s3 :
  logs_only s1 s2 -> logs_only s2 s3 -> logs_only s1 s3.
Proof.
  intros (t1 & H1 & F1) (t2 & H2 & F2). exists (t1 ++ t2). split.
  - now rewrite H2, H1, app_assoc.
  - now apply Forall_app.
Qed.

Lemma quiet_ret {A} (a : A) : quiet (ret a).
Proof. intros s. apply logs_only_refl. Qed.

Lemma quiet_throw {A} (e : Error) : quiet (@throw State A e).
Proof. intros s. apply logs_only_refl. Qed.

Lemma quiet_bind {A B} (c : M State A) (k : A -> M State B) :
  quiet c -> (forall a, quiet (k a)) -> quiet (bind c k).
Proof.
  intros Hc Hk s. unfold bind. specialize (Hc s).
  destruct (c s) as [[a | e] s1]; cbn in *; [|exact Hc].
  eapply logs_only_trans; [exact Hc | apply Hk].
Qed.

Lemma quiet_same_trace {A} (c : M State A) :
  (forall s, trace (snd (c s)) = trace s) -> quiet c.
Proof.
  intros H s. exists []. split; [now rewrite H, app_nil_r | constructor].
Qed.

Lemma quiet_get : quiet (@get State).
Proof. now apply quiet_same_trace. Qed.

Lemma quiet_random : quiet (random env).
Proof. now apply quiet_same_trace. Qed.

Lemma quiet_new_Date : quiet (new_Date env).
Proof. now apply quiet_same_trace. Qed.

Lemma quiet_log text : quiet (log text).
Proof.
  intros s. exists [Console (console_log text)]. split; [reflexivity|].
  repeat constructor.
Qed.

Lemma quiet_set_weatherEvent e : quiet (modify (set_weatherEvent e)).
Proof. now apply quiet_same_trace. Qed.

Lemma quiet_set_weatherEventDuration d : quiet (modify (set_weatherEventDuration d)).
Proof. now apply quiet_same_trace. Qed.

Ltac quiet_step :=
  first [ apply quiet_ret | apply quiet_throw | apply quiet_get
        | apply quiet_random | apply quiet_new_Date | apply quiet_log
        | apply quiet_set_weatherEvent | apply quiet_set_weatherEventDuration
        | apply quiet_bind; [|intros ?] ].

Lemma quiet_simulateWeatherEvents : quiet (simulateWeatherEvents env).
Proof.
  unfold simulateWeatherEvents.
  repeat first [ quiet_step
               | match goal with
                 | |- quiet (match ?x with _ => _ end) => destruct x
                 end ].
Qed.

Lemma quiet_getTimeBasedWindFactor : quiet (getTimeBasedWindFactor env).
Proof.
  unfold getTimeBasedWindFactor.
  repeat first [ quiet_step
               | match goal with
                 | |- quiet (match ?x with _ => _ end) => destruct x
                 end ].
Qed.

Lemma quiet_generateOutlierReading turbine ts :
  quiet (generateOutlierReading env turbine ts).
Proof.
  unfold generateOutlierReading.
  apply quiet_bind; [apply quiet_random | intros u].
  destruct (js_index _ _) as [sel|] eqn:Hsel; [|apply quiet_throw].
  unfold js_index in Hsel. destruct (_ <? 0)%Z; [discriminate|].
  apply nth_error_In in Hsel.
  apply quiet_bind.
  - cbn in Hsel. destruct Hsel as [<- | [<- | [<- | [<- | [<- | []]]]]];
      cbn [generator]; repeat quiet_step.
  - intros x. repeat quiet_step.
Qed.

Lemma quiet_generatePowerOutput turbine ts :
  quiet (generatePowerOutput env OUTLIER_CHANCE turbine ts).
Proof.
  unfold generatePowerOutput.
  apply quiet_bind.
  - destruct (OUTLIER_CHANCE >? 0)%Z; repeat quiet_step.
  - intros [|]; [apply quiet_generateOutlierReading|].
    apply quiet_bind; [apply quiet_getTimeBasedWindFactor | intros f].
    apply quiet_bind; [apply quiet_simulateWeatherEvents | intros w].
    repeat quiet_step.
Qed.

Lemma quiet_map_M {A B} (f : A -> M State B) (xs : list A) :
  (forall x, quiet (f x)) -> quiet (map_M f xs).
Proof.
  intros Hf. induction xs as [|x xs IH]; cbn [map_M]; repeat quiet_step.
  - apply Hf.
  - apply IH.
Qed.

Lemma map_generatePowerOutput_total ts (batch : list Turbine) (s : State) :
  exists readings s',
    map_M (fun turbine => generatePowerOutput env OUTLIER_CHANCE turbine ts) batch s
    = (Ok readings, s').
Proof.
  revert s. induction batch as [|turbine batch IH]; intros s; cbn [map_M].
  - eexists _, _. reflexivity.
  - destruct (generatePowerOutput_total turbine ts s) as (r & s1 & Hr).
    erewrite bind_run by exact Hr.
    destruct (IH s1) as (rs & s2 & Hrs).
    erewrite bind_run by exact Hrs. eexists _, _. reflexivity.
Qed.

Section Loop.

Variable STREAMING_INTERVAL : Z.
Variable http_get_turbines : Res (list Turbine).
Variable http_post_batch : list Reading -> Res BatchResponse.

Local Abbreviation failure_line := (SimulatorSpec.failure_line http_post_batch).
Local Abbreviation reported := (SimulatorSpec.reported http_post_batch).

Lemma logs_silent (tr : list Effect) :
  Forall is_log tr -> timeouts tr = [] /\ console_errors tr = [] /\ posts tr = [].
Proof.
  induction 1 as [|e tr He _ IH]; [easy|].
  destruct IH as (H1 & H2 & H3).
  destruct e as [[text | text] | | |]; try contradiction.
  unfold timeouts, console_errors, posts in *. cbn. auto.
Qed.

Lemma reported_app (t1 t2 : list Effect) :
  reported t1 -> reported t2 -> reported (t1 ++ t2).
Proof.
  unfold reported, timeouts, console_errors, posts.
  intros [H1 H2] [H3 H4]. rewrite !omap_app.
  split; [now rewrite H1, H3 | now rewrite H2, H4].
Qed.

Lemma posts_app (t1 t2 : list Effect) : posts (t1 ++ t2) = posts t1 ++ posts t2.
Proof. apply omap_app. Qed.

Lemma process_batch_run (batch : list Turbine) (s : State) :
  exists s' tr,
    process_batch env OUTLIER_CHANCE http_post_batch batch s = (Ok tt, s') /\
    trace s' = trace s ++ tr /\ reported tr /\ length (posts tr) = 1%nat.
Proof.
  unfold process_batch.
  erewrite bind_run by reflexivity.
  set (ts := now env (clock_cursor s)).
  set (s0 := set_clock_cursor (S (clock_cursor s)) s).
  destruct (map_generatePowerOutput_total ts batch s0) as (readings & s1 & Hmap).
  pose proof (quiet_map_M
                (fun turbine => generatePowerOutput env OUTLIER_CHANCE turbine ts) batch
                (fun turbine => quiet_generatePowerOutput turbine ts) s0) as Hquiet.
  rewrite Hmap in Hquiet. destruct Hquiet as (pre & Hpre & Hlogs).
  cbn [snd] in Hpre. change (trace s0) with (trace s) in Hpre.
  destruct (logs_silent pre Hlogs) as (Ht & He & Hp).
  erewrite bind_run by exact Hmap.
  unfold try_catch, sendPowerReadings, bind, log, log_error, emit, modify.
  destruct (http_post_batch readings) as [result | error] eqn:Hpost.
  - eexists _, (pre ++ [Http_post_batch readings; _; Await_timeout 1000]).
    split; [reflexivity|]. cbn [trace push_effect]. rewrite Hpre.
    split; [now rewrite <- !app_assoc|].
    unfold reported, timeouts, console_errors, posts in *.
    rewrite !omap_app, Ht, He, Hp. cbn. unfold failure_line. rewrite Hpost.
    auto.
  - eexists _, (pre ++ [Http_post_batch readings; _; Await_timeout 1000]).
    split; [reflexivity|]. cbn [trace push_effect]. rewrite Hpre.
    split; [now rewrite <- !app_assoc|].
    unfold reported, timeouts, console_errors, posts in *.
    rewrite !omap_app, Ht, He, Hp. cbn. unfold failure_line. rewrite Hpost.
    auto.
Qed.

Lemma for_of_batches_run (batches : list (list Turbine)) (s : State) :
  exists s' tr,
    for_of batches (process_batch env OUTLIER_CHANCE http_post_batch) s = (Ok tt, s') /\
    trace s' = trace s ++ tr /\ reported tr /\
    length (posts tr) = length batches.
Proof.
  revert s. induction batches as [|batch batches IH]; intros s; cbn [for_of].
  - exists s, []. split; [reflexivity|]. split; [now rewrite app_nil_r|].
    split; [split; reflexivity | reflexivity].
  - destruct (process_batch_run batch s) as (s1 & t1 & Hrun & Ht1 & Hr1 & Hl1).
    erewrite bind_run by exact Hrun.
    destruct (IH s1) as (s2 & t2 & Hrest & Ht2 & Hr2 & Hl2).
    exists s2, (t1 ++ t2). split; [exact Hrest|].
    split; [now rewrite Ht2, Ht1, app_assoc|].
    split; [now apply reported_app|].
    rewrite posts_app, length_app, Hl1, Hl2. reflexivity.
Qed.

(** C9, amended.  One pass of [runSimulation] never raises and always
    arms exactly one timer for the next pass.  When the fetched list is
    empty the timer is 30 s and nothing is reported as an error.  When
    the list is not empty every batch is submitted, each failed submit
    is reported by one [console.error] line, and the next pass is armed
    after [STREAMING_INTERVAL] seconds, not after 30 s.  When the fetch
    fails the error is reported by one [console.error] line and the
    next pass is armed. *)
Theorem runSimulation_reschedules (s : State) :
  exists s' tr,
    runSimulation env OUTLIER_CHANCE STREAMING_INTERVAL http_get_turbines
                  http_post_batch s = (Ok tt, s') /\
    trace s' = trace s ++ tr /\
    match http_get_turbines with
    | Ok [] =>
        timeouts tr = [30000%Z] /\ console_errors tr = [] /\ posts tr = []
    | Ok turbines =>
        timeouts tr = [(STREAMING_INTERVAL * 1000)%Z] /\
        console_errors tr = omap failure_line (posts tr) /\
        length (posts tr) = length (batches_of (length turbines) turbines)
    | Throw error =>
        (exists ms, timeouts tr = [ms]) /\
        console_errors tr = [[Str "Simulation error:"; Str (message error)]] /\
        posts tr = []
    end.
Proof.
  unfold runSimulation, fetchActiveTurbines.
  destruct http_get_turbines as [[|turbine turbines] | error].
  - eexists _, _. split; [reflexivity|]. cbn [trace push_effect snd].
    split; [rewrite <- !app_assoc; reflexivity|]. cbn. auto.
  - set (all := turbine :: turbines).
    destruct (for_of_batches_run (batches_of (length all) all)
                (push_effect
                   (Console (console_log [Str "Found "; Int (Z.of_nat (length all));
                                          Str " active turbines"]))
                   (push_effect
                      (Console (console_log [Str "Fetching active turbines..."])) s)))
      as (s1 & tr & Hloop & Htr & [Ht He] & Hlen).
    match goal with |- context [try_catch ?body ?handler] =>
      assert (body s =
              (Ok false,
               push_effect
                 (Console (console_log [Str "Simulation cycle completed. Next cycle in ";
                                        Int STREAMING_INTERVAL; Str " seconds."])) s1))
        as Hbody
    end.
    { erewrite bind_run by reflexivity.
      erewrite bind_run by reflexivity.
      change (length all =? 0)%nat with false. cbv iota.
      erewrite bind_run by reflexivity.
      erewrite bind_run by exact Hloop.
      erewrite bind_run by reflexivity. reflexivity. }
    erewrite bind_run by (unfold try_catch; rewrite Hbody; reflexivity).
    cbv iota.
    eexists _, (_ :: _ :: tr ++ [_; _]).
    split; [reflexivity|]. cbn [trace push_effect]. rewrite Htr.
    cbn [trace push_effect].
    split; [now rewrite <- !app_assoc|].
    unfold timeouts, console_errors, posts in *.
    cbn [omap list_omap]. rewrite !omap_app, Ht, He. cbn.
    split; [reflexivity | split; [reflexivity|]]. rewrite app_nil_r. exact Hlen.
  - eexists _, _. split; [reflexivity|]. cbn [trace push_effect snd].
    split; [rewrite <- !app_assoc; reflexivity|]. cbn. eauto.
Qed.

End Loop.

End Generation.

End SimulatorFacts.

(** ** The generator of the API server *)

Module ApiFacts.

Import Api ApiSpec.

Section Generation.

Variable env : Env.

Lemma faker_number_float_run (min max : Q) (s : State) :
  faker_number_float env min max s =
  (Ok (faker_real env (faker_cursor s) * (max - min) + min),
   set_faker_cursor (S (faker_cursor s)) s).
Proof. reflexivity. Qed.

Lemma draw_windStrengthFactor_run (hour : Z) (s : State) :
  exists f,
    draw_windStrengthFactor env hour s = (Ok f, set_faker_cursor (S (faker_cursor s)) s) /\
    (in_unit_interval (faker_real env) -> strength_band hour f).
Proof.
  unfold draw_windStrengthFactor, strength_band.
  destruct (_ || _)%bool eqn:Hnight; [|destruct (_ && _)%bool eqn:Hnoon];
    rewrite faker_number_float_run; eexists; (split; [reflexivity|]);
    intros Hunit; destruct (Hunit (faker_cursor s)) as [H0 H1].
  - apply orb_true_iff in Hnight. rewrite Z.geb_le, Z.leb_le in Hnight.
    split; [intros _; split; lra | split; intros; lia].
  - apply andb_true_iff in Hnoon. rewrite Z.geb_le, Z.leb_le in Hnoon.
    split; [|split]; intros; [lia | split; lra | lia].
  - apply orb_false_iff in Hnight. apply andb_false_iff in Hnoon.
    rewrite !Z.geb_leb, !Z.leb_gt in *.
    split; [|split]; intros; [lia | lia | split; lra].
Qed.

(** [generatePowerOutput] always returns, draws three reals, and its
    power is the rounded clamp of the rated capacity scaled by the drawn
    wind strength and two further draws. *)
Lemma generatePowerOutput_run (windTurbineId : string) (R : Z) (ts : Date) (s : State) :
  exists windStrength randomFactor turbineEfficiency,
    generatePowerOutput env windTurbineId R ts s =
    (Ok (mkPowerData windTurbineId ts
           (round2 (Math_max 0
                      (Math_min (inject_Z R * windStrength * randomFactor
                                 * turbineEfficiency)
                                (inject_Z R * 1.2))))),
     set_faker_cursor (S (S (S (faker_cursor s)))) s) /\
    (in_unit_interval (faker_real env) -> strength_band (getHours ts) windStrength).
Proof.
  unfold generatePowerOutput.
  destruct (draw_windStrengthFactor_run (getHours ts) s) as (f & Hf & Hband).
  erewrite bind_run by exact Hf.
  erewrite bind_run by apply faker_number_float_run.
  erewrite bind_run by apply faker_number_float_run.
  cbn. eauto 6.
Qed.

Lemma PowerOutput_create_Ok attrs (s : State) row s' :
  PowerOutput_create env attrs s = (Ok row, s') ->
  row = attrs /\ s' = set_power_outputs (power_outputs s ++ [attrs]) s.
Proof.
  unfold PowerOutput_create. destruct (PowerOutput_accepts env attrs); [|discriminate].
  intros H. now injection H as <- <-.
Qed.

(** One turbine of a tick: one entry for the event and one row stored,
    both for that turbine. *)
Lemma power_entry_Ok ts turbine (s : State) entry s' :
  power_entry env ts turbine s = (Ok entry, s') ->
  turbineId entry = id turbine /\
  exists row, power_outputs s' = power_outputs s ++ [row] /\
              attr_windTurbineId row = Js.JString (id turbine).
Proof.
  unfold power_entry. intros H.
  destruct (generatePowerOutput_run (id turbine) (ratedCapacityKW turbine) ts s)
    as (f & rf & te & Hgen & _).
  rewrite (bind_run _ _ _ _ _ Hgen) in H. invert_bind H.
  apply PowerOutput_create_Ok in Hstep as [_ ->].
  injection H as <- <-. split; [reflexivity|].
  eexists. split; reflexivity.
Qed.

Lemma power_entries_Ok ts (turbines : list WindTurbine) :
  forall (s : State) entries s',
    map_M (power_entry env ts) turbines s = (Ok entries, s') ->
    map turbineId entries = map id turbines /\
    exists rows, power_outputs s' = power_outputs s ++ rows /\
                 map attr_windTurbineId rows =
                 map (fun turbine => Js.JString (id turbine)) turbines.
Proof.
  induction turbines as [|turbine turbines IH]; intros s entries s' H;
    cbn [map_M] in H.
  - injection H as <- <-. split; [reflexivity|].
    exists []. split; [now rewrite app_nil_r | reflexivity].
  - invert_bind H. invert_bind H. injection H as <- <-.
    apply power_entry_Ok in Hstep as (Hid & row & Hrow & Hattr).
    apply IH in Hstep0 as (Hids & rows & Hrows & Hattrs).
    split; [cbn; congruence|].
    exists (row :: rows). split.
    + rewrite Hrows, Hrow, <- app_assoc. reflexivity.
    + cbn. congruence.
Qed.

(** C10. A tick of a subscription ([sendPowerData]) always answers, and
    a [power-output] event it pushes carries the readings of the first
    25 active turbines named by the subscription and no more, whatever
    the number of identifiers subscribed: [validateLimit(25)] is 25, and
    only those turbines get a reading generated, stored and pushed. *)
Theorem power_output_event_capped (turbineFilter : list string) (s : State) :
  let matching :=
    filter (fun t => active t && existsb (String.eqb (id t)) turbineFilter)
           (wind_turbines s) in
  Pagination.validateLimit 25 Pagination.DEFAULT_LIMIT = 25%Z /\
  exists ops s',
    sendPowerData env turbineFilter s = (Ok ops, s') /\
    forall ts n entries,
      In (res_write_event (power_output ts n entries)) ops ->
      (length entries <= 25)%nat /\ n = length entries /\
      map turbineId entries = map id (firstn 25 matching) /\
      exists rows,
        power_outputs s' = power_outputs s ++ rows /\
        map attr_windTurbineId rows =
        map (fun turbine => Js.JString (id turbine)) (firstn 25 matching).
Proof.
  intros matching. split; [reflexivity|].
  unfold sendPowerData, try_catch.
  change (Pagination.validateLimit 25 Pagination.DEFAULT_LIMIT) with 25%Z.
  erewrite bind_run by reflexivity.
  erewrite bind_run by reflexivity.
  change (Z.to_nat 25) with 25%nat. fold matching.
  destruct (map_M (power_entry env (now env (clock_cursor s))) (firstn 25 matching)
              (set_clock_cursor (S (clock_cursor s)) s))
    as [[entries | error] s1] eqn:Hrun.
  - erewrite bind_run by exact Hrun.
    eexists _, _. split; [reflexivity|].
    intros ts n entries' [Hin | []]. injection Hin as <- <- <-.
    apply power_entries_Ok in Hrun as (Hids & rows & Hrows & Hattrs).
    assert (length entries = length (firstn 25 matching)) as Hlen.
    { rewrite <- (length_map turbineId), Hids. apply length_map. }
    split; [rewrite Hlen, length_firstn; lia|].
    split; [reflexivity|]. split; [exact Hids|].
    exists rows. split; [exact Hrows | exact Hattrs].
  - erewrite bind_throw by exact Hrun.
    eexists _, _. split; [reflexivity|].
    intros ts n entries' [Hin | []]. discriminate Hin.
Qed.

(** *** Subscribing *)

Lemma sendPowerData_total (turbineFilter : list string) (s : State) :
  exists ops s', sendPowerData env turbineFilter s = (Ok ops, s').
Proof.
  unfold sendPowerData, try_catch.
  match goal with |- context [let (_, _) := ?body s in _] =>
    destruct (body s) as [[ops | error] s1] end.
  - eauto.
  - eexists _, _. reflexivity.
Qed.

Lemma keeps_subscriptions_ret {A} (a : A) : keeps_subscriptions (@ret State A a).
Proof. intros s. split; reflexivity. Qed.

Lemma keeps_subscriptions_bind {A B} (c : M State A) (k : A -> M State B) :
  keeps_subscriptions c -> (forall a, keeps_subscriptions (k a)) ->
  keeps_subscriptions (bind c k).
Proof.
  intros Hc Hk s. unfold bind. specialize (Hc s).
  destruct (c s) as [[a | e] s1]; cbn [snd] in *; [|exact Hc].
  destruct (Hk a s1) as [H1 H2]. destruct Hc as [H3 H4].
  split; congruence.
Qed.

Lemma keeps_subscriptions_try {A} (c : M State A) (h : Error -> M State A) :
  keeps_subscriptions c -> (forall e, keeps_subscriptions (h e)) ->
  keeps_subscriptions (try_catch c h).
Proof.
  intros Hc Hh s. unfold try_catch. specialize (Hc s).
  destruct (c s) as [[a | e] s1]; cbn [snd] in *; [exact Hc|].
  destruct (Hh e s1) as [H1 H2]. destruct Hc as [H3 H4].
  split; congruence.
Qed.

Lemma keeps_subscriptions_map_M {A B} (f : A -> M State B) (xs : list A) :
  (forall x, keeps_subscriptions (f x)) -> keeps_subscriptions (map_M f xs).
Proof.
  intros Hf. induction xs as [|x xs IH]; cbn [map_M].
  - apply keeps_subscriptions_ret.
  - apply keeps_subscriptions_bind; [apply Hf | intros y].
    apply keeps_subscriptions_bind; [apply IH | intros ys].
    apply keeps_subscriptions_ret.
Qed.

Lemma keeps_subscriptions_generatePowerOutput wid R ts :
  keeps_subscriptions (generatePowerOutput env wid R ts).
Proof.
  intros s. destruct (generatePowerOutput_run wid R ts s) as (f & rf & te & -> & _).
  split; reflexivity.
Qed.

Lemma keeps_subscriptions_create attrs : keeps_subscriptions (PowerOutput_create env attrs).
Proof.
  intros s. unfold PowerOutput_create.
  destruct (PowerOutput_accepts env attrs); split; reflexivity.
Qed.

Lemma keeps_subscriptions_sendPowerData turbineFilter :
  keeps_subscriptions (sendPowerData env turbineFilter).
Proof.
  unfold sendPowerData. apply keeps_subscriptions_try.
  - apply keeps_subscriptions_bind; [intros s; split; reflexivity | intros turbines].
    apply keeps_subscriptions_bind; [intros s; split; reflexivity | intros ts].
    apply keeps_subscriptions_bind; [|intros; apply keeps_subscriptions_ret].
    apply keeps_subscriptions_map_M. intros turbine. unfold power_entry.
    apply keeps_subscriptions_bind;
      [apply keeps_subscriptions_generatePowerOutput | intros powerData].
    apply keeps_subscriptions_bind;
      [apply keeps_subscriptions_create | intros; apply keeps_subscriptions_ret].
  - intros e. apply keeps_subscriptions_bind;
      [intros s; split; reflexivity | intros; apply keeps_subscriptions_ret].
Qed.

(** What [GET /power-output] checks: no subscription is made exactly
    when [windTurbineIds] names no turbine (a missing or empty
    parameter is answered 400; a parameter of separators only makes the
    handler fail on its second [res.writeHead]); [interval] is not
    looked at, and whatever it parses to becomes the delay of the
    timer. *)
Lemma subscription_validation (query : list (string * string)) (s : State) :
  let turbineFilter := requested_turbines query in
  let interval := requested_interval query in
  exists result s',
    get_power_output env query s = (result, s') /\
    match turbineFilter with
    | [] =>
        sseConnections s' = sseConnections s /\ intervals s' = intervals s /\
        ((exists message,
            result = Ok [res_status_json 400 (error_body "Validation Error" message)]) \/
         result = Throw (mkError "ERR_HTTP_HEADERS_SENT"))
    | _ :: _ =>
        intervals s' =
          intervals s ++ [mkInterval (option_map (fun n => n * 1000)%Z interval)
                                     turbineFilter] /\
        exists connectionId startTime rest,
          sseConnections s' =
            <[connectionId := mkConnection (length (intervals s)) turbineFilter startTime]>
              (sseConnections s) /\
          result = Ok (res_writeHead 200
                       :: res_write_event (connected connectionId interval turbineFilter
                                                     (length turbineFilter))
                       :: rest)
    end.
Proof.
  intros turbineFilter interval. subst turbineFilter interval.
  unfold requested_turbines, requested_interval, get_power_output.
  destruct (QueryNormalizer.normalizeQueryParams query ["windTurbineIds"; "interval"]
              !! "windTurbineIds") as [ids|] eqn:Hids.
  2:{ eexists _, _. split; [reflexivity|].
      split; [reflexivity | split; [reflexivity | left; eexists; reflexivity]]. }
  destruct ids as [|c ids].
  { eexists _, _. split; [reflexivity|].
    split; [reflexivity | split; [reflexivity | left; eexists; reflexivity]]. }
  set (ids' := String c ids) in *.
  erewrite bind_run by reflexivity. erewrite bind_run by reflexivity.
  destruct (filter (fun id => negb (String.eqb id "")) (map Js.trim (Js.split "," ids')))
    as [|t ts] eqn:Hfilter.
  { eexists _, _. split; [reflexivity|].
    split; [reflexivity | split; [reflexivity | right; reflexivity]]. }
  change (length (t :: ts) =? 0)%nat with false. cbv iota.
  erewrite bind_run by reflexivity. erewrite bind_run by reflexivity.
  erewrite bind_run by reflexivity. erewrite bind_run by reflexivity.
  match goal with |- context [bind (sendPowerData env ?f) _ ?s1] =>
    destruct (sendPowerData_total f s1) as (first & s2 & Hsend);
    pose proof (keeps_subscriptions_sendPowerData f s1) as Hkeep
  end.
  rewrite Hsend in Hkeep. cbn [snd] in Hkeep. destruct Hkeep as [Hconn Hint].
  erewrite bind_run by exact Hsend.
  eexists _, _. split; [reflexivity|]. cbn [snd].
  split; [rewrite Hint; reflexivity|].
  eexists _, _, _. split; [rewrite Hconn; reflexivity | reflexivity].
Qed.

(** *** Batch ingest *)

Lemma prop_not_null (reading : Js.JSON) (k : string) :
  reading <> Js.JNull -> Js.prop reading k = Ok (field reading k).
Proof. destruct reading; intros H; try reflexivity. contradiction. Qed.

Section Accepting.

Hypothesis store_accepts : forall attrs, PowerOutput_accepts env attrs = true.

Lemma PowerOutput_create_run attrs (s : State) :
  PowerOutput_create env attrs s =
  (Ok attrs, set_power_outputs (power_outputs s ++ [attrs]) s).
Proof. unfold PowerOutput_create. now rewrite store_accepts. Qed.

Lemma save_reading_run (saved : list PowerOutputAttrs) (reading : Js.JSON) (s : State) :
  reading <> Js.JNull ->
  exists rows s',
    save_reading env saved reading s = (Ok (saved ++ rows), s') /\
    power_outputs s' = power_outputs s ++ rows /\
    map id_and_power rows = match well_formed reading with
                            | Some x => [x]
                            | None => []
                            end.
Proof.
  intros Hnull. unfold save_reading, read, well_formed.
  rewrite !(prop_not_null reading _ Hnull).
  erewrite bind_run by reflexivity. erewrite bind_run by reflexivity.
  assert (forall s0 : State,
            exists s', (Ok saved, s0) = (Ok (saved ++ []), s') /\
                       power_outputs s' = power_outputs s0 ++ [] /\
                       map id_and_power [] = []) as Hskip.
  { intros s0. exists s0. now rewrite !app_nil_r. }
  destruct (field reading "windTurbineId") as [turbine|] eqn:Hid;
    [|exists []; apply Hskip].
  destruct (field reading "powerKW") as [[| | power | | |]|] eqn:Hpower;
    try (destruct (Js.truthy (Some turbine)); exists []; apply Hskip).
  destruct (Js.truthy (Some turbine)) eqn:Htruthy; [|exists []; apply Hskip].
  cbn [negb orb Js.is_number].
  erewrite bind_run by reflexivity.
  assert (exists date s1,
            (match field reading "timestamp" with
             | Some t => if Js.truthy (field reading "timestamp")
                         then ret (Date_of env t) else new_Date env
             | None => new_Date env
             end) s = (Ok date, s1) /\ power_outputs s1 = power_outputs s)
    as (date & s1 & Hdate & Hsame).
  { destruct (field reading "timestamp") as [t|];
      [destruct (Js.truthy (Some t))|]; eexists _, _; split; reflexivity. }
  erewrite bind_run by exact Hdate.
  erewrite bind_run by apply PowerOutput_create_run.
  eexists [_], _. split; [reflexivity|]. cbn. rewrite Hsame. split; reflexivity.
Qed.

Lemma save_readings_run (readings : list Js.JSON) :
  Forall (fun reading => reading <> Js.JNull) readings ->
  forall (saved : list PowerOutputAttrs) (s : State),
  exists rows s',
    save_readings env saved readings s = (Ok (saved ++ rows), s') /\
    power_outputs s' = power_outputs s ++ rows /\
    map id_and_power rows = omap well_formed readings.
Proof.
  induction 1 as [|reading readings Hnull _ IH]; intros saved s; cbn [save_readings].
  - exists [], s. rewrite !app_nil_r. repeat split; reflexivity.
  - destruct (save_reading_run saved reading s Hnull) as (r1 & s1 & Hrun & Hrows & Hmap).
    erewrite bind_run by exact Hrun.
    destruct (IH (saved ++ r1) s1) as (r2 & s2 & Hrest & Hrows2 & Hmap2).
    exists (r1 ++ r2), s2. rewrite app_assoc. split; [exact Hrest|].
    split; [now rewrite Hrows2, Hrows, app_assoc|].
    rewrite map_app, Hmap, Hmap2. cbn.
    destruct (well_formed reading); reflexivity.
Qed.

(** Batch ingest on an array that holds no [null], the store accepting
    the rows: a reading without a turbine id or whose [powerKW] is not
    a number is skipped without rejecting the batch, every well-formed
    reading is stored, in order, with its turbine id and power, and the
    answer is 201 with [savedCount] the number of rows stored and
    [totalReceived] the length of the array. *)
Theorem batch_ingest_counts (fields : list (string * Js.JSON))
    (readings : list Js.JSON) (s : State) :
  Js.assoc "readings" fields = Some (Js.JArray readings) ->
  Forall (fun reading => reading <> Js.JNull) readings ->
  exists rows s',
    post_power_output_batch env (Js.JObject fields) s =
    (Ok (res_status_json 201
           (saved_body "Power readings saved successfully"
                       (length rows) (length readings))), s') /\
    power_outputs s' = power_outputs s ++ rows /\
    map id_and_power rows = omap well_formed readings /\
    length rows = length (filter (fun reading => is_Some (well_formed reading)) readings).
Proof.
  intros Hbody Hobjects.
  destruct (save_readings_run readings Hobjects [] s) as (rows & s' & Hrun & Hrows & Hmap).
  exists rows, s'. unfold post_power_output_batch, try_catch, read.
  cbn [Js.prop]. rewrite Hbody.
  erewrite bind_run by reflexivity. cbv beta iota.
  erewrite bind_run by exact Hrun.
  split; [reflexivity | split; [exact Hrows | split; [exact Hmap|]]].
  rewrite <- (length_map id_and_power), Hmap.
  clear. induction readings as [|reading readings IH]; [reflexivity|].
  cbn [omap list_omap]. fold (omap well_formed readings).
  destruct (well_formed reading) as [x|] eqn:Hwf.
  - rewrite filter_cons_True by (rewrite Hwf; eauto). cbn. now f_equal.
  - rewrite filter_cons_False by (rewrite Hwf; apply is_Some_None). exact IH.
Qed.

End Accepting.

End Generation.

End ApiFacts.

(** ** Normal readings and the time factor, in both generation paths *)

(** C1. For a turbine of rated capacity [R >= 0], every normal
    (non-outlier) reading has [0 <= powerKW <= 1.2 R] with two decimals,
    in the simulator ([Simulator.generatePowerOutput]) and in the SSE
    path of the API server ([Api.generatePowerOutput], which has no
    outliers); both generators return a reading. *)
Theorem normal_reading_bounds (R : Z) :
  (0 <= R)%Z ->
  (forall (env : Simulator.Env) (OUTLIER_CHANCE : Z) (turbine : Simulator.Turbine)
          (timestamp : Date) (s : Simulator.State),
     Simulator.ratedCapacityKW turbine = R ->
     (forall r s',
        Simulator.generatePowerOutput env OUTLIER_CHANCE turbine timestamp s = (Ok r, s') ->
        Simulator.outlier r = false ->
        0 <= Simulator.powerKW r /\ Simulator.powerKW r <= 1.2 * inject_Z R /\
        two_decimals (Simulator.powerKW r)) /\
     (in_unit_interval (Simulator.Math_random env) ->
      exists r s',
        Simulator.generatePowerOutput env OUTLIER_CHANCE turbine timestamp s = (Ok r, s')))
  /\
  (forall (env : Api.Env) (windTurbineId : string) (timestamp : Date) (s : Api.State),
     exists p s',
       Api.generatePowerOutput env windTurbineId R timestamp s = (Ok p, s') /\
       0 <= Api.powerKW p /\ Api.powerKW p <= 1.2 * inject_Z R /\
       two_decimals (Api.powerKW p)).
Proof.
  intros HR. split.
  - intros env chance turbine ts s <-. split.
    + intros r s' Hrun Hnormal.
      destruct (SimulatorFacts.normal_reading_shape env chance turbine ts s r s'
                  Hrun Hnormal) as (tf & w & u & u' & _ & ->).
      destruct (clamp_round2 (Simulator.ratedCapacityKW turbine)
                  (inject_Z (Simulator.ratedCapacityKW turbine)
                   * (tf * w * (0.8 + u * 0.4)) * (0.85 + u' * 0.3)) HR).
      repeat split; [assumption | assumption | apply round2_two_decimals].
    + intros Hunit. now apply SimulatorFacts.generatePowerOutput_total.
  - intros env wid ts s.
    destruct (ApiFacts.generatePowerOutput_run env wid R ts s)
      as (f & rf & te & Hrun & _).
    eexists _, _. split; [exact Hrun|]. cbn [Api.powerKW].
    destruct (clamp_round2 R (inject_Z R * f * rf * te) HR).
    repeat split; [assumption | assumption | apply round2_two_decimals].
Qed.

Lemma half_in_unit_interval : in_unit_interval (fun _ => 0.5).
Proof. intros n. split; [discriminate | reflexivity]. Defined.

(** C1 at one input per path: a turbine of 1500 kW. *)
Lemma normal_reading_bounds_witness :
  (exists r s',
     Simulator.generatePowerOutput sim_env_half 0 (Simulator.mkTurbine "T1" 1500)
       (mkDate 12 0) sim_idle = (Ok r, s') /\
     0 <= Simulator.powerKW r /\ Simulator.powerKW r <= 1.2 * inject_Z 1500) /\
  (exists p s',
     Api.generatePowerOutput (api_env 0.5) "T1" 1500 (mkDate 12 0) (api_empty [])
     = (Ok p, s') /\
     0 <= Api.powerKW p /\ Api.powerKW p <= 1.2 * inject_Z 1500).
Proof.
  destruct (normal_reading_bounds 1500) as [Hsim Hapi]; [lia|].
  split.
  - destruct (Hsim sim_env_half 0%Z (Simulator.mkTurbine "T1" 1500) (mkDate 12 0)
                   sim_idle eq_refl) as [Hbounds Htotal].
    destruct (Htotal half_in_unit_interval) as (r & s' & Hrun).
    exists r, s'. split; [exact Hrun|].
    assert (Simulator.outlier r = false) as Hnormal.
    { vm_compute in Hrun. injection Hrun as <- _. reflexivity. }
    destruct (Hbounds r s' Hrun Hnormal) as (H0 & H1 & _). now split.
  - destruct (Hapi (api_env 0.5) "T1"%string (mkDate 12 0) (api_empty []))
      as (p & s' & Hrun & H0 & H1 & _).
    exists p, s'. repeat split; assumption.
Defined.

(** C6, counterexample: in the SSE path the factor of a reading stamped
    23:00 is 0.7 for one draw and 0.85 for another, so it is neither 1.2
    nor a single value for the band. *)
Lemma time_factor_counterexample :
  (exists f g,
     fst (Api.draw_windStrengthFactor (api_env 0) 23 (api_empty [])) = Ok f /\
     fst (Api.draw_windStrengthFactor (api_env 0.5) 23 (api_empty [])) = Ok g /\
     f == 0.7 /\ g == 0.85) /\
  ~ (forall (env : Api.Env) (hour : Z) (s : Api.State) (f : Q),
       (22 <= hour \/ hour <= 6)%Z ->
       fst (Api.draw_windStrengthFactor env hour s) = Ok f -> f == 1.2).
Proof.
  split.
  - eexists _, _. repeat split; reflexivity.
  - intros H.
    assert (22 <= 23 \/ 23 <= 6)%Z as Hnight by lia.
    specialize (H (api_env 0) 23%Z (api_empty []) _ Hnight eq_refl).
    discriminate H.
Qed.

(** A normal reading of the simulator with each of its factors named:
    the time factor is what [getTimeBasedWindFactor] returns in the
    state left by the outlier decision, the weather factor is what the
    tick that follows returns, and the variation and the efficiency
    come from the two draws after that tick. *)
Lemma simulator_reading_factors (env : Simulator.Env) (OUTLIER_CHANCE : Z)
    (turbine : Simulator.Turbine) (timestamp : Date) (s : Simulator.State) r s' :
  Simulator.generatePowerOutput env OUTLIER_CHANCE turbine timestamp s = (Ok r, s') ->
  Simulator.outlier r = false ->
  let R := inject_Z (Simulator.ratedCapacityKW turbine) in
  let s0 := if (OUTLIER_CHANCE >? 0)%Z
            then Simulator.set_random_cursor (S (Simulator.random_cursor s)) s
            else s in
  let s1 := Simulator.set_clock_cursor (S (Simulator.clock_cursor s0)) s0 in
  exists timeFactor weather s2,
    Simulator.getTimeBasedWindFactor env s0 = (Ok timeFactor, s1) /\
    SimulatorSpec.time_band (getHours (Simulator.now env (Simulator.clock_cursor s)))
                            timeFactor /\
    Simulator.simulateWeatherEvents env s1 = (Ok weather, s2) /\
    Simulator.powerKW r =
    round2 (Math_max 0
              (Math_min (R * (timeFactor * weather
                              * (0.8 + Simulator.Math_random env
                                         (Simulator.random_cursor s2) * 0.4))
                         * (0.85 + Simulator.Math_random env
                                     (S (Simulator.random_cursor s2)) * 0.3))
                        (R * 1.2))).
Proof.
  intros Hrun Hnormal R s0 s1. unfold Simulator.generatePowerOutput in Hrun.
  assert (exists is_outlier,
            (if (OUTLIER_CHANCE >? 0)%Z
             then let! u := Simulator.random env in
                  ret (Qltb (u * 100) (inject_Z OUTLIER_CHANCE))
             else ret false) s = (Ok is_outlier, s0) /\
            Simulator.clock_cursor s0 = Simulator.clock_cursor s)
    as (is_outlier & Hdecision & Hclock).
  { subst s0. destruct (OUTLIER_CHANCE >? 0)%Z; eexists; split; reflexivity. }
  rewrite (bind_run _ _ _ _ _ Hdecision) in Hrun.
  destruct is_outlier.
  { apply (SimulatorFacts.generateOutlierReading_outlier env) in Hrun. congruence. }
  destruct (SimulatorFacts.getTimeBasedWindFactor_band env s0) as (f & Hf & Hband).
  rewrite (bind_run _ _ _ _ _ Hf) in Hrun. fold s1 in Hrun, Hf.
  invert_bind Hrun. do 2 invert_bind Hrun.
  injection Hstep0 as <- <-. injection Hstep1 as <- _. injection Hrun as <- _.
  rewrite Hclock in Hband.
  exists f, a, s2. split; [exact Hf|]. split; [exact Hband|]. split; [exact Hstep|].
  reflexivity.
Qed.

(** The three draws of a reading of the SSE path: the wind strength is
    the first draw of faker's generator scaled into the range of the
    band of the hour, the random factor and the efficiency are the two
    draws that follow, scaled into [[0.8,1.2)] and [[0.85,1.15)]. *)
Lemma api_reading_factors (env : Api.Env) (windTurbineId : string) (R : Z)
    (timestamp : Date) (s : Api.State) :
  let hour := getHours timestamp in
  let draw k := Api.faker_real env (k + Api.faker_cursor s) in
  exists windStrength p s',
    Api.generatePowerOutput env windTurbineId R timestamp s = (Ok p, s') /\
    Api.draw_windStrengthFactor env hour s =
      (Ok windStrength, Api.set_faker_cursor (S (Api.faker_cursor s)) s) /\
    ((22 <= hour \/ hour <= 6)%Z -> windStrength = draw 0%nat * (1.0 - 0.7) + 0.7) /\
    ((10 <= hour /\ hour <= 16)%Z -> windStrength = draw 0%nat * (0.7 - 0.3) + 0.3) /\
    ((6 < hour /\ hour < 10 \/ 16 < hour /\ hour < 22)%Z ->
     windStrength = draw 0%nat * (0.9 - 0.5) + 0.5) /\
    Api.powerKW p =
    round2 (Math_max 0
              (Math_min (inject_Z R * windStrength
                         * (draw 1%nat * (1.2 - 0.8) + 0.8)
                         * (draw 2%nat * (1.15 - 0.85) + 0.85))
                        (inject_Z R * 1.2))).
Proof.
  intros hour draw. subst draw. cbn [Nat.add].
  unfold Api.generatePowerOutput. fold hour.
  assert (exists windStrength,
            Api.draw_windStrengthFactor env hour s =
              (Ok windStrength, Api.set_faker_cursor (S (Api.faker_cursor s)) s) /\
            ((22 <= hour \/ hour <= 6)%Z ->
             windStrength = Api.faker_real env (Api.faker_cursor s) * (1.0 - 0.7) + 0.7) /\
            ((10 <= hour /\ hour <= 16)%Z ->
             windStrength = Api.faker_real env (Api.faker_cursor s) * (0.7 - 0.3) + 0.3) /\
            ((6 < hour /\ hour < 10 \/ 16 < hour /\ hour < 22)%Z ->
             windStrength = Api.faker_real env (Api.faker_cursor s) * (0.9 - 0.5) + 0.5))
    as (windStrength & Hdraw & Hnight & Hnoon & Hday).
  { unfold Api.draw_windStrengthFactor.
    destruct ((hour >=? 22) || (hour <=? 6))%Z eqn:En;
      [|destruct ((hour >=? 10) && (hour <=? 16))%Z eqn:Em].
    - eexists. split; [reflexivity|]. apply orb_true_iff in En.
      rewrite Z.geb_le, Z.leb_le in En.
      split; [reflexivity | split; intros; lia].
    - eexists. split; [reflexivity|]. apply andb_true_iff in Em.
      rewrite Z.geb_le, Z.leb_le in Em.
      split; [|split]; intros; [lia | reflexivity | lia].
    - eexists. split; [reflexivity|]. apply orb_false_iff in En.
      apply andb_false_iff in Em. rewrite !Z.geb_leb, !Z.leb_gt in *.
      split; [|split]; intros; [lia | lia | reflexivity]. }
  erewrite bind_run by exact Hdraw.
  erewrite bind_run by apply ApiFacts.faker_number_float_run.
  erewrite bind_run by apply ApiFacts.faker_number_float_run.
  exists windStrength. eexists _, _. split; [reflexivity|]. split; [exact Hdraw|].
  split; [exact Hnight|]. split; [exact Hnoon|]. split; [exact Hday|]. reflexivity.
Qed.

(** C6, amended.  In the simulator the time factor of a normal reading
    generated in the clock hour of its timestamp is a single value per
    band of that hour: 1.2 when the hour is at least 22 or at most 6,
    0.6 when it is from 10 to 16 and 0.9 otherwise.  It is the value
    that [getTimeBasedWindFactor] returns, and the reading is the rated
    capacity scaled by it, by the weather factor of the tick that
    follows and by the two draws after that tick, clamped and rounded.
    In the SSE path of the API server the factor is not a single value:
    it is the first draw of the reading scaled into [[0.7,1.0)],
    [[0.3,0.7)] and [[0.5,0.9)] for the same bands of the timestamp's
    hour, and the reading is the rated capacity scaled by it and by the
    two draws that follow, clamped and rounded. *)
Theorem time_factor_by_path :
  (forall (env : Simulator.Env) (OUTLIER_CHANCE : Z) (turbine : Simulator.Turbine)
          (timestamp : Date) (s : Simulator.State) r s',
     Simulator.generatePowerOutput env OUTLIER_CHANCE turbine timestamp s = (Ok r, s') ->
     Simulator.outlier r = false ->
     getHours (Simulator.now env (Simulator.clock_cursor s)) = getHours timestamp ->
     let hour := getHours timestamp in
     let R := inject_Z (Simulator.ratedCapacityKW turbine) in
     let s0 := if (OUTLIER_CHANCE >? 0)%Z
               then Simulator.set_random_cursor (S (Simulator.random_cursor s)) s
               else s in
     let s1 := Simulator.set_clock_cursor (S (Simulator.clock_cursor s0)) s0 in
     exists timeFactor weather s2,
       Simulator.getTimeBasedWindFactor env s0 = (Ok timeFactor, s1) /\
       ((22 <= hour \/ hour <= 6)%Z -> timeFactor = 1.2) /\
       ((10 <= hour /\ hour <= 16)%Z -> timeFactor = 0.6) /\
       ((6 < hour /\ hour < 10 \/ 16 < hour /\ hour < 22)%Z -> timeFactor = 0.9) /\
       Simulator.simulateWeatherEvents env s1 = (Ok weather, s2) /\
       Simulator.powerKW r =
       round2 (Math_max 0
                 (Math_min (R * (timeFactor * weather
                                 * (0.8 + Simulator.Math_random env
                                            (Simulator.random_cursor s2) * 0.4))
                            * (0.85 + Simulator.Math_random env
                                        (S (Simulator.random_cursor s2)) * 0.3))
                           (R * 1.2))))
  /\
  (forall (env : Api.Env) (windTurbineId : string) (R : Z) (timestamp : Date)
          (s : Api.State),
     in_unit_interval (Api.faker_real env) ->
     let hour := getHours timestamp in
     let draw k := Api.faker_real env (k + Api.faker_cursor s) in
     exists windStrength p s',
       Api.generatePowerOutput env windTurbineId R timestamp s = (Ok p, s') /\
       Api.draw_windStrengthFactor env hour s =
         (Ok windStrength, Api.set_faker_cursor (S (Api.faker_cursor s)) s) /\
       ((22 <= hour \/ hour <= 6)%Z ->
        windStrength = draw 0%nat * (1.0 - 0.7) + 0.7 /\
        0.7 <= windStrength /\ windStrength < 1.0) /\
       ((10 <= hour /\ hour <= 16)%Z ->
        windStrength = draw 0%nat * (0.7 - 0.3) + 0.3 /\
        0.3 <= windStrength /\ windStrength < 0.7) /\
       ((6 < hour /\ hour < 10 \/ 16 < hour /\ hour < 22)%Z ->
        windStrength = draw 0%nat * (0.9 - 0.5) + 0.5 /\
        0.5 <= windStrength /\ windStrength < 0.9) /\
       Api.powerKW p =
       round2 (Math_max 0
                 (Math_min (inject_Z R * windStrength
                            * (draw 1%nat * (1.2 - 0.8) + 0.8)
                            * (draw 2%nat * (1.15 - 0.85) + 0.85))
                           (inject_Z R * 1.2)))).
Proof.
  split.
  - intros env chance turbine ts s r s' Hrun Hnormal Hhour hour R s0 s1.
    destruct (simulator_reading_factors env chance turbine ts s r s' Hrun Hnormal)
      as (tf & w & s2 & Hf & (Ha & Hb & Hc) & Hw & Hp).
    rewrite Hhour in Ha, Hb, Hc. exists tf, w, s2.
    split; [exact Hf|]. split; [exact Ha|]. split; [exact Hb|]. split; [exact Hc|].
    split; [exact Hw | exact Hp].
  - intros env wid R ts s Hunit hour draw.
    destruct (api_reading_factors env wid R ts s)
      as (f & p & s' & Hrun & Hdraw & Ha & Hb & Hc & Hp).
    destruct (Hunit (Api.faker_cursor s)) as [Hu0 Hu1].
    exists f, p, s'. split; [exact Hrun|]. split; [exact Hdraw|].
    split; [|split; [|split; [|exact Hp]]].
    + intros H. specialize (Ha H). split; [exact Ha|]. rewrite Ha. cbn [Nat.add].
      split; lra.
    + intros H. specialize (Hb H). split; [exact Hb|]. rewrite Hb. cbn [Nat.add].
      split; lra.
    + intros H. specialize (Hc H). split; [exact Hc|]. rewrite Hc. cbn [Nat.add].
      split; lra.
Qed.

(** C6 at one input per path: a reading generated at noon by the
    simulator in calm weather has the time factor 0.6, and one stamped
    23:00 in the SSE path has the wind strength of its first draw, 0.85
    for a draw of one half. *)
Lemma time_factor_by_path_witness :
  (exists r s',
     Simulator.generatePowerOutput sim_env_half 0 (Simulator.mkTurbine "T1" 1500)
       (mkDate 12 0) sim_idle = (Ok r, s') /\
     Simulator.powerKW r =
     round2 (Math_max 0
               (Math_min (inject_Z 1500 * (0.6 * 1.0 * (0.8 + 0.5 * 0.4))
                          * (0.85 + 0.5 * 0.3))
                         (inject_Z 1500 * 1.2)))) /\
  (exists windStrength,
     Api.draw_windStrengthFactor (api_env 0.5) 23 (api_empty []) =
       (Ok windStrength, Api.set_faker_cursor 1 (api_empty [])) /\
     windStrength = 0.5 * (1.0 - 0.7) + 0.7 /\
     0.7 <= windStrength /\ windStrength < 1.0).
Proof.
  destruct time_factor_by_path as [Hsim Hapi]. split.
  - destruct (SimulatorFacts.generatePowerOutput_total sim_env_half 0
                half_in_unit_interval (Simulator.mkTurbine "T1" 1500) (mkDate 12 0)
                sim_idle) as (r & s' & Hrun).
    assert (Simulator.outlier r = false) as Hnormal.
    { vm_compute in Hrun. injection Hrun as <- _. reflexivity. }
    destruct (Hsim sim_env_half 0%Z (Simulator.mkTurbine "T1" 1500) (mkDate 12 0)
                   sim_idle r s' Hrun Hnormal eq_refl)
      as (tf & w & s2 & _ & _ & Hnoon & _ & Hw & Hp).
    exists r, s'. split; [exact Hrun|].
    assert (tf = 0.6) as -> by (apply Hnoon; cbn; lia).
    vm_compute in Hw. injection Hw as <- <-. exact Hp.
  - destruct (Hapi (api_env 0.5) "T1"%string 1500%Z (mkDate 23 0) (api_empty [])
                   half_in_unit_interval)
      as (f & _ & _ & _ & Hdraw & Hnight & _).
    exists f. split; [exact Hdraw|]. apply Hnight. cbn. lia.
Defined.

(** ** Concrete runs of the simulator *)

(** C2, at the failing input: one batch of two turbines.  With a storm
    that has five cycles left, the batch leaves three: the tick ran
    twice in one cycle.  With a storm that has one cycle left, the first
    reading is generated under the storm (180 kW of 1500) and the second
    one after it has ended (900 kW): two weather factors in one cycle. *)
Theorem weather_tick_runs_per_turbine :
  Simulator.weatherEventDuration (snd (generate_batch two_turbines (storm_state 5)))
  = 3%Z /\
  fst (generate_batch two_turbines (storm_state 1)) =
  Ok [Simulator.mkReading "T1" 180.00 (mkDate 12 0) false None;
      Simulator.mkReading "T2" 900.00 (mkDate 12 0) false None].
Proof. split; vm_compute; reflexivity. Qed.

(** C5 at one input: the draw 0.5 picks extremely_high. *)
Lemma outlier_reading_shapes_witness :
  exists r s',
    Simulator.generateOutlierReading sim_env_half (Simulator.mkTurbine "T1" 1500)
      (mkDate 12 0) sim_idle = (Ok r, s') /\
    Simulator.outlierType r = Some "extremely_high"%string /\
    2 * inject_Z 1500 <= Simulator.powerKW r /\
    Simulator.powerKW r <= 5 * inject_Z 1500.
Proof.
  destruct (SimulatorFacts.outlier_reading_shapes sim_env_half half_in_unit_interval
              (Simulator.mkTurbine "T1" 1500) (mkDate 12 0) sim_idle)
    as (r & s' & i & shape & Hrun & _ & _ & _ & _ & Htype & _ & _ & Hhigh & _);
    [cbn; lia|].
  assert (shape = "extremely_high"%string) as Hshape.
  { vm_compute in Hrun. injection Hrun as <- _. cbn in Htype. congruence. }
  exists r, s'. split; [exact Hrun | split; [congruence | apply Hhigh, Hshape]].
Defined.

(** C9, counterexample: with the default interval of 10 s and a submit
    that fails, the error is logged and the next pass is armed after
    10 000 ms, not 30 000 ms. *)
Lemma submit_failure_counterexample :
  let s' := snd (Simulator.runSimulation sim_env_half 0 10
                   (Ok [Simulator.mkTurbine "T1" 1500]) refused sim_idle) in
  SimulatorSpec.console_errors (Simulator.trace s') =
    [[Str "Error sending batch:"; Str "connect ECONNREFUSED"]] /\
  SimulatorSpec.timeouts (Simulator.trace s') = [10000%Z] /\
  SimulatorSpec.timeouts (Simulator.trace s') <> [30000%Z].
Proof. vm_compute. repeat split; discriminate. Qed.

(** After a failed fetch the code logs "Retrying in 30 seconds..." and
    arms the next pass after [STREAMING_INTERVAL] seconds. *)
Lemma fetch_failure_delay :
  let s' := snd (Simulator.runSimulation sim_env_half 0 10
                   (Throw (mkError "connect ECONNREFUSED")) refused sim_idle) in
  Simulator.trace s' =
    [Simulator.Console (console_log [Str "Fetching active turbines..."]);
     Simulator.Console (console_error [Str "Simulation error:";
                                       Str "connect ECONNREFUSED"]);
     Simulator.Console (console_log [Str "Retrying in 30 seconds..."]);
     Simulator.SetTimeout_runSimulation 10000].
Proof. reflexivity. Qed.

(** The simulator takes the hour from the clock: a reading stamped
    03:00 and generated at noon gets the midday factor 0.6 (900 kW of
    1500), not the night factor. *)
Lemma time_factor_reads_the_clock :
  fst (Simulator.generatePowerOutput sim_env_half 0 (Simulator.mkTurbine "T1" 1500)
         (mkDate 3 0) sim_idle)
  = Ok (Simulator.mkReading "T1" 900.00 (mkDate 3 0) false None).
Proof. vm_compute. reflexivity. Qed.

(** C9 at one input: an empty list of turbines. *)
Lemma runSimulation_reschedules_witness :
  exists s' tr,
    Simulator.runSimulation sim_env_half 0 10 (Ok []) refused sim_idle = (Ok tt, s') /\
    Simulator.trace s' = Simulator.trace sim_idle ++ tr /\
    SimulatorSpec.timeouts tr = [30000%Z].
Proof.
  destruct (SimulatorFacts.runSimulation_reschedules sim_env_half 0
              half_in_unit_interval 10 (Ok []) refused sim_idle)
    as (s' & tr & Hrun & Htr & Ht & _).
  exists s', tr. repeat split; assumption.
Defined.

(** ** Concrete requests to the API server *)

(** C7, at failing inputs: an interval of 0, of 1000 seconds or one
    that is not a number is accepted; the stream is opened with a
    [connected] event, the timer is armed with that delay and the
    connection is registered. *)
Theorem subscribe_accepts_any_interval :
  (Api.intervals (snd (subscribe "0")) = [Api.mkInterval (Some 0%Z) ["T1"%string]] /\
   is_Some (Api.sseConnections (snd (subscribe "0")) !! "c1"%string) /\
   exists rest,
     fst (subscribe "0") =
     Ok (Api.res_writeHead 200
         :: Api.res_write_event (Api.connected "c1" (Some 0%Z) ["T1"%string] 1)
         :: rest)) /\
  Api.intervals (snd (subscribe "1000")) = [Api.mkInterval (Some 1000000%Z) ["T1"%string]] /\
  Api.intervals (snd (subscribe "soon")) = [Api.mkInterval None ["T1"%string]].
Proof.
  repeat split; try (vm_compute; reflexivity).
  - vm_compute. eauto.
  - eexists. vm_compute. reflexivity.
Qed.

(** The scenario of the batch-ingest contract: one reading saved out of
    two received. *)
Lemma batch_ingest_counts_witness :
  exists s',
    Api.post_power_output_batch (api_env 0.5)
      (Js.JObject [("readings"%string, Js.JArray scenario_readings)])
      (api_empty [turbine_T1]) =
    (Ok (Api.res_status_json 201
           (Api.saved_body "Power readings saved successfully" 1 2)), s') /\
    map ApiSpec.id_and_power (Api.power_outputs s') = [(Js.JString "T1", 500)].
Proof.
  destruct (ApiFacts.batch_ingest_counts (api_env 0.5) (fun _ => eq_refl)
              [("readings"%string, Js.JArray scenario_readings)] scenario_readings
              (api_empty [turbine_T1]) eq_refl)
    as (rows & s' & Hrun & Hrows & Hmap & Hlen).
  { repeat constructor; discriminate. }
  exists s'. cbn in Hlen. rewrite Hlen in Hrun. split; [exact Hrun|].
  rewrite Hrows. exact Hmap.
Defined.

(** C8, at the failing input: a batch whose second element is [null].
    The element is not skipped: reading its [windTurbineId] throws, so
    the route answers 500 for the whole batch instead of 201 with two
    readings saved out of three; the first reading stays stored and the
    third, well-formed, is never saved. *)
Theorem batch_null_reading_rejects_batch :
  let request :=
    Js.JObject [("readings"%string,
                 Js.JArray [reading_of "T1" 500; Js.JNull; reading_of "T1" 600])] in
  let outcome :=
    Api.post_power_output_batch (api_env 0.5) request (api_empty [turbine_T1]) in
  fst outcome =
    Ok (Api.res_status_json 500
          (Api.error_body "Internal Server Error" "Failed to save power readings")) /\
  fst outcome <>
    Ok (Api.res_status_json 201
          (Api.saved_body "Power readings saved successfully" 2 3)) /\
  map ApiSpec.id_and_power (Api.power_outputs (snd outcome)) = [(Js.JString "T1", 500)] /\
  omap ApiSpec.well_formed [reading_of "T1" 500; Js.JNull; reading_of "T1" 600] =
    [(Js.JString "T1", 500); (Js.JString "T1", 600)].
Proof.
  cbv zeta. split; [vm_compute; reflexivity|].
  split; [vm_compute; discriminate|].
  split; vm_compute; reflexivity.
Qed.

(** * Further properties *)

(** ** Batching and the submitted readings *)

Module BatchingFacts.

Import Simulator WeatherModel WeatherSteps SimulatorSpec.

Lemma batches_of_concat {A} (fuel : nat) : forall turbines : list A,
  (length turbines <= fuel)%nat -> concat (batches_of fuel turbines) = turbines.
Proof.
  induction fuel as [|fuel IH]; intros [|t turbines] Hlen; try reflexivity.
  - cbn in Hlen. lia.
  - cbn [batches_of concat]. rewrite IH.
    + apply firstn_skipn.
    + rewrite length_skipn. unfold BATCH_SIZE. cbn [length] in *. lia.
Qed.

Lemma batches_of_sizes {A} (fuel : nat) : forall turbines : list A,
  (length turbines <= fuel)%nat ->
  Forall (fun batch => (1 <= length batch <= 20)%nat) (batches_of fuel turbines).
Proof.
  induction fuel as [|fuel IH]; intros [|t turbines] Hlen; try constructor.
  - rewrite length_firstn. unfold BATCH_SIZE. cbn [length]. lia.
  - apply IH. rewrite length_skipn. unfold BATCH_SIZE. cbn [length] in *. lia.
Qed.

Lemma batches_of_count {A} (fuel : nat) : forall turbines : list A,
  (length turbines <= fuel)%nat ->
  length (batches_of fuel turbines) = ((length turbines + 19) / 20)%nat.
Proof.
  induction fuel as [|fuel IH]; intros [|t turbines] Hlen; try reflexivity.
  - cbn in Hlen. lia.
  - cbn [batches_of length]. rewrite IH.
    + rewrite length_skipn. unfold BATCH_SIZE. cbn [length].
      destruct (Nat.le_gt_cases (S (length turbines)) 20) as [Hsmall | Hbig].
      * replace (S (length turbines) - 20)%nat with 0%nat by lia.
        rewrite (Nat.div_small (0 + 19) 20) by lia.
        assert (1 <= (S (length turbines) + 19) / 20 < 2)%nat; [|lia].
        split; [apply Nat.div_le_lower_bound | apply Nat.Div0.div_lt_upper_bound]; lia.
      * replace (S (length turbines) + 19)%nat
          with ((S (length turbines) - 20 + 19) + 1 * 20)%nat by lia.
        rewrite Nat.div_add by lia. lia.
    + rewrite length_skipn. unfold BATCH_SIZE. cbn [length] in *. lia.
Qed.

(** The batches of one pass: every fetched turbine is in exactly one
    batch, in order; a batch holds from 1 to 20 turbines; there are
    ceil(n / 20) of them. *)
Theorem batches_partition {A} (turbines : list A) :
  let batches := batches_of (length turbines) turbines in
  concat batches = turbines /\
  Forall (fun batch => (1 <= length batch <= 20)%nat) batches /\
  length batches = ((length turbines + 19) / 20)%nat.
Proof.
  cbv zeta. split; [|split].
  - now apply batches_of_concat.
  - now apply batches_of_sizes.
  - now apply batches_of_count.
Qed.

End BatchingFacts.

(** ** The readings of one pass of the simulator *)

Module PassFacts.

Import Simulator WeatherModel WeatherSteps SimulatorSpec.

Section Pass.

Variable env : Env.
Variable OUTLIER_CHANCE : Z.
Hypothesis random_ok : in_unit_interval (Math_random env).

Lemma generatePowerOutput_stamp turbine ts s r s' :
  generatePowerOutput env OUTLIER_CHANCE turbine ts s = (Ok r, s') ->
  windTurbineId r = id turbine /\ timestamp r = ts.
Proof.
  unfold generatePowerOutput. intros H. invert_bind H. destruct a.
  - unfold generateOutlierReading in H. invert_bind H.
    destruct (js_index _ _) as [sel|]; [|discriminate].
    do 2 invert_bind H. injection H as <- _. split; reflexivity.
  - do 4 invert_bind H. injection H as <- _. split; reflexivity.
Qed.

Lemma map_generatePowerOutput_stamp ts (batch : list Turbine) :
  forall s readings s',
    map_M (fun turbine => generatePowerOutput env OUTLIER_CHANCE turbine ts) batch s
    = (Ok readings, s') ->
    map windTurbineId readings = map id batch /\
    Forall (fun r => timestamp r = ts) readings.
Proof.
  induction batch as [|turbine batch IH]; intros s readings s' H; cbn [map_M] in H.
  - injection H as <- _. split; constructor.
  - do 2 invert_bind H. injection H as <- _.
    apply generatePowerOutput_stamp in Hstep as [Hid Hts].
    apply IH in Hstep0 as [Hids Htss]. cbn [map]. split.
    + now rewrite Hid, Hids.
    + now constructor.
Qed.

Section Loop.

Variable STREAMING_INTERVAL : Z.
Variable http_post_batch : list Reading -> Res BatchResponse.

Lemma process_batch_posts (batch : list Turbine) (s : State) :
  exists s' tr readings,
    process_batch env OUTLIER_CHANCE http_post_batch batch s = (Ok tt, s') /\
    trace s' = trace s ++ tr /\ timeouts tr = [] /\ posts tr = [readings] /\
    map windTurbineId readings = map id batch /\
    Forall (fun r => timestamp r = now env (clock_cursor s)) readings.
Proof.
  unfold process_batch.
  erewrite bind_run by reflexivity.
  set (ts := now env (clock_cursor s)).
  set (s0 := set_clock_cursor (S (clock_cursor s)) s).
  destruct (SimulatorFacts.map_generatePowerOutput_total
              env OUTLIER_CHANCE random_ok ts batch s0) as (readings & s1 & Hmap).
  pose proof (SimulatorFacts.quiet_map_M
                (fun turbine => generatePowerOutput env OUTLIER_CHANCE turbine ts) batch
                (fun turbine =>
                   SimulatorFacts.quiet_generatePowerOutput env OUTLIER_CHANCE turbine ts)
                s0) as Hquiet.
  rewrite Hmap in Hquiet. destruct Hquiet as (pre & Hpre & Hlogs).
  cbn [snd] in Hpre. change (trace s0) with (trace s) in Hpre.
  destruct (SimulatorFacts.logs_silent pre Hlogs) as (Ht & He & Hp).
  destruct (map_generatePowerOutput_stamp ts batch s0 readings s1 Hmap) as [Hids Hts].
  erewrite bind_run by exact Hmap.
  unfold try_catch, sendPowerReadings, bind, log, log_error, emit, modify.
  destruct (http_post_batch readings) as [result | error] eqn:Hpost.
  - eexists _, (pre ++ [Http_post_batch readings; _; Await_timeout 1000]), readings.
    split; [reflexivity|]. cbn [trace push_effect]. rewrite Hpre.
    split; [now rewrite <- !app_assoc|].
    unfold timeouts, posts in *. rewrite !omap_app, Ht, Hp. cbn. auto.
  - eexists _, (pre ++ [Http_post_batch readings; _; Await_timeout 1000]), readings.
    split; [reflexivity|]. cbn [trace push_effect]. rewrite Hpre.
    split; [now rewrite <- !app_assoc|].
    unfold timeouts, posts in *. rewrite !omap_app, Ht, Hp. cbn. auto.
Qed.

Lemma for_of_batches_posts (batches : list (list Turbine)) : forall s : State,
  exists s' tr,
    for_of batches (process_batch env OUTLIER_CHANCE http_post_batch) s = (Ok tt, s') /\
    trace s' = trace s ++ tr /\ timeouts tr = [] /\
    map (map windTurbineId) (posts tr) = map (map id) batches /\
    Forall (fun post => exists ts, Forall (fun r => timestamp r = ts) post) (posts tr).
Proof.
  induction batches as [|batch batches IH]; intros s; cbn [for_of].
  - exists s, []. split; [reflexivity|]. split; [now rewrite app_nil_r|].
    repeat split. constructor.
  - destruct (process_batch_posts batch s)
      as (s1 & t1 & readings & Hrun & Ht1 & Hq1 & Hp1 & Hids & Hts).
    erewrite bind_run by exact Hrun.
    destruct (IH s1) as (s2 & t2 & Hrest & Ht2 & Hq2 & Hp2 & Hts2).
    exists s2, (t1 ++ t2). split; [exact Hrest|].
    split; [now rewrite Ht2, Ht1, app_assoc|].
    unfold timeouts in *. rewrite omap_app, Hq1, Hq2.
    split; [reflexivity|].
    rewrite SimulatorFacts.posts_app, Hp1. cbn [app map].
    split; [now rewrite Hids, Hp2|].
    constructor; [eauto | exact Hts2].
Qed.

(** One pass over a fetched list of turbines never raises and submits
    exactly one reading per fetched turbine, in the order of the list,
    whether the submits succeed or fail: the submitted batches hold at
    most 20 readings each, the readings of one batch share one
    timestamp, and the next pass is armed after [STREAMING_INTERVAL]
    seconds when the list is not empty. *)
Theorem pass_submits_each_turbine_once (turbines : list Turbine) (s : State) :
  exists s' tr,
    runSimulation env OUTLIER_CHANCE STREAMING_INTERVAL (Ok turbines)
                  http_post_batch s = (Ok tt, s') /\
    trace s' = trace s ++ tr /\
    map windTurbineId (concat (posts tr)) = map id turbines /\
    Forall (fun post => (1 <= length post <= 20)%nat /\
                        exists ts, Forall (fun r => timestamp r = ts) post)
           (posts tr) /\
    (turbines <> [] -> timeouts tr = [(STREAMING_INTERVAL * 1000)%Z]).
Proof.
  unfold runSimulation, fetchActiveTurbines.
  destruct turbines as [|turbine turbines].
  - eexists _, _. split; [reflexivity|]. cbn [trace push_effect snd].
    split; [rewrite <- !app_assoc; reflexivity|]. cbn.
    split; [reflexivity|]. split; [constructor | congruence].
  - set (all := turbine :: turbines).
    destruct (for_of_batches_posts (batches_of (length all) all)
                (push_effect
                   (Console (console_log [Str "Found "; Int (Z.of_nat (length all));
                                          Str " active turbines"]))
                   (push_effect
                      (Console (console_log [Str "Fetching active turbines..."])) s)))
      as (s1 & tr & Hloop & Htr & Hq & Hids & Hts).
    match goal with |- context [try_catch ?body ?handler] =>
      assert (body s =
              (Ok false,
               push_effect
                 (Console (console_log [Str "Simulation cycle completed. Next cycle in ";
                                        Int STREAMING_INTERVAL; Str " seconds."])) s1))
        as Hbody
    end.
    { erewrite bind_run by reflexivity.
      erewrite bind_run by reflexivity.
      change (length all =? 0)%nat with false. cbv iota.
      erewrite bind_run by reflexivity.
      erewrite bind_run by exact Hloop.
      erewrite bind_run by reflexivity. reflexivity. }
    erewrite bind_run by (unfold try_catch; rewrite Hbody; reflexivity).
    cbv iota.
    eexists _, (_ :: _ :: tr ++ [_; _]).
    split; [reflexivity|]. cbn [trace push_effect]. rewrite Htr.
    cbn [trace push_effect].
    split; [now rewrite <- !app_assoc|].
    assert (posts (Console (console_log [Str "Fetching active turbines..."])
                   :: Console (console_log [Str "Found "; Int (Z.of_nat (length all));
                                            Str " active turbines"])
                   :: tr ++
                   [Console (console_log [Str "Simulation cycle completed. Next cycle in ";
                                          Int STREAMING_INTERVAL; Str " seconds."]);
                    SetTimeout_runSimulation (STREAMING_INTERVAL * 1000)]) = posts tr)
      as ->.
    { unfold posts. cbn [omap list_omap]. rewrite omap_app. cbn. apply app_nil_r. }
    split; [|split].
    + rewrite concat_map, Hids, <- concat_map.
      now rewrite BatchingFacts.batches_of_concat.
    + pose proof (BatchingFacts.batches_of_sizes (length all) all (le_n _)) as Hsizes.
      assert (Forall (fun ids : list string => (1 <= length ids <= 20)%nat)
                     (map (map windTurbineId) (posts tr))) as Hlen.
      { rewrite Hids. apply Forall_map. eapply Forall_impl; [exact Hsizes|].
        intros batch Hb. cbn. now rewrite length_map. }
      apply Forall_map in Hlen.
      apply Forall_forall. intros post Hin. split.
      * rewrite Forall_forall in Hlen. specialize (Hlen post Hin). cbn in Hlen.
        now rewrite length_map in Hlen.
      * rewrite Forall_forall in Hts. now apply Hts.
    + intros _. unfold timeouts in *. cbn [omap list_omap]. rewrite omap_app, Hq.
      reflexivity.
Qed.

End Loop.

End Pass.

End PassFacts.

(** ** Outlier decision and weather scaling of a reading *)

Module ReadingFacts.

Import Simulator WeatherModel WeatherSteps SimulatorSpec.

Section Readings.

Variable env : Env.
Variable OUTLIER_CHANCE : Z.

Lemma outlier_decision_run (s : State) :
  exists s0,
    (if (OUTLIER_CHANCE >? 0)%Z
     then let! u := random env in ret (Qltb (u * 100) (inject_Z OUTLIER_CHANCE))
     else ret false) s
    = (Ok ((OUTLIER_CHANCE >? 0)%Z
           && Qltb (Math_random env (random_cursor s) * 100) (inject_Z OUTLIER_CHANCE)),
       s0) /\
    weatherEvent s0 = weatherEvent s /\
    weatherEventDuration s0 = weatherEventDuration s /\
    clock_cursor s0 = clock_cursor s /\
    (random_cursor s <= random_cursor s0)%nat.
Proof.
  destruct (OUTLIER_CHANCE >? 0)%Z; eexists; (split; [reflexivity|]); cbn; auto.
Qed.

Lemma time_band_range (hour : Z) (f : Q) : time_band hour f -> 0.6 <= f /\ f <= 1.2.
Proof.
  intros (Hnight & Hnoon & Hday).
  destruct (Z_le_gt_dec 22 hour); [rewrite Hnight by lia; lra|].
  destruct (Z_le_gt_dec hour 6); [rewrite Hnight by lia; lra|].
  destruct (Z_le_gt_dec 10 hour); [destruct (Z_le_gt_dec hour 16)|].
  - rewrite Hnoon by lia. lra.
  - rewrite Hday by lia. lra.
  - rewrite Hday by lia. lra.
Qed.

(** A normal reading generated while event [e] is active. *)
Lemma normal_reading_under_event turbine ts s r s' (e : WeatherEvent) :
  weatherEvent s = Some e ->
  generatePowerOutput env OUTLIER_CHANCE turbine ts s = (Ok r, s') ->
  outlier r = false ->
  exists timeFactor m n,
    0.6 <= timeFactor /\ timeFactor <= 1.2 /\
    powerKW r =
    round2 (Math_max 0
              (Math_min (inject_Z (ratedCapacityKW turbine)
                         * (timeFactor * factor e * (0.8 + Math_random env m * 0.4))
                         * (0.85 + Math_random env n * 0.3))
                        (inject_Z (ratedCapacityKW turbine) * 1.2))).
Proof.
  intros He H Hnormal. unfold generatePowerOutput in H.
  destruct (outlier_decision_run s) as (s0 & Hdec & Hev & _).
  rewrite (bind_run _ _ _ _ _ Hdec) in H.
  destruct (_ && _)%bool.
  - apply (SimulatorFacts.generateOutlierReading_outlier env) in H. congruence.
  - destruct (SimulatorFacts.getTimeBasedWindFactor_band env s0) as (f & Hf & Hband).
    rewrite (bind_run _ _ _ _ _ Hf) in H.
    rewrite (bind_run _ _ _ _ _
               (tick_active env (set_clock_cursor (S (clock_cursor s0)) s0) e
                  ltac:(cbn; congruence))) in H.
    do 2 invert_bind H. injection H as <- _.
    injection Hstep as <- _. injection Hstep0 as <- _. cbn [powerKW].
    apply time_band_range in Hband as [Hlo Hhi]. eauto 8.
Qed.

(** Whether a reading is an outlier is decided by the first draw [u] of
    its generation alone: it is one exactly when the chance is positive
    and [u * 100] is below it.  So a chance of 0 (or less) gives no
    outlier at all, and a chance of 100 (or more) gives nothing else. *)
Theorem outlier_decided_by_first_draw turbine ts s r s' :
  generatePowerOutput env OUTLIER_CHANCE turbine ts s = (Ok r, s') ->
  (outlier r = true <->
   (0 < OUTLIER_CHANCE)%Z /\
   Math_random env (random_cursor s) * 100 < inject_Z OUTLIER_CHANCE) /\
  ((OUTLIER_CHANCE <= 0)%Z -> outlier r = false /\ outlierType r = None) /\
  ((100 <= OUTLIER_CHANCE)%Z -> in_unit_interval (Math_random env) ->
   outlier r = true).
Proof.
  intros H. unfold generatePowerOutput in H.
  destruct (outlier_decision_run s) as (s0 & Hdec & _).
  rewrite (bind_run _ _ _ _ _ Hdec) in H.
  destruct (OUTLIER_CHANCE >? 0)%Z eqn:Hpos; cbn [andb] in H;
    [destruct (Qltb _ _) eqn:Hlt|].
  - apply (SimulatorFacts.generateOutlierReading_outlier env) in H.
    apply Qltb_lt in Hlt. repeat split; try (intros; lia); auto.
  - invert_bind H. do 3 invert_bind H. injection H as <- _. cbn [outlier outlierType].
    apply Qltb_ge in Hlt. split; [|split].
    + split; [discriminate | intros [_ Hu]; lra].
    + intros; lia.
    + intros Hfull Hunit. exfalso.
      destruct (Hunit (random_cursor s)) as [_ Hu1].
      rewrite Zle_Qle in Hfull. change (inject_Z 100) with 100 in Hfull. lra.
  - invert_bind H. do 3 invert_bind H. injection H as <- _. cbn [outlier outlierType].
    split; [|split].
    + split; [discriminate | intros [Hc _]; lia].
    + auto.
    + intros; lia.
Qed.

(** While a weather event of factor 0 (the maintenance window) is
    active, every normal reading is exactly 0 kW, whatever the rated
    capacity, the hour and the draws. *)
Theorem no_output_under_zero_factor turbine ts s r s' (e : WeatherEvent) :
  weatherEvent s = Some e -> factor e == 0 ->
  generatePowerOutput env OUTLIER_CHANCE turbine ts s = (Ok r, s') ->
  outlier r = false ->
  powerKW r == 0.
Proof.
  intros He Hzero H Hnormal.
  destruct (normal_reading_under_event turbine ts s r s' e He H Hnormal)
    as (tf & m & n & _ & _ & ->).
  set (R := inject_Z (ratedCapacityKW turbine)).
  set (x := R * (tf * factor e * (0.8 + Math_random env m * 0.4))
            * (0.85 + Math_random env n * 0.3)).
  assert (x == 0) as Hx by (unfold x; rewrite Hzero; ring).
  assert (Math_max 0 (Math_min x (R * 1.2)) == 0) as Hclamp.
  { unfold Math_max, Math_min. apply Qle_antisym.
    - apply Q.max_lub; [lra|]. eapply Qle_trans; [apply Q.le_min_l | lra].
    - apply Q.le_max_l. }
  destruct (round2_between (Math_max 0 (Math_min x (R * 1.2))) 0 0) as [H1 H2].
  - rewrite Hclamp. rewrite Qdiv_100. change (inject_Z 0) with 0. lra.
  - rewrite Hclamp. rewrite Qdiv_100. change (inject_Z 0) with 0. lra.
  - rewrite Qdiv_100 in H1, H2. change (inject_Z 0) with 0 in H1, H2. lra.
Qed.

(** While an event of factor [f >= 0] is active, a normal reading of a
    turbine of rated capacity [R >= 0] is the capacity scaled by [f] and
    by at most 1.2 * 1.2 * 1.15 = 1.656, rounded to two decimals: under a
    storm it never exceeds 33.12 % of the rated capacity (plus the
    rounding). *)
Theorem weather_factor_scales_reading turbine ts s r s' (e : WeatherEvent) :
  in_unit_interval (Math_random env) ->
  (0 <= ratedCapacityKW turbine)%Z -> 0 <= factor e ->
  weatherEvent s = Some e ->
  generatePowerOutput env OUTLIER_CHANCE turbine ts s = (Ok r, s') ->
  outlier r = false ->
  0 <= powerKW r /\
  powerKW r <= inject_Z (ratedCapacityKW turbine) * factor e * 1.656 + 0.005.
Proof.
  intros Hunit HR Hf He H Hnormal.
  destruct (normal_reading_under_event turbine ts s r s' e He H Hnormal)
    as (tf & m & n & Hlo & Hhi & ->).
  destruct (Hunit m) as [Hm0 Hm1]. destruct (Hunit n) as [Hn0 Hn1].
  split; [now apply clamp_round2|].
  rewrite Zle_Qle in HR. change (inject_Z 0) with 0 in HR.
  set (R := inject_Z (ratedCapacityKW turbine)) in *.
  set (u := Math_random env m) in *. set (v := Math_random env n) in *.
  set (x := R * (tf * factor e * (0.8 + u * 0.4)) * (0.85 + v * 0.3)).
  assert (0 <= tf * (0.8 + u * 0.4) /\ tf * (0.8 + u * 0.4) <= 1.44) as [Ha0 Ha1]
    by (split; nra).
  assert (0 <= tf * (0.8 + u * 0.4) * (0.85 + v * 0.3) /\
          tf * (0.8 + u * 0.4) * (0.85 + v * 0.3) <= 1.656) as [Hb0 Hb1]
    by (split; nra).
  assert (0 <= R * factor e) as Hc by nra.
  assert (x == R * factor e * (tf * (0.8 + u * 0.4) * (0.85 + v * 0.3))) as Hx
    by (unfold x; ring).
  assert (x <= R * factor e * 1.656) as Hcap by (rewrite Hx; nra).
  assert (Math_max 0 (Math_min x (R * 1.2)) <= R * factor e * 1.656) as Hclamp.
  { unfold Math_max, Math_min. apply Q.max_lub; [nra|].
    eapply Qle_trans; [apply Q.le_min_l | exact Hcap]. }
  destruct (round2_near (Math_max 0 (Math_min x (R * 1.2)))) as [_ Hnear]. lra.
Qed.

End Readings.

End ReadingFacts.

(** ** An invariant of the weather state *)

Module WeatherInvariant.

Import Simulator WeatherModel WeatherSteps SimulatorSpec.

Lemma events_shape (e : WeatherEvent) :
  In e events -> (2 <= duration e)%Z /\ In (factor e) (map factor events).
Proof.
  intros He. split; [|now apply in_map].
  cbn in He. destruct He as [<- | [<- | [<- | []]]]; cbn; lia.
Qed.

Lemma keeps_weather_ret {A} (a : A) : keeps_weather (ret a).
Proof. intros s H. exact H. Qed.

Lemma keeps_weather_throw {A} (e : Error) : keeps_weather (@throw State A e).
Proof. intros s H. exact H. Qed.

Lemma keeps_weather_bind {A B} (c : M State A) (k : A -> M State B) :
  keeps_weather c -> (forall a, keeps_weather (k a)) -> keeps_weather (bind c k).
Proof.
  intros Hc Hk s Hs. unfold bind. specialize (Hc s Hs).
  destruct (c s) as [[a | e] s1]; cbn in *; [now apply Hk | exact Hc].
Qed.

Lemma keeps_weather_try {A} (c : M State A) (h : Error -> M State A) :
  keeps_weather c -> (forall e, keeps_weather (h e)) -> keeps_weather (try_catch c h).
Proof.
  intros Hc Hh s Hs. unfold try_catch. specialize (Hc s Hs).
  destruct (c s) as [[a | e] s1]; cbn in *; [exact Hc | now apply Hh].
Qed.

Lemma keeps_weather_same {A} (c : M State A) :
  (forall s, weatherEvent (snd (c s)) = weatherEvent s /\
             weatherEventDuration (snd (c s)) = weatherEventDuration s) ->
  keeps_weather c.
Proof.
  intros H s Hs. unfold weather_consistent in *. destruct (H s) as [-> ->]. exact Hs.
Qed.

Lemma keeps_weather_map_M {A B} (f : A -> M State B) (xs : list A) :
  (forall x, keeps_weather (f x)) -> keeps_weather (map_M f xs).
Proof.
  intros Hf. induction xs as [|x xs IH]; cbn [map_M].
  - apply keeps_weather_ret.
  - apply keeps_weather_bind; [apply Hf | intros y].
    apply keeps_weather_bind; [apply IH | intros ys]. apply keeps_weather_ret.
Qed.

Lemma keeps_weather_for_of {A} (body : A -> M State unit) (xs : list A) :
  (forall x, keeps_weather (body x)) -> keeps_weather (for_of xs body).
Proof.
  intros Hf. induction xs as [|x xs IH]; cbn [for_of].
  - apply keeps_weather_ret.
  - apply keeps_weather_bind; [apply Hf | intros _; apply IH].
Qed.

Section Invariant.

Variable env : Env.
Hypothesis random_ok : in_unit_interval (Math_random env).

(** One tick from a consistent state. *)
Lemma tick_consistent (s : State) :
  weather_consistent s ->
  exists f s',
    simulateWeatherEvents env s = (Ok f, s') /\ weather_consistent s' /\
    (f = 1.0 \/ In f (map factor events)).
Proof.
  intros Hs. unfold weather_consistent in Hs.
  destruct (weatherEvent s) as [e|] eqn:He.
  - destruct Hs as [Hin Hdur]. rewrite (tick_active env s e He).
    eexists _, _. split; [reflexivity|].
    split; [|right; now apply events_shape].
    unfold after_active, weather_consistent.
    destruct (weatherEventDuration s - 1 <=? 0)%Z eqn:Hend; cbn.
    + exact I.
    + rewrite He. apply Z.leb_gt in Hend. split; [exact Hin | lia].
  - destruct (Qlt_le_dec (Math_random env (random_cursor s)) 0.05) as [Hu | Hu].
    + destruct (random_ok (S (random_cursor s))) as [Hv0 Hv1].
      destruct (pick_event _ Hv0 Hv1) as (e & Hidx & _).
      assert (In e events) as Hin.
      { unfold js_index in Hidx. destruct (_ <? 0)%Z; [discriminate|].
        now apply nth_error_In in Hidx. }
      destruct (events_shape e Hin) as [Hdur Hf].
      rewrite (tick_spawn env s e He Hu Hidx) by lia.
      eexists _, _. split; [reflexivity|]. split; [|now right].
      unfold after_spawn, weather_consistent. cbn -[events]. split; [exact Hin | lia].
    + rewrite (tick_idle env s He Hu). eexists _, _. split; [reflexivity|].
      split; [|now left]. unfold weather_consistent. cbn. now rewrite He.
Qed.

Lemma keeps_weather_simulateWeatherEvents : keeps_weather (simulateWeatherEvents env).
Proof.
  intros s Hs. destruct (tick_consistent s Hs) as (f & s' & -> & Hs' & _). exact Hs'.
Qed.

Lemma keeps_weather_random : keeps_weather (random env).
Proof. apply keeps_weather_same. intros s. split; reflexivity. Qed.

Lemma keeps_weather_new_Date : keeps_weather (new_Date env).
Proof. apply keeps_weather_same. intros s. split; reflexivity. Qed.

Lemma keeps_weather_emit e : keeps_weather (emit e).
Proof. apply keeps_weather_same. intros s. split; reflexivity. Qed.

Ltac weather_step :=
  first [ apply keeps_weather_ret | apply keeps_weather_throw
        | apply keeps_weather_random | apply keeps_weather_new_Date
        | apply keeps_weather_emit | apply keeps_weather_simulateWeatherEvents
        | apply keeps_weather_bind; [|intros ?] ].

Lemma keeps_weather_getTimeBasedWindFactor : keeps_weather (getTimeBasedWindFactor env).
Proof.
  unfold getTimeBasedWindFactor.
  apply keeps_weather_bind; [apply keeps_weather_new_Date | intros d].
  destruct (_ || _)%bool; [apply keeps_weather_ret|].
  destruct (_ && _)%bool; apply keeps_weather_ret.
Qed.

Lemma keeps_weather_generateOutlierReading turbine ts :
  keeps_weather (generateOutlierReading env turbine ts).
Proof.
  unfold generateOutlierReading.
  apply keeps_weather_bind; [apply keeps_weather_random | intros u].
  destruct (js_index _ _) as [sel|] eqn:Hsel; [|apply keeps_weather_throw].
  unfold js_index in Hsel. destruct (_ <? 0)%Z; [discriminate|].
  apply nth_error_In in Hsel.
  apply keeps_weather_bind.
  - cbn in Hsel. destruct Hsel as [<- | [<- | [<- | [<- | [<- | []]]]]];
      cbn [generator]; repeat weather_step.
  - intros x. unfold log. repeat weather_step.
Qed.

Lemma keeps_weather_generatePowerOutput chance turbine ts :
  keeps_weather (generatePowerOutput env chance turbine ts).
Proof.
  unfold generatePowerOutput.
  apply keeps_weather_bind.
  - destruct (chance >? 0)%Z; repeat weather_step.
  - intros [|]; [apply keeps_weather_generateOutlierReading|].
    apply keeps_weather_bind; [apply keeps_weather_getTimeBasedWindFactor | intros f].
    repeat weather_step.
Qed.

Lemma keeps_weather_process_batch chance post batch :
  keeps_weather (process_batch env chance post batch).
Proof.
  unfold process_batch.
  apply keeps_weather_bind; [apply keeps_weather_new_Date | intros ts].
  apply keeps_weather_bind.
  { apply keeps_weather_map_M. intros t. apply keeps_weather_generatePowerOutput. }
  intros readings. apply keeps_weather_bind; [|intros _; apply keeps_weather_emit].
  apply keeps_weather_try.
  - apply keeps_weather_bind.
    + apply keeps_weather_same. intros s. split; reflexivity.
    + intros result. apply keeps_weather_emit.
  - intros error. apply keeps_weather_emit.
Qed.

(** Every tick of the weather model, from a consistent state on,
    returns one of the factors 1.0, 0.2, 1.5 and 0 and leaves a
    consistent state: the active event is one of [events] with at least
    one and at most [duration] cycles left. *)
Theorem weather_ticks_consistent (n : nat) : forall s : State,
  weather_consistent s ->
  Forall (fun r => exists f, r = Ok f /\ (f = 1.0 \/ In f [0.2; 1.5; 0]))
         (fst (ticks env n s)) /\
  weather_consistent (snd (ticks env n s)).
Proof.
  induction n as [|n IH]; intros s Hs; cbn [ticks].
  - split; [constructor | exact Hs].
  - destruct (tick_consistent s Hs) as (f & s1 & Htick & Hs1 & Hf).
    rewrite Htick. specialize (IH s1 Hs1).
    destruct (ticks env n s1) as [rs s2]. cbn [fst snd] in *.
    destruct IH as [Hrs Hs2]. split; [|exact Hs2].
    constructor; [|exact Hrs]. exists f. split; [reflexivity | exact Hf].
Qed.

(** A whole pass of the loop keeps the weather state consistent,
    whatever the fetch and the submits answer. *)
Theorem pass_keeps_weather_consistent chance interval fetched post (s : State) :
  weather_consistent s ->
  weather_consistent (snd (runSimulation env chance interval fetched post s)).
Proof.
  revert s. change (keeps_weather (runSimulation env chance interval fetched post)).
  unfold runSimulation.
  apply keeps_weather_bind.
  - apply keeps_weather_try.
    + apply keeps_weather_bind; [apply keeps_weather_emit | intros _].
      apply keeps_weather_bind.
      { apply keeps_weather_same. intros s. split; reflexivity. }
      intros turbines. destruct (length turbines =? 0)%nat.
      * unfold log. repeat weather_step.
      * apply keeps_weather_bind; [apply keeps_weather_emit | intros _].
        apply keeps_weather_bind.
        { apply keeps_weather_for_of. intros batch. apply keeps_weather_process_batch. }
        intros _. unfold log. repeat weather_step.
    + intros error. unfold log_error, log. repeat weather_step.
  - intros [|]; [apply keeps_weather_ret | apply keeps_weather_emit].
Qed.

End Invariant.

End WeatherInvariant.

(** ** The command line of the simulator *)

Module CliFacts.

Import SimulatorCli.

Lemma outlier_flag_not_help (arg : string) :
  is_outlier_flag arg = true -> is_help arg = false.
Proof.
  unfold is_outlier_flag. intros H. apply orb_true_iff in H.
  destruct H as [H | H]; apply String.eqb_eq in H; subst; reflexivity.
Qed.

Lemma parse_from_outcome (n : nat) : forall (args : list string) (config : Config),
  (length args <= n)%nat ->
  (0 <= outlierChance config <= 100)%Z ->
  match parse_from args config with
  | parsed c => (0 <= outlierChance c <= 100)%Z /\ accepted_args args
  | process_exit code lines => code = 1%Z /\ lines <> []
  end.
Proof.
  induction n as [|n IH]; intros [|arg rest] config Hlen Hrange;
    cbn [length] in Hlen; try lia; cbn [parse_from].
  - split; [exact Hrange | constructor].
  - split; [exact Hrange | constructor].
  - destruct (is_help arg) eqn:Hhelp.
    + specialize (IH rest (mkConfig (outlierChance config) true)
                     ltac:(lia) Hrange).
      destruct (parse_from rest _); [|exact IH].
      destruct IH as [Hc Hacc]. split; [exact Hc | now apply accepted_help].
    + destruct (is_outlier_flag arg) eqn:Hflag; [|split; [reflexivity | discriminate]].
      destruct rest as [|next rest']; [split; [reflexivity | discriminate]|].
      destruct (Js.parseInt next) as [value|] eqn:Hvalue;
        [|split; [reflexivity | discriminate]].
      destruct ((0 <=? value)%Z && (value <=? 100)%Z) eqn:Hin;
        [|split; [reflexivity | discriminate]].
      apply andb_true_iff in Hin. rewrite !Z.leb_le in Hin.
      cbn [length] in Hlen.
      specialize (IH rest' (mkConfig value (help config)) ltac:(lia) Hin).
      destruct (parse_from rest' _); [|exact IH].
      destruct IH as [Hc Hacc]. split; [exact Hc|].
      now apply (accepted_chance arg next value rest').
Qed.

Lemma accepted_parse_from (args : list string) :
  accepted_args args -> forall config, exists c, parse_from args config = parsed c.
Proof.
  induction 1 as [| arg rest Hhelp _ IH | flag value n rest Hflag Hvalue Hn _ IH];
    intros config; cbn [parse_from].
  - eauto.
  - rewrite Hhelp. apply IH.
  - rewrite (outlier_flag_not_help flag Hflag), Hflag, Hvalue.
    replace ((0 <=? n)%Z && (n <=? 100)%Z) with true; [apply IH|].
    symmetry. apply andb_true_iff. rewrite !Z.leb_le. exact Hn.
Qed.

(** [parseArgs] either returns a configuration whose outlier chance is
    an integer from 0 to 100, or ends the process with exit code 1
    after writing an error line; it never returns a chance outside that
    range. *)
Theorem parseArgs_outcome (args : list string) :
  match parseArgs args with
  | parsed c => (0 <= outlierChance c <= 100)%Z
  | process_exit code lines => code = 1%Z /\ lines <> []
  end.
Proof.
  unfold parseArgs.
  pose proof (parse_from_outcome (length args) args (mkConfig 5 false) (le_n _)) as H.
  cbn [outlierChance] in H. specialize (H ltac:(lia)).
  destruct (parse_from args _); [apply H | exact H].
Qed.

(** The command lines that [parseArgs] takes are exactly those made of
    help flags and of outlier flags each followed by an integer text
    from 0 to 100; any other one (an unknown argument, a missing, non
    numeric or out of range value) ends the process. *)
Theorem parseArgs_accepts (args : list string) :
  (exists c, parseArgs args = parsed c) <-> accepted_args args.
Proof.
  unfold parseArgs. split.
  - intros [c Hc].
    pose proof (parse_from_outcome (length args) args (mkConfig 5 false) (le_n _)) as H.
    cbn [outlierChance] in H. specialize (H ltac:(lia)).
    rewrite Hc in H. apply H.
  - intros H. now apply accepted_parse_from.
Qed.

End CliFacts.

(** ** Pagination *)

Module PaginationFacts.

Import Pagination PaginationQuery.

Lemma ceiling_pages (total limit : Z) :
  (0 < limit)%Z ->
  ((Qceiling (inject_Z total / inject_Z limit) - 1) * limit < total)%Z /\
  (total <= Qceiling (inject_Z total / inject_Z limit) * limit)%Z.
Proof.
  intros Hl.
  assert (0 < inject_Z limit) as HlQ by (now rewrite Zlt_Qlt in Hl).
  pose proof (Qmult_div_r (inject_Z total) (inject_Z limit) ltac:(lra)) as Hx.
  set (x := inject_Z total / inject_Z limit) in *.
  pose proof (Qle_ceiling x) as Hhi. pose proof (Qceiling_lt x) as Hlo.
  remember (Qceiling x) as k.
  replace (k - 1)%Z with (k + -1)%Z in * by lia.
  rewrite inject_Z_plus in Hlo. change (inject_Z (-1)) with (-1) in Hlo.
  split.
  - rewrite Zlt_Qlt, inject_Z_mult, inject_Z_plus. change (inject_Z (-1)) with (-1). nra.
  - rewrite Zle_Qle, inject_Z_mult. nra.
Qed.

Lemma createPaginationMeta_pages (page limit total : Z) :
  (0 < limit)%Z ->
  exists pages,
    totalPages (createPaginationMeta page limit total) = Some pages /\
    ((pages - 1) * limit < total <= pages * limit)%Z /\
    (hasNext (createPaginationMeta page limit total) = true <->
     (page * limit < total)%Z) /\
    (hasPrev (createPaginationMeta page limit total) = true <-> (1 < page)%Z).
Proof.
  intros Hl. unfold createPaginationMeta.
  destruct (Z.eqb_spec limit 0) as [-> | _]; [lia|].
  destruct (ceiling_pages total limit Hl) as [Hlo Hhi].
  eexists. cbn [totalPages hasNext hasPrev].
  split; [reflexivity|]. split; [split; assumption|].
  rewrite Z.ltb_lt, Z.gtb_ltb, Z.ltb_lt. split; [|reflexivity].
  split; intros H; nia.
Qed.

Lemma validatePagination_range (page_text limit_text : option string) :
  (1 <= page (validatePagination page_text limit_text))%Z /\
  (1 <= limit (validatePagination page_text limit_text) <= 100)%Z /\
  offset (validatePagination page_text limit_text) =
  ((page (validatePagination page_text limit_text) - 1)
   * limit (validatePagination page_text limit_text))%Z.
Proof.
  unfold validatePagination, MAX_LIMIT, MIN_LIMIT, DEFAULT_LIMIT.
  cbn [page limit offset]. split; [lia|]. split; [lia | reflexivity].
Qed.

(** Whatever the query holds, [validatePagination] gives a page of at
    least 1, a limit from 1 to 100 (the one [validateLimit] gives) and
    the offset [(page - 1) * limit >= 0]; a limit that reads as an
    integer [n] is clamped, except that 0 falls back to the default 25
    instead of being raised to 1. *)
Theorem validatePagination_bounds (page_text limit_text : option string) :
  let p := validatePagination page_text limit_text in
  (1 <= page p)%Z /\ (1 <= limit p <= 100)%Z /\
  offset p = ((page p - 1) * limit p)%Z /\ (0 <= offset p)%Z /\
  limit p = validateLimit limit_text DEFAULT_LIMIT /\
  (forall text n,
     limit_text = Some text -> Js.parseInt text = Some n ->
     limit p = if (n =? 0)%Z then 25%Z else Z.min 100 (Z.max 1 n)).
Proof.
  cbv zeta.
  destruct (validatePagination_range page_text limit_text) as (Hpage & Hlimit & Hoffset).
  split; [exact Hpage|]. split; [exact Hlimit|]. split; [exact Hoffset|].
  split; [nia|]. split; [reflexivity|].
  intros text n -> Hn.
  unfold validatePagination, parse_or, MAX_LIMIT, MIN_LIMIT, DEFAULT_LIMIT.
  cbn [limit]. rewrite Hn. destruct (n =? 0)%Z; reflexivity.
Qed.

(** The pagination block of a list answer, computed from the validated
    page and limit: [totalPages] is the least number of pages that hold
    [total] rows, [hasNext] is true exactly when rows remain after this
    page ([offset + limit < total]) and [hasPrev] exactly when the page
    does not start at the first row. *)
Theorem pagination_meta_of_page (page_text limit_text : option string) (rows : Z) :
  let p := validatePagination page_text limit_text in
  let m := createPaginationMeta (page p) (limit p) rows in
  exists pages,
    totalPages m = Some pages /\
    ((pages - 1) * limit p < rows <= pages * limit p)%Z /\
    (hasNext m = true <-> (offset p + limit p < rows)%Z) /\
    (hasPrev m = true <-> (0 < offset p)%Z).
Proof.
  cbv zeta.
  destruct (validatePagination_range page_text limit_text)
    as (Hpage & Hlimit & Hoffset).
  destruct (createPaginationMeta_pages
              (page (validatePagination page_text limit_text))
              (limit (validatePagination page_text limit_text)) rows ltac:(lia))
    as (pages & Hpages & Hceil & Hnext & Hprev).
  exists pages. split; [exact Hpages|]. split; [exact Hceil|].
  rewrite Hnext, Hprev, Hoffset. split; split; intros; nia.
Qed.

End PaginationFacts.

(** ** The query normaliser *)

Module NormalizerFacts.

Import QueryNormalizer.

Local Abbreviation paramMap_of :=
  (foldl (fun (m : gmap string string) param =>
            if String.eqb (Js.toLowerCase param) "__proto__" then m
            else <[Js.toLowerCase param := param]> m)).

Lemma paramMap_untouched (expected : list string) : forall (m : gmap string string) k,
  k ∉ map Js.toLowerCase expected -> paramMap_of m expected !! k = m !! k.
Proof.
  induction expected as [|a expected IH]; intros m k Hk; cbn [foldl]; [reflexivity|].
  cbn [map] in Hk. apply not_elem_of_cons in Hk as [Hka Hk].
  rewrite IH by exact Hk.
  destruct (String.eqb (Js.toLowerCase a) "__proto__"); [reflexivity|].
  now apply lookup_insert_ne.
Qed.

Lemma paramMap_expected (expected : list string) : forall (m : gmap string string) p,
  NoDup (map Js.toLowerCase expected) -> p ∈ expected ->
  Js.toLowerCase p <> "__proto__"%string ->
  paramMap_of m expected !! Js.toLowerCase p = Some p.
Proof.
  induction expected as [|a expected IH]; intros m p Hnd Hp Hproto; [inversion Hp|].
  cbn [map] in Hnd. apply NoDup_cons in Hnd as [Ha Hnd]. cbn [foldl].
  destruct (decide (p = a)) as [-> | Hpa].
  - rewrite paramMap_untouched by exact Ha.
    destruct (String.eqb_spec (Js.toLowerCase a) "__proto__") as [? | _]; [contradiction|].
    apply lookup_insert_eq.
  - apply IH; [exact Hnd | | exact Hproto].
    apply elem_of_cons in Hp as [Hp | Hp]; [contradiction | exact Hp].
Qed.

Lemma paramMap_values (expected : list string) : forall (m : gmap string string) k q,
  paramMap_of m expected !! k = Some q ->
  (q ∈ expected /\ Js.toLowerCase q = k) \/ m !! k = Some q.
Proof.
  induction expected as [|a expected IH]; intros m k q H; cbn [foldl] in H; [now right|].
  apply IH in H as [[Hq Hk] | H]; [left; split; [now apply list_elem_of_further | exact Hk]|].
  destruct (String.eqb (Js.toLowerCase a) "__proto__"); [now right|].
  destruct (decide (Js.toLowerCase a = k)) as [Hak | Hak].
  - subst k. rewrite lookup_insert_eq in H. injection H as ->.
    left. split; [apply list_elem_of_here | reflexivity].
  - rewrite lookup_insert_ne in H by exact Hak. now right.
Qed.

(** The stringified members of [Object.prototype] are themselves plain
    names: in lower case they spell no member. *)
Lemma member_spells_no_member (lowerKey member : string) :
  Object_prototype lowerKey = Some member ->
  Object_prototype (Js.toLowerCase member) = None.
Proof.
  unfold Object_prototype.
  destruct (String.eqb lowerKey "constructor"); [intros H; injection H as <-; reflexivity|].
  destruct (String.eqb lowerKey "__proto__"); [intros H; injection H as <-; reflexivity|].
  discriminate.
Qed.

Lemma route_parameter_plain (p : string) :
  p = "windTurbineIds"%string \/ p = "interval"%string ->
  Js.toLowerCase p <> "__proto__"%string /\ not_a_member p.
Proof.
  intros [-> | ->]; (split; [discriminate|]); intros lowerKey; unfold Object_prototype;
    destruct (String.eqb lowerKey "constructor"); try discriminate;
    destruct (String.eqb lowerKey "__proto__"); discriminate.
Qed.

Lemma normalized_lookup (query : list (string * string)) (expected : list string)
    (p : string) :
  NoDup (map Js.toLowerCase expected) -> p ∈ expected -> p <> ""%string ->
  Js.toLowerCase p <> "__proto__"%string -> not_a_member p ->
  normalizeQueryParams query expected !! p = last_spelling p query.
Proof.
  intros Hnd Hp Hne Hproto Hmember. unfold normalizeQueryParams, last_spelling.
  induction query as [|[key value] query IH] using rev_ind; [reflexivity|].
  rewrite foldl_app, filter_app. cbn [foldl].
  destruct (decide (Js.toLowerCase key = Js.toLowerCase p)) as [Hk | Hk].
  - rewrite Hk, (paramMap_expected expected ∅ p Hnd Hp Hproto).
    destruct (String.eqb_spec p "") as [? | _]; [contradiction|].
    rewrite lookup_insert_eq.
    rewrite filter_cons_True by exact Hk. rewrite filter_nil, last_snoc. reflexivity.
  - rewrite filter_cons_False by exact Hk. rewrite filter_nil, app_nil_r, <- IH.
    apply lookup_insert_ne.
    destruct (paramMap_of ∅ expected !! Js.toLowerCase key) as [q|] eqn:Hq.
    + apply paramMap_values in Hq as [[_ Hq] | Hq]; [|now rewrite lookup_empty in Hq].
      destruct (String.eqb q ""); congruence.
    + destruct (Object_prototype (Js.toLowerCase key)) as [member|] eqn:Hinherited.
      * intros ->. exact (Hmember _ Hinherited).
      * congruence.
Qed.

(** The normalised query, for expected names that differ in lower
    case.  An expected parameter (a plain, non-empty name) gets the
    value of the last query key that spells it in any letter case, and
    nothing when no key does.  A plain key that spells no expected
    parameter is kept as it is written, with the value of its last
    occurrence.  A key that spells [constructor] or [__proto__] and no
    expected parameter is not kept: the normalised query holds no own
    property of that name, the value going under the stringified member
    of [Object.prototype]. *)
Theorem normalized_reads_last_spelling (query : list (string * string))
    (expected : list string) :
  NoDup (map Js.toLowerCase expected) ->
  (forall p, p ∈ expected -> p <> ""%string ->
             Js.toLowerCase p <> "__proto__"%string -> not_a_member p ->
             normalizeQueryParams query expected !! p = last_spelling p query) /\
  (forall key, Js.toLowerCase key ∉ map Js.toLowerCase expected ->
               Object_prototype (Js.toLowerCase key) = None -> not_a_member key ->
               normalizeQueryParams query expected !! key =
               snd <$> last (filter (fun kv => fst kv = key) query)) /\
  (forall key member,
     Js.toLowerCase key ∉ map Js.toLowerCase expected ->
     Object_prototype (Js.toLowerCase key) = Some member ->
     normalizeQueryParams query expected !! key = None /\
     (forall value, (key, value) ∈ query ->
                    is_Some (normalizeQueryParams query expected !! member))).
Proof.
  intros Hnd. split; [intros p Hp Hne Hproto Hmember; now apply normalized_lookup|].
  split.
  - intros key Hkey Hplain Hmember. unfold normalizeQueryParams.
    induction query as [|[key' value] query IH] using rev_ind; [reflexivity|].
    rewrite foldl_app, filter_app. cbn [foldl].
    destruct (decide (key' = key)) as [-> | Hk].
    + rewrite (paramMap_untouched expected ∅ _ Hkey), lookup_empty, Hplain, lookup_insert_eq.
      rewrite filter_cons_True by reflexivity. rewrite filter_nil, last_snoc. reflexivity.
    + rewrite filter_cons_False by exact Hk. rewrite filter_nil, app_nil_r, <- IH.
      apply lookup_insert_ne.
      destruct (paramMap_of ∅ expected !! Js.toLowerCase key') as [q|] eqn:Hq.
      * apply paramMap_values in Hq as [[Hq _] | Hq]; [|now rewrite lookup_empty in Hq].
        destruct (String.eqb q ""); [exact Hk|].
        intros ->. apply Hkey. apply list_elem_of_In, in_map, list_elem_of_In, Hq.
      * destruct (Object_prototype (Js.toLowerCase key')) as [member|] eqn:Hinherited;
          [|exact Hk].
        intros ->. exact (Hmember _ Hinherited).
  - intros key member Hkey Hinherited. unfold normalizeQueryParams. split.
    + induction query as [|[key' value] query IH] using rev_ind; [apply lookup_empty|].
      rewrite foldl_app. cbn [foldl]. rewrite lookup_insert_ne; [exact IH|].
      destruct (paramMap_of ∅ expected !! Js.toLowerCase key') as [q|] eqn:Hq.
      * destruct (String.eqb q "").
        -- intros ->.
           rewrite (paramMap_untouched expected ∅ _ Hkey), lookup_empty in Hq.
           discriminate.
        -- apply paramMap_values in Hq as [[Hq _] | Hq]; [|now rewrite lookup_empty in Hq].
           intros ->. apply Hkey. apply list_elem_of_In, in_map, list_elem_of_In, Hq.
      * destruct (Object_prototype (Js.toLowerCase key')) as [member'|] eqn:Hinherited'.
        -- intros ->. apply member_spells_no_member in Hinherited'. congruence.
        -- intros ->. congruence.
    + intros value Hin.
      induction query as [|[key' value'] query IH] using rev_ind; [inversion Hin|].
      rewrite foldl_app. cbn [foldl].
      apply elem_of_app in Hin as [Hin | Hin].
      * specialize (IH Hin).
        match goal with |- is_Some (<[?k := _]> _ !! _) =>
          destruct (decide (k = member)) as [-> | Hne]
        end; [rewrite lookup_insert_eq; eauto | now rewrite lookup_insert_ne].
      * apply list_elem_of_singleton in Hin. injection Hin as <- <-.
        rewrite (paramMap_untouched expected ∅ _ Hkey), lookup_empty, Hinherited.
        rewrite lookup_insert_eq. eauto.
Qed.

(** The subscription route reads its query only through the last
    spelling, in any letter case, of [windTurbineIds] and of
    [interval]: two queries that agree on those answer alike. *)
Theorem subscription_reads_two_parameters (env : Api.Env)
    (query1 query2 : list (string * string)) (s : Api.State) :
  last_spelling "windTurbineIds" query1 = last_spelling "windTurbineIds" query2 ->
  last_spelling "interval" query1 = last_spelling "interval" query2 ->
  Api.get_power_output env query1 s = Api.get_power_output env query2 s.
Proof.
  intros Hids Hinterval. unfold Api.get_power_output.
  assert (NoDup (map Js.toLowerCase ["windTurbineIds"; "interval"]%string)) as Hnd.
  { cbn. apply NoDup_cons. split; [|apply NoDup_singleton].
    intros H. apply list_elem_of_singleton in H. discriminate. }
  destruct (route_parameter_plain "windTurbineIds" (or_introl eq_refl)) as [Hp1 Hm1].
  destruct (route_parameter_plain "interval" (or_intror eq_refl)) as [Hp2 Hm2].
  rewrite !(fun q => normalized_lookup q _ "windTurbineIds" Hnd
                       ltac:(set_solver) ltac:(discriminate) Hp1 Hm1).
  rewrite !(fun q => normalized_lookup q _ "interval" Hnd
                       ltac:(set_solver) ltac:(discriminate) Hp2 Hm2).
  rewrite Hids, Hinterval. reflexivity.
Qed.

End NormalizerFacts.

(** ** Further routes of the API server *)

Module RoutesFacts.

Import Js Api ApiSpec Routes.

Section Server.

Variable env : Env.

(** *** Efficiency of an entry *)

Lemma efficiency_of_reading (R : Z) (x : Q) :
  let powerKW := round2 (Math_max 0 (Math_min x (inject_Z R * 1.2))) in
  R <> 0%Z ->
  0 <= round2 (powerKW / inject_Z R * 100) /\
  round2 (powerKW / inject_Z R * 100) <= 120.
Proof.
  intros powerKW HR.
  assert (0 <= powerKW / inject_Z R * 100 /\ powerKW / inject_Z R * 100 <= 120)
    as [Hlo Hhi].
  { destruct (Z_lt_le_dec R 0) as [Hneg | Hpos].
    - assert (powerKW == 0) as ->.
      { subst powerKW. rewrite Zlt_Qlt in Hneg. change (inject_Z 0) with 0 in Hneg.
        assert (Math_max 0 (Math_min x (inject_Z R * 1.2)) == 0) as Hclamp.
        { unfold Math_max, Math_min. apply Qle_antisym; [|apply Q.le_max_l].
          apply Q.max_lub; [lra|]. eapply Qle_trans; [apply Q.le_min_r | lra]. }
        destruct (round2_between (Math_max 0 (Math_min x (inject_Z R * 1.2))) 0 0)
          as [H1 H2].
        - rewrite Hclamp, Qdiv_100. change (inject_Z 0) with 0. lra.
        - rewrite Hclamp, Qdiv_100. change (inject_Z 0) with 0. lra.
        - rewrite Qdiv_100 in H1, H2. change (inject_Z 0) with 0 in H1, H2. lra. }
      unfold Qdiv. split; ring_simplify; lra.
    - destruct (clamp_round2 R x Hpos) as [H0 H1]. fold powerKW in H0, H1.
      assert (0 < inject_Z R) as HRQ.
      { change 0 with (inject_Z 0). rewrite <- Zlt_Qlt. lia. }
      split.
      + apply Qmult_le_0_compat; [|lra]. apply Qle_shift_div_l; [exact HRQ | lra].
      + assert (powerKW / inject_Z R <= 1.2) as Hq.
        { apply Qle_shift_div_r; [exact HRQ | lra]. }
        lra. }
  destruct (round2_between (powerKW / inject_Z R * 100) 0 12000) as [H1 H2].
  - rewrite Qdiv_100. change (inject_Z 0) with 0. lra.
  - rewrite Qdiv_100. change (inject_Z 12000) with 12000. lra.
  - rewrite Qdiv_100 in H1, H2. change (inject_Z 0) with 0 in H1.
    change (inject_Z 12000) with 12000 in H2. split; lra.
Qed.

Lemma ws_entry_run (ts : Date) (turbine : WindTurbine) (s : State) :
  exists entry,
    ws_entry env ts turbine s = (Ok entry, set_faker_cursor (S (S (S (faker_cursor s)))) s) /\
    turbineId entry = id turbine /\ entry_timestamp entry = ts /\
    efficiency_in_range entry.
Proof.
  unfold ws_entry.
  destruct (ApiFacts.generatePowerOutput_run env (id turbine) (ratedCapacityKW turbine) ts s)
    as (f & rf & te & Hgen & _).
  erewrite bind_run by exact Hgen. eexists. split; [reflexivity|].
  split; [reflexivity|]. split; [reflexivity|].
  unfold efficiency_in_range. cbn [efficiency entry_ratedCapacityKW powerKW].
  destruct (Z.eqb_spec (ratedCapacityKW turbine) 0) as [HR | HR]; [exact HR|].
  split; [exact HR|]. now apply efficiency_of_reading.
Qed.

(** Every entry pushed on the SSE stream carries an efficiency that is
    absent exactly when the turbine's rated capacity is 0 and is
    otherwise a percentage from 0 to 120, whatever the generator
    draws. *)
Theorem sse_entry_efficiency (ts : Date) (turbine : WindTurbine) (s : State)
    (entry : PowerOutputEntry) (s' : State) :
  power_entry env ts turbine s = (Ok entry, s') ->
  efficiency_in_range entry /\
  entry_ratedCapacityKW entry = ratedCapacityKW turbine.
Proof.
  unfold power_entry. intros H.
  destruct (ApiFacts.generatePowerOutput_run env (id turbine) (ratedCapacityKW turbine) ts s)
    as (f & rf & te & Hgen & _).
  rewrite (bind_run _ _ _ _ _ Hgen) in H. invert_bind H. injection H as <- _.
  split; [|reflexivity].
  unfold efficiency_in_range. cbn [efficiency entry_ratedCapacityKW powerKW].
  destruct (Z.eqb_spec (ratedCapacityKW turbine) 0) as [HR | HR]; [exact HR|].
  split; [exact HR|]. now apply efficiency_of_reading.
Qed.

(** *** The WebSocket tick *)

Lemma ws_entries_run (ts : Date) (turbines : list WindTurbine) : forall s : State,
  exists entries s',
    map_M (ws_entry env ts) turbines s = (Ok entries, s') /\
    power_outputs s' = power_outputs s /\ sseConnections s' = sseConnections s /\
    map turbineId entries = map id turbines /\
    Forall efficiency_in_range entries.
Proof.
  induction turbines as [|turbine turbines IH]; intros s; cbn [map_M].
  - exists [], s. repeat split; constructor.
  - destruct (ws_entry_run ts turbine s) as (entry & Hentry & Hid & _ & Heff).
    erewrite bind_run by exact Hentry.
    destruct (IH (set_faker_cursor (S (S (S (faker_cursor s)))) s))
      as (entries & s' & Hrest & Hrows & Hconn & Hids & Heffs).
    erewrite bind_run by exact Hrest.
    exists (entry :: entries), s'. split; [reflexivity|].
    split; [exact Hrows|]. split; [exact Hconn|].
    split; [cbn [map]; now rewrite Hid, Hids | now constructor].
Qed.

(** A tick of a WebSocket connection never raises and stores nothing,
    whatever the query of the turbines answers.  On a socket that is
    not open it does nothing at all.  On an open socket, when the query
    resolves it sends one message with a generated entry for each of
    the first 25 active turbines, in order, and the table of power
    outputs is left as it was (the SSE tick stores every reading it
    pushes); when the query rejects, the error is written to
    [console.error], and one [error] message is sent if the socket is
    still open then, none otherwise. *)
Theorem ws_tick_stores_nothing (findAll_rejects : option Error)
    (ws_open ws_open_in_catch : bool) (s : State) :
  exists msgs s',
    ws_sendPowerData env findAll_rejects ws_open ws_open_in_catch s = (Ok msgs, s') /\
    power_outputs s' = power_outputs s /\
    sseConnections s' = sseConnections s /\
    match ws_open, findAll_rejects with
    | false, _ => msgs = [] /\ s' = s
    | true, None =>
        console s' = console s /\
        exists entries,
          msgs = [ws_power_output (now env (clock_cursor s)) (length entries) entries] /\
          map turbineId entries =
            map id (firstn 25 (filter (fun t => active t) (wind_turbines s))) /\
          (length entries <= 25)%nat /\
          Forall efficiency_in_range entries
    | true, Some error =>
        console s' =
          console s ++ [console_error [Str "Error sending WebSocket power data:";
                                       Str (message error)]] /\
        faker_cursor s' = faker_cursor s /\
        msgs = if ws_open_in_catch
               then [ws_error "Failed to generate power data" (now env (clock_cursor s))]
               else []
    end.
Proof.
  unfold ws_sendPowerData, try_catch. destruct ws_open; cbn [negb].
  - unfold WindTurbine_findActive. destruct findAll_rejects as [error|].
    + erewrite bind_throw by reflexivity.
      destruct ws_open_in_catch; eexists _, _; (split; [reflexivity|]); cbn; auto.
    + erewrite bind_run by reflexivity. erewrite bind_run by reflexivity.
      set (turbines := firstn (Z.to_nat 25) (filter (fun t => active t) (wind_turbines s))).
      assert (forall ts turbines0 s0,
                exists entries s1,
                  map_M (ws_entry env ts) turbines0 s0 = (Ok entries, s1) /\
                  console s1 = console s0) as Hconsole.
      { intros ts turbines0. induction turbines0 as [|t turbines0 IH]; intros s0;
          cbn [map_M]; [eexists _, _; split; reflexivity|].
        destruct (ws_entry_run ts t s0) as (entry & Hentry & _).
        erewrite bind_run by exact Hentry.
        destruct (IH (set_faker_cursor (S (S (S (faker_cursor s0)))) s0))
          as (entries & s1 & Hrest & Hc).
        erewrite bind_run by exact Hrest. eexists _, _. split; [reflexivity | exact Hc]. }
      destruct (ws_entries_run (now env (clock_cursor s)) turbines
                  (set_clock_cursor (S (clock_cursor s)) s))
        as (entries & s' & Hrun & Hrows & Hconn & Hids & Heffs).
      destruct (Hconsole (now env (clock_cursor s)) turbines
                  (set_clock_cursor (S (clock_cursor s)) s))
        as (entries' & s'' & Hrun' & Hc).
      rewrite Hrun in Hrun'. injection Hrun' as <- <-.
      erewrite bind_run by exact Hrun.
      eexists _, _. split; [reflexivity|]. split; [exact Hrows|]. split; [exact Hconn|].
      split; [exact Hc|].
      exists entries. split; [reflexivity|]. split; [exact Hids|]. split; [|exact Heffs].
      rewrite <- (length_map turbineId), Hids, length_map. subst turbines.
      rewrite length_firstn. lia.
  - eexists _, _. split; [reflexivity|]. destruct findAll_rejects; auto.
Qed.

(** *** Posting one reading *)

(** [POST /windturbines/:id/power-output] always answers and never
    raises.  It stores a row only with its 201 answer: then [powerKW]
    of the body is a number, the turbine [id] exists, the store took
    the row, and exactly that row, for that turbine, was appended.
    Every other answer is a 400, 404 or 500 and leaves the table as it
    was.  Subscriptions and turbines are never touched. *)
Theorem post_power_output_outcome (pk : string) (body : JSON) (s : State) :
  exists answer s',
    post_power_output env pk body s = (Ok answer, s') /\
    sseConnections s' = sseConnections s /\ wind_turbines s' = wind_turbines s /\
    match answer with
    | answer_created row =>
        power_outputs s' = power_outputs s ++ [row] /\
        attr_windTurbineId row = JString pk /\
        prop body "powerKW" = Ok (Some (JNumber (attr_powerKW row))) /\
        (exists turbine, In turbine (wind_turbines s) /\ id turbine = pk) /\
        PowerOutput_accepts env row = true
    | answer_error status _ _ =>
        power_outputs s' = power_outputs s /\
        (status = 400 \/ status = 404 \/ status = 500)%Z
    end.
Proof.
  unfold post_power_output, try_catch, read, WindTurbine_findByPk.
  destruct (prop body "powerKW") as [powerKW | error] eqn:Hpower.
  2:{ unfold bind at 1. eexists _, _. split; [reflexivity|]. cbn. auto 6. }
  erewrite bind_run by reflexivity.
  destruct (prop body "timestamp") as [timestamp | error] eqn:Htimestamp.
  2:{ unfold bind at 1. eexists _, _. split; [reflexivity|]. cbn. auto 6. }
  erewrite bind_run by reflexivity.
  destruct powerKW as [[| | power | | |]|];
    try (eexists _, _; split; [reflexivity|]; cbn; auto 6).
  erewrite bind_run by reflexivity.
  destruct (find (fun t => String.eqb (id t) pk) (wind_turbines s)) as [turbine|] eqn:Hfind.
  2:{ eexists _, _. split; [reflexivity|]. cbn. auto 6. }
  apply find_some in Hfind as [Hin Hid]. apply String.eqb_eq in Hid.
  assert (exists date s1,
            (match timestamp with
             | Some t => if truthy timestamp then ret (Date_of env t) else new_Date env
             | None => new_Date env
             end) s = (Ok date, s1) /\
            power_outputs s1 = power_outputs s /\
            sseConnections s1 = sseConnections s /\
            wind_turbines s1 = wind_turbines s)
    as (date & s1 & Hdate & Hrows & Hconn & Hturbines).
  { destruct timestamp as [t|]; [destruct (truthy (Some t))|];
      eexists _, _; split; try reflexivity; auto. }
  erewrite bind_run by exact Hdate.
  unfold PowerOutput_create, bind.
  destruct (PowerOutput_accepts env (mkAttrs (JString pk) power date)) eqn:Haccepts.
  - eexists _, _. split; [reflexivity|]. cbn. rewrite Hrows.
    split; [exact Hconn|]. split; [exact Hturbines|].
    split; [reflexivity|]. split; [reflexivity|]. split; [reflexivity|].
    split; [eauto | exact Haccepts].
  - eexists _, _. split; [reflexivity|]. cbn. auto 6.
Qed.

(** *** Disconnecting *)

Lemma connection_duration_run (connectionId : string) (s : State) :
  exists seconds s',
    connection_duration env connectionId s = (Ok seconds, s') /\
    sseConnections s' = sseConnections s /\ intervals s' = intervals s /\
    power_outputs s' = power_outputs s.
Proof.
  unfold connection_duration. erewrite bind_run by reflexivity.
  destruct (sseConnections s !! connectionId); eexists _, _; split; try reflexivity; auto.
Qed.

Lemma on_close_run (connectionId : string) (intervalId : nat)
    (turbineFilter : list string) (s : State) :
  exists s',
    on_close env connectionId intervalId turbineFilter s
    = (Ok [clearInterval intervalId], s') /\
    sseConnections s' = delete connectionId (sseConnections s) /\
    intervals s' = intervals s /\ power_outputs s' = power_outputs s.
Proof.
  unfold on_close.
  destruct (connection_duration_run connectionId s)
    as (seconds & s1 & Hrun & Hconn & Hint & Hrows).
  erewrite bind_run by exact Hrun.
  eexists. split; [reflexivity|]. cbn. rewrite Hconn. auto.
Qed.

Lemma on_error_run (connectionId : string) (intervalId : nat)
    (turbineFilter : list string) (err : RequestError) (s : State) :
  exists s',
    on_error env connectionId intervalId turbineFilter err s
    = (Ok [clearInterval intervalId], s') /\
    sseConnections s' = delete connectionId (sseConnections s) /\
    intervals s' = intervals s /\ power_outputs s' = power_outputs s.
Proof.
  unfold on_error.
  destruct (connection_duration_run connectionId s)
    as (seconds & s1 & Hrun & Hconn & Hint & Hrows).
  erewrite bind_run by exact Hrun.
  erewrite bind_run by reflexivity.
  destruct (_ || _)%bool; (eexists; split; [reflexivity|]); cbn; rewrite Hconn; auto.
Qed.

(** Both disconnect handlers, whatever the error, stop the timer of
    their subscription and remove its entry, and only that entry, from
    [sseConnections]; a handler that runs again (['error'] followed by
    ['close']) finds nothing more to remove. *)
Theorem disconnect_releases_subscription (connectionId : string) (intervalId : nat)
    (turbineFilter : list string) (err : RequestError) (s : State) :
  exists s1 s2,
    on_error env connectionId intervalId turbineFilter err s
    = (Ok [clearInterval intervalId], s1) /\
    on_close env connectionId intervalId turbineFilter s1
    = (Ok [clearInterval intervalId], s2) /\
    sseConnections s1 = delete connectionId (sseConnections s) /\
    sseConnections s2 = sseConnections s1 /\
    sseConnections s1 !! connectionId = None /\
    (forall other, other <> connectionId ->
                   sseConnections s1 !! other = sseConnections s !! other) /\
    power_outputs s2 = power_outputs s.
Proof.
  destruct (on_error_run connectionId intervalId turbineFilter err s)
    as (s1 & Herror & Hconn1 & _ & Hrows1).
  destruct (on_close_run connectionId intervalId turbineFilter s1)
    as (s2 & Hclose & Hconn2 & _ & Hrows2).
  exists s1, s2. split; [exact Herror|]. split; [exact Hclose|].
  split; [exact Hconn1|].
  split; [rewrite Hconn2, Hconn1; apply delete_delete_eq|].
  split; [rewrite Hconn1; apply lookup_delete_eq|].
  split; [|congruence].
  intros other Hother. rewrite Hconn1. now apply lookup_delete_ne.
Qed.

(** *** Subscribing and closing *)

Lemma subscription_registers (query : list (string * string)) (s : State) :
  requested_turbines query <> [] ->
  exists ops s' startTime,
    get_power_output env query s = (Ok ops, s') /\
    sseConnections s' =
      <[next_connectionId env s :=
          mkConnection (length (intervals s)) (requested_turbines query) startTime]>
        (sseConnections s).
Proof.
  unfold requested_turbines, get_power_output, next_connectionId.
  destruct (QueryNormalizer.normalizeQueryParams query ["windTurbineIds"; "interval"]
              !! "windTurbineIds") as [ids|] eqn:Hids; [|congruence].
  destruct ids as [|c ids]; [intros H; exfalso; apply H; reflexivity|].
  set (ids' := String c ids) in *. intros Hfilter.
  erewrite bind_run by reflexivity. erewrite bind_run by reflexivity.
  destruct (filter (fun id => negb (String.eqb id "")) (map Js.trim (Js.split "," ids')))
    as [|t ts] eqn:Hf; [congruence|].
  change (length (t :: ts) =? 0)%nat with false. cbv iota.
  erewrite bind_run by reflexivity. erewrite bind_run by reflexivity.
  erewrite bind_run by reflexivity. erewrite bind_run by reflexivity.
  match goal with |- context [bind (sendPowerData env ?f) _ ?s1] =>
    destruct (ApiFacts.sendPowerData_total env f s1) as (first & s2 & Hsend);
    pose proof (ApiFacts.keeps_subscriptions_sendPowerData env f s1) as Hkeep
  end.
  rewrite Hsend in Hkeep. cbn [snd] in Hkeep. destruct Hkeep as [Hconn _].
  erewrite bind_run by exact Hsend.
  eexists _, _, _. split; [reflexivity|]. cbn [snd]. rewrite Hconn. reflexivity.
Qed.

(** A subscription that is accepted under a fresh identifier adds one
    connection, and the ['close'] handler of that request (which holds
    the identifier and the timer of the subscription) puts
    [sseConnections] back to what it was before the request. *)
Theorem subscribe_then_close_restores (query : list (string * string)) (s : State) :
  requested_turbines query <> [] ->
  sseConnections s !! next_connectionId env s = None ->
  exists ops s1 s2,
    get_power_output env query s = (Ok ops, s1) /\
    size (sseConnections s1) = S (size (sseConnections s)) /\
    on_close env (next_connectionId env s) (length (intervals s))
             (requested_turbines query) s1
    = (Ok [clearInterval (length (intervals s))], s2) /\
    sseConnections s2 = sseConnections s.
Proof.
  intros Hfilter Hfresh.
  destruct (subscription_registers query s Hfilter) as (ops & s1 & startTime & Hrun & Hconn).
  destruct (on_close_run (next_connectionId env s) (length (intervals s))
              (requested_turbines query) s1) as (s2 & Hclose & Hconn2 & _).
  exists ops, s1, s2. split; [exact Hrun|].
  split; [rewrite Hconn; now apply map_size_insert_None|].
  split; [exact Hclose|].
  rewrite Hconn2, Hconn. now apply delete_insert_id.
Qed.

(** *** The status route *)

Lemma status_entries_run (conns : list (string * Connection)) : forall s : State,
  exists entries s',
    map_M (fun '(connectionId, conn) =>
             let! date_now := new_Date env in
             ret (mkStatusEntry connectionId (startTime conn) (conn_turbineFilter conn)
                    (length (conn_turbineFilter conn))
                    (Math_round (inject_Z (getTime date_now - getTime (startTime conn))
                                 / 1000))))
          conns s = (Ok entries, s') /\
    sseConnections s' = sseConnections s /\
    map (fun e => (status_connectionId e, status_turbineFilter e)) entries =
    map (fun kv => (fst kv, conn_turbineFilter (snd kv))) conns /\
    Forall (fun e => status_turbineCount e = length (status_turbineFilter e)) entries.
Proof.
  induction conns as [|[connectionId conn] conns IH]; intros s; cbn [map_M].
  - exists [], s. repeat split; constructor.
  - erewrite bind_run by reflexivity.
    destruct (IH (set_clock_cursor (S (clock_cursor s)) s))
      as (entries & s' & Hrest & Hconn & Hids & Hcounts).
    erewrite bind_run by exact Hrest.
    eexists (_ :: entries), s'. split; [reflexivity|].
    split; [exact Hconn|]. cbn [map fst snd status_connectionId status_turbineFilter].
    split; [now rewrite Hids | now constructor].
Qed.

(** [GET /status] reports exactly the registered subscriptions: their
    number is the size of [sseConnections], the entries are its keys
    with their turbine filters, each counted by [turbineCount], and the
    route changes no subscription. *)
Theorem status_lists_subscriptions (s : State) :
  exists status s',
    get_status env s = (Ok status, s') /\
    sseConnections s' = sseConnections s /\
    activeConnections status = size (sseConnections s) /\
    map (fun e => (status_connectionId e, status_turbineFilter e)) (connections status) =
    map (fun kv => (fst kv, conn_turbineFilter (snd kv)))
        (map_to_list (sseConnections s)) /\
    Forall (fun e => status_turbineCount e = length (status_turbineFilter e))
           (connections status).
Proof.
  unfold get_status. erewrite bind_run by reflexivity.
  destruct (status_entries_run (map_to_list (sseConnections s)) s)
    as (entries & s' & Hrun & Hconn & Hids & Hcounts).
  erewrite bind_run by exact Hrun.
  eexists _, _. split; [reflexivity|]. cbn [snd activeConnections connections].
  split; [exact Hconn|]. split; [|split; assumption].
  rewrite <- length_map_to_list.
  rewrite <- (length_map (fun e => (status_connectionId e, status_turbineFilter e))), Hids.
  apply length_map.
Qed.

End Server.

End RoutesFacts.

(** ** A batch that fails half-way *)

Module BatchFailureFacts.

Import Js Api ApiSpec.

Section Store.

Variable env : Env.

(** The store checks the turbine of a row (its foreign key) and nothing
    else. *)
Variable known : JSON -> bool.
Hypothesis store_checks_turbine :
  forall attrs, PowerOutput_accepts env attrs = known (attr_windTurbineId attrs).

Lemma save_reading_outcome (saved : list PowerOutputAttrs) (reading : JSON) (s : State) :
  reading <> JNull ->
  match well_formed reading with
  | None => save_reading env saved reading s = (Ok saved, s)
  | Some (turbine, power) =>
      exists date s1,
        power_outputs s1 = power_outputs s /\
        save_reading env saved reading s =
        if known turbine
        then (Ok (saved ++ [mkAttrs turbine power date]),
              set_power_outputs (power_outputs s1 ++ [mkAttrs turbine power date]) s1)
        else (Throw (mkError "SequelizeDatabaseError"), s1)
  end.
Proof.
  intros Hnull. unfold save_reading, read, well_formed.
  rewrite !(ApiFacts.prop_not_null reading _ Hnull).
  erewrite bind_run by reflexivity. erewrite bind_run by reflexivity.
  destruct (field reading "windTurbineId") as [turbine|] eqn:Hid; [|reflexivity].
  destruct (field reading "powerKW") as [[| | power | | |]|] eqn:Hpower;
    try (destruct (truthy (Some turbine)); reflexivity).
  destruct (truthy (Some turbine)) eqn:Htruthy; [|reflexivity].
  cbn [negb orb is_number].
  erewrite bind_run by reflexivity.
  assert (exists date s1,
            (match field reading "timestamp" with
             | Some t => if truthy (field reading "timestamp")
                         then ret (Date_of env t) else new_Date env
             | None => new_Date env
             end) s = (Ok date, s1) /\ power_outputs s1 = power_outputs s)
    as (date & s1 & Hdate & Hsame).
  { destruct (field reading "timestamp") as [t|];
      [destruct (truthy (Some t))|]; eexists _, _; split; reflexivity. }
  erewrite bind_run by exact Hdate.
  exists date, s1. split; [exact Hsame|].
  unfold bind, PowerOutput_create. rewrite store_checks_turbine. cbn [attr_windTurbineId].
  destruct (known turbine); reflexivity.
Qed.

Lemma save_readings_until_failure (before : list JSON) (bad : JSON) (after : list JSON) :
  Forall (fun reading =>
            reading <> JNull /\
            forall turbine power,
              well_formed reading = Some (turbine, power) -> known turbine = true)
         before ->
  (bad = JNull \/
   exists turbine power, well_formed bad = Some (turbine, power) /\ known turbine = false) ->
  forall (saved : list PowerOutputAttrs) (s : State),
  exists error rows s',
    save_readings env saved (before ++ bad :: after) s = (Throw error, s') /\
    power_outputs s' = power_outputs s ++ rows /\
    map id_and_power rows = omap well_formed before.
Proof.
  intros Hbefore Hbad.
  induction Hbefore as [|reading before [Hnull Hknown] _ IH]; intros saved s;
    cbn [app save_readings].
  - destruct Hbad as [-> | (turbine & power & Hwf & Hunknown)].
    + eexists _, [], s. split; [reflexivity|]. now rewrite app_nil_r.
    + assert (bad <> JNull) as Hnull by (intros ->; discriminate).
      pose proof (save_reading_outcome saved bad s Hnull) as Hrun.
      rewrite Hwf in Hrun. destruct Hrun as (date & s1 & Hsame & Hrun).
      rewrite Hunknown in Hrun.
      erewrite bind_throw by exact Hrun.
      eexists _, [], s1. split; [reflexivity|]. now rewrite app_nil_r.
  - pose proof (save_reading_outcome saved reading s Hnull) as Hrun.
    destruct (well_formed reading) as [[turbine power]|] eqn:Hwf.
    + destruct Hrun as (date & s1 & Hsame & Hrun).
      rewrite (Hknown turbine power eq_refl) in Hrun.
      erewrite bind_run by exact Hrun.
      destruct (IH (saved ++ [mkAttrs turbine power date])
                   (set_power_outputs
                      (power_outputs s1 ++ [mkAttrs turbine power date]) s1))
        as (error & rows & s' & Hrest & Hrows & Hmap).
      exists error, (mkAttrs turbine power date :: rows), s'.
      split; [exact Hrest|]. cbn [power_outputs set_power_outputs] in Hrows.
      split; [now rewrite Hrows, Hsame, <- app_assoc|].
      cbn [map omap list_omap]. rewrite Hwf. fold (omap well_formed before).
      now rewrite Hmap.
    + erewrite bind_run by exact Hrun.
      destruct (IH saved s) as (error & rows & s' & Hrest & Hrows & Hmap).
      exists error, rows, s'. split; [exact Hrest|]. split; [exact Hrows|].
      cbn [omap list_omap]. rewrite Hwf. exact Hmap.
Qed.

(** A batch is not saved as a whole.  When an element of [readings] is
    [null], or names a turbine that the store refuses, the route
    answers 500, yet the well-formed readings that came before it stay
    stored, in order, and those that come after it are never looked
    at. *)
Theorem batch_failure_keeps_earlier_rows (fields : list (string * JSON))
    (before : list JSON) (bad : JSON) (after : list JSON) (s : State) :
  assoc "readings" fields = Some (JArray (before ++ bad :: after)) ->
  Forall (fun reading =>
            reading <> JNull /\
            forall turbine power,
              well_formed reading = Some (turbine, power) -> known turbine = true)
         before ->
  (bad = JNull \/
   exists turbine power, well_formed bad = Some (turbine, power) /\ known turbine = false) ->
  exists rows s',
    post_power_output_batch env (JObject fields) s =
    (Ok (res_status_json 500
           (error_body "Internal Server Error" "Failed to save power readings")), s') /\
    power_outputs s' = power_outputs s ++ rows /\
    map id_and_power rows = omap well_formed before.
Proof.
  intros Hbody Hbefore Hbad.
  destruct (save_readings_until_failure before bad after Hbefore Hbad [] s)
    as (error & rows & s' & Hrun & Hrows & Hmap).
  unfold post_power_output_batch, try_catch, read. cbn [prop]. rewrite Hbody.
  erewrite bind_run by reflexivity. cbv beta iota.
  erewrite bind_throw by exact Hrun.
  eexists rows, _. split; [reflexivity|]. cbn. split; [exact Hrows | exact Hmap].
Qed.

End Store.

End BatchFailureFacts.

(** ** Names of the seeded turbines *)

Module SeedFacts.

Import Seed.

Local Abbreviation chars := list_ascii_of_string.

Lemma chars_append (a b : string) : chars (a ++ b) = (chars a ++ chars b)%list.
Proof.
  induction a as [|c a IH]; [reflexivity|].
  change (String c a ++ b)%string with (String c (a ++ b)). cbn. now rewrite IH.
Qed.

Lemma chars_inj (a b : string) : chars a = chars b -> a = b.
Proof.
  intros H. rewrite <- (string_of_list_ascii_of_string a),
              <- (string_of_list_ascii_of_string b).
  now rewrite H.
Qed.

(** A text is cut in one way only at its last dash. *)
Lemma last_dash_unique (p1 : list ascii) : forall p2 n1 n2 : list ascii,
  (p1 ++ "-"%char :: n1 = p2 ++ "-"%char :: n2)%list ->
  ~ In "-"%char n1 -> ~ In "-"%char n2 -> n1 = n2.
Proof.
  induction p1 as [|c p1 IH]; intros [|c' p2] n1 n2 H H1 H2; cbn in H.
  - now injection H.
  - injection H as _ ->. exfalso. apply H1. apply in_or_app. right. now left.
  - injection H as _ <-. exfalso. apply H2. apply in_or_app. right. now left.
  - injection H as _ H. now apply (IH p2).
Qed.

Lemma digits_no_dash (d : Decimal.uint) :
  ~ In "-"%char (chars (DecimalString.NilEmpty.string_of_uint d)).
Proof.
  induction d; cbn; intros H; [exact H | ..];
    (destruct H as [H | H]; [discriminate | auto]).
Qed.

Lemma padStart_zero_cases (s : string) :
  padStart_zero 3 s = s \/ padStart_zero 3 s = String "0" s \/
  padStart_zero 3 s = String "0" (String "0" s) \/
  padStart_zero 3 s = String "0" (String "0" (String "0" s)).
Proof.
  unfold padStart_zero.
  destruct (3 - String.length s)%nat as [|[|[|[|k]]]] eqn:Hk.
  - left. reflexivity.
  - right. left. reflexivity.
  - right. right. left. reflexivity.
  - right. right. right. reflexivity.
  - lia.
Qed.

Lemma padded_number_value (n : nat) :
  option_map Nat.of_uint
    (DecimalString.NilEmpty.uint_of_string (padStart_zero 3 (String_of_nat n)))
  = Some n.
Proof.
  unfold String_of_nat.
  destruct (padStart_zero_cases (DecimalString.NilEmpty.string_of_uint (Nat.to_uint n)))
    as [-> | [-> | [-> | ->]]]; cbn [DecimalString.NilEmpty.uint_of_string];
    rewrite DecimalString.NilEmpty.usu; cbn; f_equal;
    exact (DecimalNat.Unsigned.of_to n).
Qed.

Lemma padded_number_no_dash (n : nat) :
  ~ In "-"%char (chars (padStart_zero 3 (String_of_nat n))).
Proof.
  unfold String_of_nat.
  pose proof (digits_no_dash (Nat.to_uint n)) as Hd.
  destruct (padStart_zero_cases (DecimalString.NilEmpty.string_of_uint (Nat.to_uint n)))
    as [-> | [-> | [-> | ->]]]; cbn; intros H;
    repeat (destruct H as [H | H]; [discriminate|]); auto.
Qed.

(** Two different indexes never get the same turbine name, although
    the adjective and the noun repeat every 100 indexes: the number at
    the end of the name tells the index. *)
Theorem generateTurbineName_injective (i j : nat) :
  generateTurbineName i = generateTurbineName j -> i = j.
Proof.
  unfold generateTurbineName. intros H.
  apply (f_equal chars) in H. rewrite !chars_append in H.
  change (chars "-") with ["-"%char] in H. cbn [app] in H.
  match type of H with
  | (?a1 ++ "-"%char :: ?b1 ++ "-"%char :: ?n1
     = ?a2 ++ "-"%char :: ?b2 ++ "-"%char :: ?n2)%list =>
      assert (n1 = n2) as Hnum;
      [apply (last_dash_unique (a1 ++ "-"%char :: b1) (a2 ++ "-"%char :: b2));
       [rewrite <- !app_assoc; exact H
       | apply padded_number_no_dash | apply padded_number_no_dash]|]
  end.
  apply chars_inj in Hnum.
  pose proof (padded_number_value (i + 1)) as Hi. rewrite Hnum in Hi.
  rewrite padded_number_value in Hi. injection Hi as Hi. lia.
Qed.

End SeedFacts.

(** ** The further properties at concrete inputs *)

Lemma pass_submits_each_turbine_once_witness :
  exists s' tr,
    Simulator.runSimulation sim_env_half 0 10 (Ok two_turbines) refused sim_idle
    = (Ok tt, s') /\
    Simulator.trace s' = Simulator.trace sim_idle ++ tr /\
    map Simulator.windTurbineId (concat (SimulatorSpec.posts tr)) = ["T1"; "T2"]%string.
Proof.
  destruct (PassFacts.pass_submits_each_turbine_once sim_env_half 0 half_in_unit_interval
              10 refused two_turbines sim_idle) as (s' & tr & Hrun & Htr & Hids & _).
  exists s', tr. split; [exact Hrun|]. split; [exact Htr | exact Hids].
Defined.

Lemma outlier_decided_by_first_draw_witness :
  exists r s',
    Simulator.generatePowerOutput sim_env_half 100 (Simulator.mkTurbine "T1" 1500)
      (mkDate 12 0) sim_idle = (Ok r, s') /\
    Simulator.outlier r = true.
Proof.
  destruct (SimulatorFacts.generatePowerOutput_total sim_env_half 100 half_in_unit_interval
              (Simulator.mkTurbine "T1" 1500) (mkDate 12 0) sim_idle) as (r & s' & Hrun).
  exists r, s'. split; [exact Hrun|].
  destruct (ReadingFacts.outlier_decided_by_first_draw sim_env_half 100 _ _ _ _ _ Hrun)
    as (_ & _ & Hfull).
  apply Hfull; [lia | exact half_in_unit_interval].
Defined.

Lemma no_output_under_zero_factor_witness :
  exists r s',
    Simulator.generatePowerOutput sim_env_half 0 (Simulator.mkTurbine "T1" 1500)
      (mkDate 12 0) maintenance_state = (Ok r, s') /\
    Simulator.powerKW r == 0.
Proof.
  destruct (SimulatorFacts.generatePowerOutput_total sim_env_half 0 half_in_unit_interval
              (Simulator.mkTurbine "T1" 1500) (mkDate 12 0) maintenance_state)
    as (r & s' & Hrun).
  exists r, s'. split; [exact Hrun|].
  apply (ReadingFacts.no_output_under_zero_factor sim_env_half 0
           (Simulator.mkTurbine "T1" 1500) (mkDate 12 0) maintenance_state r s'
           WeatherModel.maintenance_window eq_refl (Qeq_refl 0) Hrun).
  vm_compute in Hrun. injection Hrun as <- _. reflexivity.
Defined.

Lemma weather_factor_scales_reading_witness :
  exists r s',
    Simulator.generatePowerOutput sim_env_half 0 (Simulator.mkTurbine "T1" 1500)
      (mkDate 12 0) (storm_state 5) = (Ok r, s') /\
    0 <= Simulator.powerKW r /\
    Simulator.powerKW r <= inject_Z 1500 * 0.2 * 1.656 + 0.005.
Proof.
  destruct (SimulatorFacts.generatePowerOutput_total sim_env_half 0 half_in_unit_interval
              (Simulator.mkTurbine "T1" 1500) (mkDate 12 0) (storm_state 5))
    as (r & s' & Hrun).
  exists r, s'. split; [exact Hrun|].
  apply (ReadingFacts.weather_factor_scales_reading sim_env_half 0
           (Simulator.mkTurbine "T1" 1500) (mkDate 12 0) (storm_state 5) r s'
           WeatherModel.storm half_in_unit_interval);
    [cbn; lia | cbn; lra | reflexivity | exact Hrun |].
  vm_compute in Hrun. injection Hrun as <- _. reflexivity.
Defined.

Lemma storm_state_consistent : weather_consistent (storm_state 5).
Proof. split; [left; reflexivity | cbn; lia]. Defined.

Lemma weather_ticks_consistent_witness :
  weather_consistent (snd (WeatherModel.ticks sim_env_half 7 (storm_state 5))).
Proof.
  exact (proj2 (WeatherInvariant.weather_ticks_consistent sim_env_half half_in_unit_interval
                  7 (storm_state 5) storm_state_consistent)).
Defined.

Lemma pass_keeps_weather_consistent_witness :
  weather_consistent
    (snd (Simulator.runSimulation sim_env_half 0 10 (Ok two_turbines) refused
            (storm_state 5))).
Proof.
  exact (WeatherInvariant.pass_keeps_weather_consistent sim_env_half half_in_unit_interval
           0 10 (Ok two_turbines) refused (storm_state 5) storm_state_consistent).
Defined.

Lemma route_parameters_distinct :
  NoDup (map Js.toLowerCase ["windTurbineIds"; "interval"]%string).
Proof.
  apply NoDup_cons. split; [|apply NoDup_singleton].
  intros H. apply list_elem_of_singleton in H. discriminate.
Defined.

Lemma normalized_reads_last_spelling_witness :
  QueryNormalizer.normalizeQueryParams
    [("WINDTURBINEIDS", "T1"); ("windturbineids", "T2")]%string
    ["windTurbineIds"; "interval"]%string !! "windTurbineIds"%string
  = Some "T2"%string /\
  QueryNormalizer.normalizeQueryParams
    [("Constructor", "x")]%string
    ["windTurbineIds"; "interval"]%string !! "Constructor"%string
  = None.
Proof.
  split.
  - etransitivity.
    + apply (proj1 (NormalizerFacts.normalized_reads_last_spelling _ _
                      route_parameters_distinct));
        [constructor | discriminate | discriminate |].
      apply (NormalizerFacts.route_parameter_plain "windTurbineIds" (or_introl eq_refl)).
    + vm_compute. reflexivity.
  - apply (proj2 (proj2 (NormalizerFacts.normalized_reads_last_spelling
                           [("Constructor", "x")]%string _ route_parameters_distinct))
             "Constructor"%string "function Object() { [native code] }"%string);
      [|reflexivity].
    intros H. apply list_elem_of_In in H. cbn in H.
    destruct H as [H | [H | []]]; discriminate.
Defined.

Lemma subscription_reads_two_parameters_witness :
  Api.get_power_output (api_env 0.5) [("WindTurbineIDs", "T1")]%string
                       (api_empty [turbine_T1])
  = Api.get_power_output (api_env 0.5) [("windTurbineIds", "T1")]%string
                         (api_empty [turbine_T1]).
Proof.
  apply NormalizerFacts.subscription_reads_two_parameters; vm_compute; reflexivity.
Defined.

Lemma sse_entry_efficiency_witness :
  exists entry s',
    Api.power_entry (api_env 0.5) (mkDate 23 0) turbine_T1 (api_empty [turbine_T1])
    = (Ok entry, s') /\
    efficiency_in_range entry.
Proof.
  assert (exists entry s',
            Api.power_entry (api_env 0.5) (mkDate 23 0) turbine_T1 (api_empty [turbine_T1])
            = (Ok entry, s')) as (entry & s' & Hrun)
    by (eexists _, _; vm_compute; reflexivity).
  exists entry, s'. split; [exact Hrun|].
  exact (proj1 (RoutesFacts.sse_entry_efficiency (api_env 0.5) _ _ _ _ _ Hrun)).
Defined.

Lemma subscribe_then_close_restores_witness :
  exists ops s1 s2,
    Api.get_power_output (api_env 0.5) [("windTurbineIds", "T1")]%string
                         (api_empty [turbine_T1]) = (Ok ops, s1) /\
    size (Api.sseConnections s1) = 1%nat /\
    Routes.on_close (api_env 0.5) "c1" 0 ["T1"%string] s1
    = (Ok [Routes.clearInterval 0], s2) /\
    Api.sseConnections s2 = ∅.
Proof.
  destruct (RoutesFacts.subscribe_then_close_restores (api_env 0.5)
              [("windTurbineIds", "T1")]%string (api_empty [turbine_T1]))
    as (ops & s1 & s2 & Hrun & Hsize & Hclose & Hconn).
  - vm_compute. discriminate.
  - reflexivity.
  - exists ops, s1, s2. split; [exact Hrun|]. split; [exact Hsize|].
    split; [exact Hclose | exact Hconn].
Defined.

Lemma batch_failure_keeps_earlier_rows_witness :
  exists s',
    Api.post_power_output_batch api_env_checking
      (Js.JObject [("readings"%string,
                    Js.JArray [reading_of "T1" 500; reading_of "T9" 7;
                               reading_of "T1" 600])])
      (api_empty [turbine_T1]) =
    (Ok (Api.res_status_json 500
           (Api.error_body "Internal Server Error" "Failed to save power readings")), s') /\
    map ApiSpec.id_and_power (Api.power_outputs s') = [(Js.JString "T1", 500)].
Proof.
  destruct (BatchFailureFacts.batch_failure_keeps_earlier_rows api_env_checking known_T1
              (fun _ => eq_refl)
              [("readings"%string,
                Js.JArray [reading_of "T1" 500; reading_of "T9" 7; reading_of "T1" 600])]
              [reading_of "T1" 500] (reading_of "T9" 7) [reading_of "T1" 600]
              (api_empty [turbine_T1]) eq_refl)
    as (rows & s' & Hrun & Hrows & Hmap).
  - constructor; [|constructor]. split; [discriminate|].
    intros turbine power H. injection H as <- _. reflexivity.
  - right. exists (Js.JString "T9"), 7. split; reflexivity.
  - exists s'. split; [exact Hrun|]. rewrite Hrows. exact Hmap.
Defined.

Lemma generateTurbineName_injective_witness :
  Seed.generateTurbineName 0 <> Seed.generateTurbineName 100.
Proof.
  intros H. apply SeedFacts.generateTurbineName_injective in H. discriminate.
Defined.
